(** * Usage accounting and generation gating of the opener app

    A shallow embedding of the usage, credit and history logic of
    [unhinged-app/public/app.js]: the quota clock, the usage record kept
    in [localStorage], the cached remote free count, the generation gate,
    the credit ledger and the migration of the local history.

    - JavaScript numbers are [Z] (the counters stay far below 2^53),
      strings are [string], [null] and [undefined] are [None].
    - The global variables of the script are fields of one [State] record
      that every function threads through; an [async] function is a
      computation on that state which runs to its end before the next
      one starts (one session, one flow of control).
    - The Supabase client is an external collaborator.  Its two tables are
      part of the state; each call to it is logged and either answers,
      answers with an [error] object and no data, or throws, as the
      [script] of the state schedules.
    - Writes to the page are left out; what [updateStats] displays is its
      return value. *)

From Stdlib Require Import ZArith Lia String Ascii List Bool.
From stdpp Require Import base option list gmap strings.

Local Open Scope string_scope.
Local Open Scope Z_scope.

(** ** Constants *)

Definition FREE_LIMIT_ANONYMOUS : Z := 5.
Definition FREE_LIMIT_AUTHENTICATED : Z := 10.
Definition COOLDOWN_DAYS : Z := 2.
Definition CREDIT_PACK_SIZE : Z := 25.

(** ** Quota clock *)

(** What the code observes of [new Date()] and of the time zone of the
    host, whatever its daylight-saving changes.

    - [epochMs]     is [Date.now()];
    - [fullYear]    is [now.getFullYear()];
    - [msIntoYear]  is [now - new Date(now.getFullYear(), 0, 0)] less one
                    day of 24 hours: the milliseconds since local midnight
                    of 1 January when 31 December lasted 24 hours;
    - [tzEastAt y k] is [(Date.UTC(y, 0, k) - new Date(y, 0, k)) / 60000]
                    for day [k] of year [y]: the minutes east of UTC that
                    the host applies to local midnight of that day, less
                    than a day either way;
    - [isoNow]      is [now.toISOString()]. *)
Record Clock := {
  epochMs : Z;
  fullYear : Z;
  msIntoYear : Z;
  tzEastAt : Z -> Z -> Z;
  isoNow : string
}.

Definition MS_PER_DAY : Z := 1000 * 60 * 60 * 24.

Definition isLeap (y : Z) : bool :=
  (y mod 4 =? 0) && (negb (y mod 100 =? 0) || (y mod 400 =? 0)).

Definition daysInYear (y : Z) : Z := if isLeap y then 366 else 365.

(** [Math.floor((now - new Date(now.getFullYear(), 0, 0)) / (1000*60*60*24))]:
    day 0 of January is December 31 of the year before, one day before
    January 1. *)
Definition dayOfYear (now : Clock) : Z :=
  (msIntoYear now + MS_PER_DAY) / MS_PER_DAY.

(** [Math.floor(dayOfYear / COOLDOWN_DAYS)] *)
Definition periodNumber (now : Clock) : Z :=
  dayOfYear now / COOLDOWN_DAYS.

(** [new Date(y, 0, k)] names day [k] of year [y] counted from January 1;
    the constructor carries a day outside the year into the neighbouring
    year.  The code only builds days 0 .. 367, one carry is enough. *)
Definition normDay (y k : Z) : Z * Z :=
  if k <? 1 then (y - 1, k + daysInYear (y - 1))
  else if daysInYear y <? k then (y + 1, k - daysInYear y)
  else (y, k).

Definition monthLengths (leap : bool) : list Z :=
  [31; if leap then 29 else 28; 31; 30; 31; 30; 31; 31; 30; 31; 30; 31].

(** Month and day of month of day [k] of a year, months counted from [m]. *)
Fixpoint monthDayFrom (m k : Z) (lens : list Z) : Z * Z :=
  match lens with
  | [] => (m, k)
  | len :: rest =>
      if k <=? len then (m, k) else monthDayFrom (m + 1) (k - len) rest
  end.

Definition digitChar (n : Z) : ascii := ascii_of_nat (48 + Z.to_nat n).

(** [n] written with exactly [k] decimal digits, most significant first. *)
Fixpoint pad (k : nat) (n : Z) : string :=
  match k with
  | O => EmptyString
  | S k' =>
      String (digitChar ((n / 10 ^ Z.of_nat k') mod 10))
             (pad k' (n mod 10 ^ Z.of_nat k'))
  end.

(** The year of an ISO 8601 date as [toISOString] prints it. *)
Definition isoYear (y : Z) : string :=
  if (0 <=? y) && (y <=? 9999) then pad 4 y
  else (if y <? 0 then "-" else "+") ++ pad 6 (Z.abs y).

(** [d.toISOString().split('T')[0]] for the UTC day [k] of year [y]. *)
Definition isoDate (y k : Z) : string :=
  let '(m, d) := monthDayFrom 1 k (monthLengths (isLeap y)) in
  isoYear y ++ "-" ++ pad 2 m ++ "-" ++ pad 2 d.

(** The UTC calendar day on which the local midnight [new Date(y, 0, k)]
    falls: where the host is east of Greenwich at that midnight, it is
    still the evening before in UTC. *)
Definition utcDayOfLocalMidnight (tzEast : Z -> Z -> Z) (y k : Z) : Z * Z :=
  let '(y', k') := normDay y k in
  if 0 <? tzEast y' k' then normDay y' (k' - 1) else (y', k').

Definition getCooldownPeriodStart (now : Clock) : string :=
  let dayOfYear := dayOfYear now in
  let periodNumber := dayOfYear / COOLDOWN_DAYS in
  let '(y, k) := utcDayOfLocalMidnight (tzEastAt now) (fullYear now)
                   (periodNumber * COOLDOWN_DAYS + 1) in
  isoDate y k.

(** [getNextResetTime]: local midnight of the first day of the next
    window, as (year, day of year). *)
Definition getNextResetTime (now : Clock) : Z * Z :=
  normDay (fullYear now) ((periodNumber now + 1) * COOLDOWN_DAYS + 1).

(** The UTC day, as (year, day of year), whose date is the period key. *)
Definition periodDay (now : Clock) : Z * Z :=
  utcDayOfLocalMidnight (tzEastAt now) (fullYear now)
    (periodNumber now * COOLDOWN_DAYS + 1).

(** A clock reading inside its year. *)
Definition clock_ok (now : Clock) : Prop :=
  1 <= fullYear now <= 9998 /\
  0 <= msIntoYear now < daysInYear (fullYear now) * MS_PER_DAY.

(** The cooldown window of an instant: the year and the period number. *)
Definition window (now : Clock) : Z * Z := (fullYear now, periodNumber now).

(** Windows in time order. *)
Definition window_lt (w1 w2 : Z * Z) : Prop :=
  fst w1 < fst w2 \/ (fst w1 = fst w2 /\ snd w1 < snd w2).

(** A reading on a host that keeps the offset [tz] all year. *)
Definition mkClock (y ms tz : Z) : Clock :=
  {| epochMs := 0; fullYear := y; msIntoYear := ms; tzEastAt := fun _ _ => tz;
     isoNow := "" |}.

(** ** Data model *)

Record Opener := { o_type : string; o_emoji : string; o_text : string }.

(** One entry of the local history list.  [h_analysis] is the structured
    analysis of the generator, kept opaque; [None] is JavaScript [null]. *)
Record HistoryItem := {
  h_id : Z;
  h_matchName : string;
  h_openers : list Opener;
  h_mode : string;
  h_analysis : option string;
  h_date : string
}.

(** The object stored under the key ['unhinged_usage'].  A field that the
    object does not have is [None]. *)
Record UsageData := {
  u_count : option Z;
  u_period : option string;
  u_total : option Z;
  u_history : option (list HistoryItem)
}.

Definition emptyUsage : UsageData :=
  {| u_count := None; u_period := None; u_total := None; u_history := None |}.

(** The [localStorage] cell: nothing stored, a text that [JSON.parse]
    rejects, or an object written by [saveUsageData]. *)
Inductive StorageCell :=
| Absent
| Corrupt
| Stored (d : UsageData).

(** A row of the remote [credits] table, keyed by the user id. *)
Record CreditRow := {
  balance : Z;
  total_purchased : Z;
  updated_at : string
}.

(** A row of the remote [generations] table.  [created_at] is an ISO 8601
    UTC time stamp; such stamps are ordered as their texts are. *)
Record GenRow := {
  user_id : string;
  match_name : string;
  g_openers : list Opener;
  g_mode : string;
  g_analysis : option string;
  created_at : string
}.

(** How the store treats one call: it answers, it answers with an [error]
    object (and [null] data), or the call throws. *)
Inductive Fault := Answers | ErrorResponse | Throws.

(** The calls the client makes, as they are logged in [calls]. *)
Inductive RemoteCall :=
| SelectBalance (uid : string)
| UpsertCredits (uid : string) (bal tot : Z)
| UpdateBalance (uid : string) (bal : Z)
| CountSince (uid : string) (startTime : string)
| CountAll (uid : string)
| SelectExisting (uid : string)
| InsertGeneration (row : GenRow).

(** The globals of the script, the [localStorage] cell, the two tables of
    the store, the faults scheduled for the coming remote calls (none
    scheduled: the call answers), the log of the calls made so far (most
    recent first), and which of the two usage widgets are in the page. *)
Record State := {
  clock : Clock;
  currentUser : option string;
  supabaseClient : bool;
  purchasedCredits : Z;
  cachedCloudUsage : option Z;
  cachedCloudUsagePeriod : option string;
  localStorage : StorageCell;
  credits : gmap string CreditRow;
  generations : list GenRow;
  script : list Fault;
  calls : list RemoteCall;
  hasUsageEl : bool;
  hasBuyBtn : bool
}.

Definition set_purchasedCredits (v : Z) (s : State) : State :=
  {| clock := clock s; currentUser := currentUser s;
     supabaseClient := supabaseClient s; purchasedCredits := v;
     cachedCloudUsage := cachedCloudUsage s;
     cachedCloudUsagePeriod := cachedCloudUsagePeriod s;
     localStorage := localStorage s; credits := credits s;
     generations := generations s; script := script s; calls := calls s;
     hasUsageEl := hasUsageEl s; hasBuyBtn := hasBuyBtn s |}.

Definition set_cache (v : option Z) (p : option string) (s : State) : State :=
  {| clock := clock s; currentUser := currentUser s;
     supabaseClient := supabaseClient s;
     purchasedCredits := purchasedCredits s;
     cachedCloudUsage := v; cachedCloudUsagePeriod := p;
     localStorage := localStorage s; credits := credits s;
     generations := generations s; script := script s; calls := calls s;
     hasUsageEl := hasUsageEl s; hasBuyBtn := hasBuyBtn s |}.

Definition set_localStorage (c : StorageCell) (s : State) : State :=
  {| clock := clock s; currentUser := currentUser s;
     supabaseClient := supabaseClient s;
     purchasedCredits := purchasedCredits s;
     cachedCloudUsage := cachedCloudUsage s;
     cachedCloudUsagePeriod := cachedCloudUsagePeriod s;
     localStorage := c; credits := credits s;
     generations := generations s; script := script s; calls := calls s;
     hasUsageEl := hasUsageEl s; hasBuyBtn := hasBuyBtn s |}.

Definition set_credits (t : gmap string CreditRow) (s : State) : State :=
  {| clock := clock s; currentUser := currentUser s;
     supabaseClient := supabaseClient s;
     purchasedCredits := purchasedCredits s;
     cachedCloudUsage := cachedCloudUsage s;
     cachedCloudUsagePeriod := cachedCloudUsagePeriod s;
     localStorage := localStorage s; credits := t;
     generations := generations s; script := script s; calls := calls s;
     hasUsageEl := hasUsageEl s; hasBuyBtn := hasBuyBtn s |}.

Definition set_generations (g : list GenRow) (s : State) : State :=
  {| clock := clock s; currentUser := currentUser s;
     supabaseClient := supabaseClient s;
     purchasedCredits := purchasedCredits s;
     cachedCloudUsage := cachedCloudUsage s;
     cachedCloudUsagePeriod := cachedCloudUsagePeriod s;
     localStorage := localStorage s; credits := credits s;
     generations := g; script := script s; calls := calls s;
     hasUsageEl := hasUsageEl s; hasBuyBtn := hasBuyBtn s |}.

Definition set_wire (f : list Fault) (c : list RemoteCall) (s : State) : State :=
  {| clock := clock s; currentUser := currentUser s;
     supabaseClient := supabaseClient s;
     purchasedCredits := purchasedCredits s;
     cachedCloudUsage := cachedCloudUsage s;
     cachedCloudUsagePeriod := cachedCloudUsagePeriod s;
     localStorage := localStorage s; credits := credits s;
     generations := generations s; script := f; calls := c;
     hasUsageEl := hasUsageEl s; hasBuyBtn := hasBuyBtn s |}.

Definition set_clock (c : Clock) (s : State) : State :=
  {| clock := c; currentUser := currentUser s;
     supabaseClient := supabaseClient s;
     purchasedCredits := purchasedCredits s;
     cachedCloudUsage := cachedCloudUsage s;
     cachedCloudUsagePeriod := cachedCloudUsagePeriod s;
     localStorage := localStorage s; credits := credits s;
     generations := generations s; script := script s; calls := calls s;
     hasUsageEl := hasUsageEl s; hasBuyBtn := hasBuyBtn s |}.

(** ** Computations: state passing with exceptions *)

Inductive Outcome (A : Type) :=
| Val (a : A)
| Exn.
Arguments Val {A} a.
Arguments Exn {A}.

Definition M (A : Type) : Type := State -> Outcome A * State.

Definition ret {A} (a : A) : M A := fun s => (Val a, s).

Definition bind {A B} (m : M A) (k : A -> M B) : M B :=
  fun s => match m s with
           | (Val a, s') => k a s'
           | (Exn, s') => (Exn, s')
           end.

(** [try { m } catch { h }] *)
Definition tryCatch {A} (m : M A) (h : M A) : M A :=
  fun s => match m s with
           | (Val a, s') => (Val a, s')
           | (Exn, s') => h s'
           end.

Definition gets {A} (f : State -> A) : M A := fun s => (Val (f s), s).
Definition modify (f : State -> State) : M unit := fun s => (Val tt, f s).

Declare Scope js_scope.
Delimit Scope js_scope with js.
Notation "x <- m ;; k" := (bind m (fun x => k))
  (at level 100, m at next level, right associativity) : js_scope.
Notation "m ;;; k" := (bind m (fun _ => k))
  (at level 100, right associativity) : js_scope.
Local Open Scope js_scope.

(** The value and the final state of a run. *)
Definition result {A} (m : M A) (s : State) : Outcome A := fst (m s).
Definition after {A} (m : M A) (s : State) : State := snd (m s).

(** ** The store, seen from the client *)

(** One round trip: the call is logged and the next scheduled fault
    decides whether it answers ([true]), reports an error ([false]) or
    throws. *)
Definition roundTrip (c : RemoteCall) : M bool :=
  fun s =>
    match script s with
    | [] => (Val true, set_wire [] (c :: calls s) s)
    | Answers :: fs => (Val true, set_wire fs (c :: calls s) s)
    | ErrorResponse :: fs => (Val false, set_wire fs (c :: calls s) s)
    | Throws :: fs => (Exn, set_wire fs (c :: calls s) s)
    end.

Definition rowsOf (uid : string) (g : list GenRow) : list GenRow :=
  List.filter (fun r => String.eqb (user_id r) uid) g.

Definition rowsSince (uid startTime : string) (g : list GenRow) : list GenRow :=
  List.filter (fun r => String.leb startTime (created_at r)) (rowsOf uid g).

(** [from('credits').select('balance').eq('id', uid).single()]:
    the [data] of the answer, [None] for [null]. *)
Definition selectBalance (uid : string) : M (option Z) :=
  ok <- roundTrip (SelectBalance uid) ;;
  if ok : bool then gets (fun s => balance <$> credits s !! uid) else ret None.

(** [from('credits').upsert({id, balance, total_purchased, updated_at})]:
    [true] when the answer carries no [error]. *)
Definition upsertCredits (uid : string) (row : CreditRow) : M bool :=
  ok <- roundTrip (UpsertCredits uid (balance row) (total_purchased row)) ;;
  if ok : bool
  then modify (fun s => set_credits (<[uid := row]> (credits s)) s) ;;; ret true
  else ret false.

(** The row an update of [balance] and [updated_at] leaves in place of [r]. *)
Definition debitedRow (bal : Z) (stamp : string) (r : CreditRow) : CreditRow :=
  {| balance := bal; total_purchased := total_purchased r; updated_at := stamp |}.

(** [from('credits').update({balance, updated_at}).eq('id', uid)]:
    the columns of the matching row are overwritten; no row, no change and
    no error. *)
Definition updateBalance (uid : string) (bal : Z) (stamp : string) : M bool :=
  ok <- roundTrip (UpdateBalance uid bal) ;;
  if ok : bool
  then modify (fun s =>
         set_credits
           (alter (debitedRow bal stamp) uid (credits s)) s) ;;;
       ret true
  else ret false.

(** [from('generations').select('*', {count: 'exact', head: true})
      .eq('user_id', uid).gte('created_at', startTime)]: the [count] of
    the answer, [None] for [null]. *)
Definition countSince (uid startTime : string) : M (option Z) :=
  ok <- roundTrip (CountSince uid startTime) ;;
  if ok : bool
  then gets (fun s => Some (Z.of_nat (length (rowsSince uid startTime (generations s)))))
  else ret None.

Definition countAll (uid : string) : M (option Z) :=
  ok <- roundTrip (CountAll uid) ;;
  if ok : bool
  then gets (fun s => Some (Z.of_nat (length (rowsOf uid (generations s)))))
  else ret None.

(** [from('generations').select('id').eq('user_id', uid).limit(1)] *)
Definition selectExisting (uid : string) : M (option (list GenRow)) :=
  ok <- roundTrip (SelectExisting uid) ;;
  if ok : bool
  then gets (fun s => Some (take 1 (rowsOf uid (generations s))))
  else ret None.

(** [from('generations').insert(row)] *)
Definition insertGeneration (row : GenRow) : M bool :=
  ok <- roundTrip (InsertGeneration row) ;;
  if ok : bool
  then modify (fun s => set_generations (generations s ++ [row]) s) ;;; ret true
  else ret false.

(** ** Local usage ledger *)

(** [x || 0] for a counter that may be missing. *)
Definition orZero (x : option Z) : Z :=
  match x with Some n => n | None => 0 end.

(** [JSON.parse(localStorage.getItem('unhinged_usage') || '{}')], with
    [{}] when parsing throws. *)
Definition getUsageData (s : State) : UsageData :=
  match localStorage s with
  | Absent => emptyUsage
  | Corrupt => emptyUsage
  | Stored d => d
  end.

Definition saveUsageData (data : UsageData) : M unit :=
  modify (set_localStorage (Stored data)).

(** [data.period === currentPeriod] *)
Definition samePeriod (p : option string) (currentPeriod : string) : bool :=
  match p with
  | Some q => String.eqb q currentPeriod
  | None => false
  end.

(** [currentUser && supabaseClient]: the id of the signed-in user. *)
Definition signedIn (s : State) : option string :=
  match currentUser s with
  | Some uid => if supabaseClient s then Some uid else None
  | None => None
  end.

Definition currentPeriod (s : State) : string :=
  getCooldownPeriodStart (clock s).

(** [new Date(periodStart + 'T00:00:00Z').toISOString()] *)
Definition startTimeOf (periodStart : string) : string :=
  (periodStart ++ "T00:00:00.000Z")%string.

(** The lines after the cloud branch of [getFreeUsageCount]. *)
Definition localFreeCount (s : State) : Z :=
  let data := getUsageData s in
  if samePeriod (u_period data) (currentPeriod s) then orZero (u_count data)
  else 0.

(** The query of [getFreeUsageCount] and the two assignments after it. *)
Definition refreshCloudCount (uid periodStart : string) : M Z :=
  count <- countSince uid (startTimeOf periodStart) ;;
  modify (set_cache (Some (orZero count)) (Some periodStart)) ;;;
  ret (orZero count).

(** The cloud branch of [getFreeUsageCount] for the user [uid]: [Some n]
    when it returns [n], [None] when the query threw and the function
    goes on to the local record. *)
Definition cloudFreeCount (uid : string) : M (option Z) :=
  periodStart <- gets currentPeriod ;;
  cachedPeriod <- gets cachedCloudUsagePeriod ;;
  cached <- gets cachedCloudUsage ;;
  match cached with
  | Some n =>
      if samePeriod cachedPeriod periodStart then ret (Some n)
      else tryCatch (n' <- refreshCloudCount uid periodStart ;; ret (Some n'))
                    (ret None)
  | None =>
      tryCatch (n' <- refreshCloudCount uid periodStart ;; ret (Some n'))
               (ret None)
  end.

Definition getFreeUsageCount : M Z :=
  u <- gets signedIn ;;
  r <- match u with
       | Some uid => cloudFreeCount uid
       | None => ret None
       end ;;
  match r with
  | Some n => ret n
  | None => gets localFreeCount
  end.

Definition getFreeLimit (s : State) : Z :=
  match currentUser s with
  | Some _ => FREE_LIMIT_AUTHENTICATED
  | None => FREE_LIMIT_ANONYMOUS
  end.

Definition getRemainingFreeGenerations : M Z :=
  used <- getFreeUsageCount ;;
  limit <- gets getFreeLimit ;;
  ret (Z.max 0 (limit - used)).

Definition getRemainingGenerations : M Z :=
  freeRemaining <- getRemainingFreeGenerations ;;
  p <- gets purchasedCredits ;;
  ret (freeRemaining + p).

Definition canGenerate : M bool :=
  freeRemaining <- getRemainingFreeGenerations ;;
  p <- gets purchasedCredits ;;
  ret ((0 <? freeRemaining) || (0 <? p)).

(** [updateStats] returns what it writes into the page: the total of the
    remaining generations and the lifetime count. *)
Definition updateStats : M (Z * Z) :=
  freeRemaining <- getRemainingFreeGenerations ;;
  p <- gets purchasedCredits ;;
  localTotal <- gets (fun s => orZero (u_total (getUsageData s))) ;;
  u <- gets signedIn ;;
  total <- match u with
           | Some uid =>
               tryCatch
                 (count <- countAll uid ;;
                  ret (match count with Some n => n | None => localTotal end))
                 (ret localTotal)
           | None => ret localTotal
           end ;;
  ret (freeRemaining + p, total).

(** [updateGenerateUsage] reads the remaining free generations once for
    each of the two widgets that is in the page. *)
Definition updateGenerateUsage : M unit :=
  el <- gets hasUsageEl ;;
  (if el : bool then getRemainingFreeGenerations ;;; ret tt else ret tt) ;;;
  buyBtn <- gets hasBuyBtn ;;
  (if buyBtn : bool then getRemainingFreeGenerations ;;; ret tt else ret tt).

(** The record [incrementUsage] writes back for the record [data] read. *)
Definition incrementedUsage (currentPeriod : string) (data : UsageData) : UsageData :=
  let data1 :=
    if samePeriod (u_period data) currentPeriod then data
    else {| u_count := Some 0; u_period := Some currentPeriod;
            u_total := u_total data; u_history := u_history data |} in
  {| u_count := Some (orZero (u_count data1) + 1);
     u_period := u_period data1;
     u_total := Some (orZero (u_total data1) + 1);
     u_history := u_history data1 |}.

Definition bumpCache (s : State) : State :=
  match cachedCloudUsage s with
  | Some n => set_cache (Some (n + 1)) (cachedCloudUsagePeriod s) s
  | None => s
  end.

Definition incrementUsage : M unit :=
  modify bumpCache ;;;
  data <- gets getUsageData ;;
  currentPeriod <- gets currentPeriod ;;
  saveUsageData (incrementedUsage currentPeriod data) ;;;
  updateStats ;;;
  updateGenerateUsage.

(** ** Credit ledger *)

Definition loadCredits : M Z :=
  u <- gets signedIn ;;
  match u with
  | None => modify (set_purchasedCredits 0) ;;; ret 0
  | Some uid =>
      r <- tryCatch
             (data <- selectBalance uid ;;
              match data with
              | Some b =>
                  if b =? 0 then ret None
                  else modify (set_purchasedCredits b) ;;; ret (Some b)
              | None => ret None
              end)
             (ret None) ;;
      match r with
      | Some b => ret b
      | None => modify (set_purchasedCredits 0) ;;; ret 0
      end
  end.

Definition addCredits (amount : Z) : M bool :=
  u <- gets signedIn ;;
  match u with
  | None => ret false
  | Some uid =>
      tryCatch
        (p <- gets purchasedCredits ;;
         stamp <- gets (fun s => isoNow (clock s)) ;;
         ok <- upsertCredits uid {| balance := p + amount;
                                    total_purchased := p + amount;
                                    updated_at := stamp |} ;;
         if ok : bool
         then modify (fun s => set_purchasedCredits (purchasedCredits s + amount) s) ;;;
              updateStats ;;;
              ret true
         else ret false)
        (ret false)
  end.

Definition useCredit : M bool :=
  u <- gets signedIn ;;
  p <- gets purchasedCredits ;;
  match u with
  | None => ret false
  | Some uid =>
      if p <=? 0 then ret false
      else
        tryCatch
          (stamp <- gets (fun s => isoNow (clock s)) ;;
           ok <- updateBalance uid (p - 1) stamp ;;
           if ok : bool
           then modify (fun s => set_purchasedCredits (purchasedCredits s - 1) s) ;;;
                ret true
           else ret false)
          (ret false)
  end.

(** ** Generation gate *)

Definition consumeGeneration : M unit :=
  freeRemaining <- getRemainingFreeGenerations ;;
  p <- gets purchasedCredits ;;
  (if 0 <? freeRemaining then incrementUsage
   else if 0 <? p then
     useCredit ;;;
     data <- gets getUsageData ;;
     saveUsageData {| u_count := u_count data; u_period := u_period data;
                      u_total := Some (orZero (u_total data) + 1);
                      u_history := u_history data |}
   else ret tt) ;;;
  updateStats ;;;
  updateGenerateUsage.

(** ** History *)

Definition historyOf (data : UsageData) : list HistoryItem :=
  match u_history data with Some h => h | None => [] end.

(** The object [saveToHistory] builds for a new entry. *)
Definition newItem (now : Clock) (matchName : string) (openers : list Opener)
    (mode : string) (analysis : option string) : HistoryItem :=
  {| h_id := epochMs now; h_matchName := matchName; h_openers := openers;
     h_mode := mode; h_analysis := analysis; h_date := isoNow now |}.

Definition saveToHistory (matchName : string) (openers : list Opener)
    (mode : string) (analysis : option string) : M unit :=
  data <- gets getUsageData ;;
  now <- gets clock ;;
  saveUsageData
    {| u_count := u_count data; u_period := u_period data;
       u_total := u_total data;
       u_history :=
         Some (take 50 (newItem now matchName openers mode analysis
                        :: historyOf data)) |} ;;;
  u <- gets signedIn ;;
  match u with
  | Some uid =>
      tryCatch
        (insertGeneration {| user_id := uid; match_name := matchName;
                             g_openers := openers; g_mode := mode;
                             g_analysis := analysis;
                             created_at := isoNow now |} ;;;
         ret tt)
        (ret tt)
  | None => ret tt
  end.

(** One generation to be filed: the instant and the arguments of the call
    of [saveToHistory]. *)
Record Entry := {
  e_now : Clock;
  e_matchName : string;
  e_openers : list Opener;
  e_mode : string;
  e_analysis : option string
}.

Definition entryItem (e : Entry) : HistoryItem :=
  newItem (e_now e) (e_matchName e) (e_openers e) (e_mode e) (e_analysis e).

(** [saveToHistory] called at the instant of the entry. *)
Definition appendHistory (e : Entry) : M unit :=
  modify (set_clock (e_now e)) ;;;
  saveToHistory (e_matchName e) (e_openers e) (e_mode e) (e_analysis e).

Fixpoint appendAll (es : list Entry) : M unit :=
  match es with
  | [] => ret tt
  | e :: rest => appendHistory e ;;; appendAll rest
  end.

(** The row [migrateLocalHistoryToCloud] inserts for a local entry. *)
Definition migratedRow (uid : string) (item : HistoryItem) : GenRow :=
  {| user_id := uid; match_name := h_matchName item;
     g_openers := h_openers item; g_mode := h_mode item;
     g_analysis := None; created_at := h_date item |}.

(** [for (const item of items) { try { await insert(...) } catch { } }] *)
Fixpoint migrateItems (uid : string) (items : list HistoryItem) : M unit :=
  match items with
  | [] => ret tt
  | item :: rest =>
      tryCatch (insertGeneration (migratedRow uid item) ;;; ret tt) (ret tt) ;;;
      migrateItems uid rest
  end.

Definition migrateLocalHistoryToCloud : M unit :=
  u <- gets signedIn ;;
  match u with
  | None => ret tt
  | Some uid =>
      data <- gets getUsageData ;;
      match u_history data with
      | None => ret tt
      | Some [] => ret tt
      | Some history =>
          existing <- selectExisting uid ;;
          match existing with
          | Some (_ :: _) => ret tt
          | _ => migrateItems uid (take 20 history)
          end
      end
  end.

(** ** Vocabulary of the specification *)

Inductive Identity :=
| Anonymous
| Authenticated (userId : string).

Definition identity (s : State) : Identity :=
  match currentUser s with
  | Some uid => Authenticated uid
  | None => Anonymous
  end.

Definition limitOf (i : Identity) : Z :=
  match i with
  | Authenticated _ => 10
  | Anonymous => 5
  end.

(** The fields no read of the usage counters may touch: everything but
    the cache of the remote count and the wire. *)
Definition sameLedgers (s s' : State) : Prop :=
  clock s' = clock s /\
  currentUser s' = currentUser s /\
  supabaseClient s' = supabaseClient s /\
  purchasedCredits s' = purchasedCredits s /\
  localStorage s' = localStorage s /\
  credits s' = credits s /\
  generations s' = generations s /\
  hasUsageEl s' = hasUsageEl s /\
  hasBuyBtn s' = hasBuyBtn s.

(** The fault the next remote call meets, and the state once the call
    [c] has gone over the wire. *)
Definition nextFault (s : State) : Fault :=
  match script s with
  | [] => Answers
  | f :: _ => f
  end.

Definition sent (c : RemoteCall) (s : State) : State :=
  set_wire (tl (script s)) (c :: calls s) s.

(** The credit ledger operations of a session. *)
Inductive LedgerOp :=
| OpLoad
| OpAdd (amount : Z)
| OpSpend.

Definition ledgerStep (op : LedgerOp) : M unit :=
  match op with
  | OpLoad => loadCredits ;;; ret tt
  | OpAdd amount => addCredits amount ;;; ret tt
  | OpSpend => useCredit ;;; ret tt
  end.

Fixpoint ledgerRun (ops : list LedgerOp) : M unit :=
  match ops with
  | [] => ret tt
  | op :: rest => ledgerStep op ;;; ledgerRun rest
  end.

Definition amount_ok (op : LedgerOp) : Prop :=
  match op with
  | OpAdd amount => 0 <= amount
  | _ => True
  end.

(** No balance is negative, in the session or in the store. *)
Definition ledger_ok (s : State) : Prop :=
  0 <= purchasedCredits s /\
  forall uid row, credits s !! uid = Some row -> 0 <= balance row.

(** The observation [f] of the state is left as it was. *)
Definition keeps {A} (f : State -> A) (s s' : State) : Prop := f s' = f s.

(** Every run of [m] relates its first state to its last by [R]. *)
Definition frames {A} (R : State -> State -> Prop) (m : M A) : Prop :=
  forall s, R s (after m s).

(** [m] never throws. *)
Definition total {A} (m : M A) : Prop :=
  forall s, exists a, result m s = Val a.

(** No fault is scheduled: every remote call answers. *)
Definition reliable (s : State) : Prop := Forall (fun f => f = Answers) (script s).

(** The remote free count of the current period is in the cache. *)
Definition cachedFor (s : State) (n : Z) : Prop :=
  cachedCloudUsage s = Some n /\
  samePeriod (cachedCloudUsagePeriod s) (currentPeriod s) = true.

(** [cachedCloudUsagePeriod === periodStart && cachedCloudUsage !== null] *)
Definition cacheHit (s : State) : bool :=
  match cachedCloudUsage s with
  | Some _ => samePeriod (cachedCloudUsagePeriod s) (currentPeriod s)
  | None => false
  end.

(** The query [getFreeUsageCount] sends for [uid] and the count the store
    holds for it. *)
Definition countQuery (uid : string) (s : State) : RemoteCall :=
  CountSince uid (startTimeOf (currentPeriod s)).

Definition remoteFreeCount (uid : string) (s : State) : Z :=
  Z.of_nat (length (rowsSince uid (startTimeOf (currentPeriod s)) (generations s))).

(** The value [getFreeUsageCount] returns and the state it leaves when it
    has to ask the store. *)
Definition refreshed (uid : string) (s : State) : Z * State :=
  match nextFault s with
  | Answers =>
      (remoteFreeCount uid s,
       set_cache (Some (remoteFreeCount uid s)) (Some (currentPeriod s))
         (sent (countQuery uid s) s))
  | ErrorResponse =>
      (0, set_cache (Some 0) (Some (currentPeriod s)) (sent (countQuery uid s) s))
  | Throws => (localFreeCount s, sent (countQuery uid s) s)
  end.

(** No read of the free count needs the store: nobody is signed in, or
    the count of the current period is cached. *)
Definition settled (s : State) : Prop :=
  match signedIn s with
  | Some _ => cacheHit s = true
  | None => True
  end.

(** The free count such a state shows. *)
Definition usedView (s : State) : Z :=
  match signedIn s with
  | Some _ => orZero (cachedCloudUsage s)
  | None => localFreeCount s
  end.

(** The state after the lifetime count of [updateStats]. *)
Definition statsState (s : State) : State :=
  match signedIn s with
  | Some uid => sent (CountAll uid) s
  | None => s
  end.

(** The [CountSince] queries among logged calls. *)
Definition isFreeCountQuery (c : RemoteCall) : bool :=
  match c with CountSince _ _ => true | _ => false end.

Definition freeCountQueries (s : State) : nat :=
  length (List.filter isFreeCountQuery (calls s)).

(** Only the wire moved: the ledgers and the cache are as they were, some
    scheduled faults were used up, no count of free generations was
    asked of the store. *)
Definition quietStep (s s' : State) : Prop :=
  sameLedgers s s' /\
  cachedCloudUsage s' = cachedCloudUsage s /\
  cachedCloudUsagePeriod s' = cachedCloudUsagePeriod s /\
  (exists k, script s' = drop k (script s)) /\
  freeCountQueries s' = freeCountQueries s.

(** No scheduled call throws. *)
Definition noThrows (s : State) : Prop :=
  Forall (fun f => f <> Throws) (script s).

(** Reads and increments of the free count, as a session issues them
    while the clock stays where it is. *)
Inductive UsageOp :=
| OpCount
| OpIncrement.

Definition usageStep (op : UsageOp) : M unit :=
  match op with
  | OpCount => getFreeUsageCount ;;; ret tt
  | OpIncrement => incrementUsage
  end.

Fixpoint usageRun (ops : list UsageOp) : M unit :=
  match ops with
  | [] => ret tt
  | op :: rest => usageStep op ;;; usageRun rest
  end.

(** ** Sample states *)

(** 10 January 2025, noon, on a host running on UTC; the period key of
    that instant is ["2025-01-11"]. *)
Definition noonJan10 : Clock :=
  {| epochMs := 1736510400000; fullYear := 2025;
     msIntoYear := 9 * MS_PER_DAY + 43200000; tzEastAt := fun _ _ => 0;
     isoNow := "2025-01-10T12:00:00.000Z" |}.

(** A first visit: nobody signed in, nothing stored anywhere. *)
Definition freshState : State :=
  {| clock := noonJan10; currentUser := None; supabaseClient := true;
     purchasedCredits := 0; cachedCloudUsage := None;
     cachedCloudUsagePeriod := None; localStorage := Absent;
     credits := ∅; generations := []; script := []; calls := [];
     hasUsageEl := true; hasBuyBtn := true |}.

(** An anonymous visitor whose record dates from an earlier period. *)
Definition staleState : State :=
  set_localStorage
    (Stored {| u_count := Some 5; u_period := Some "2025-01-09";
               u_total := Some 12; u_history := None |})
    freshState.

(** The [n]-th of a run of sample entries. *)
Definition sampleEntry (n : nat) : Entry :=
  {| e_now := noonJan10; e_matchName := pad 2 (Z.of_nat n); e_openers := [];
     e_mode := "flirty"; e_analysis := None |}.

(** The user ["u1"] signed in on a fresh page, no credits bought yet. *)
Definition userState : State :=
  {| clock := noonJan10; currentUser := Some "u1"; supabaseClient := true;
     purchasedCredits := 0; cachedCloudUsage := None;
     cachedCloudUsagePeriod := None; localStorage := Absent;
     credits := ∅; generations := []; script := []; calls := [];
     hasUsageEl := true; hasBuyBtn := true |}.

(** The same user holding three credits of one pack of 25. *)
Definition creditedState : State :=
  set_purchasedCredits 3
    (set_credits
       {[ "u1" := {| balance := 3; total_purchased := 25;
                     updated_at := "2025-01-09T08:00:00.000Z" |} ]}
       userState).

(** Two packs bought, thirty credits spent. *)
Definition twoPacksThirtySpent : list LedgerOp :=
  [OpAdd CREDIT_PACK_SIZE; OpAdd CREDIT_PACK_SIZE] ++ repeat OpSpend 30.

(** An entry saved on 8 January 2025. *)
Definition savedItem : HistoryItem :=
  {| h_id := 1736323200000; h_matchName := "Sam"; h_openers := [];
     h_mode := "flirty"; h_analysis := None;
     h_date := "2025-01-08T08:00:00.000Z" |}.

(** The user ["u1"] signs in again: the one local entry is already in the
    store from the first sign-in, and the check of the store is answered
    with an error. *)
Definition returningUser : State :=
  set_wire [ErrorResponse] []
    (set_generations [migratedRow "u1" savedItem]
       (set_localStorage
          (Stored {| u_count := Some 1; u_period := Some "2025-01-09";
                     u_total := Some 1; u_history := Some [savedItem] |})
          userState)).

(** The [InsertGeneration] calls among logged calls. *)
Definition isInsert (c : RemoteCall) : bool :=
  match c with InsertGeneration _ => true | _ => false end.

Definition insertsMade (s : State) : nat :=
  length (List.filter isInsert (calls s)).

(** The reading of the claim on the remote free count: whatever the
    session does at one instant, at most one count is asked of the
    store. *)
Definition atMostOneFreeCountQuery (s : State) : Prop :=
  forall ops,
    (freeCountQueries (after (usageRun ops) s) <= freeCountQueries s + 1)%nat.

(** The signed-in user on a connection that fails twice. *)
Definition throwingState : State := set_wire [Throws; Throws] [] userState.

(** The signed-in user with the count 4 of the current period cached. *)
Definition cachedState : State :=
  set_cache (Some 4) (Some "2025-01-11") userState.

(** The reading of the claim on [consumeGeneration]: the call takes one
    free generation and no credit, or one credit and no free
    generation. *)
Definition consumesExactlyOne (s : State) : Prop :=
  let s' := after consumeGeneration s in
  exists r r',
    result getRemainingFreeGenerations s = Val r /\
    result getRemainingFreeGenerations s' = Val r' /\
    ((r' = r - 1 /\ purchasedCredits s' = purchasedCredits s) \/
     (r' = r /\ purchasedCredits s' = purchasedCredits s - 1)).

(** The user holds three credits, the ten free generations of the period
    are used, and the store answers the next call with an error. *)
Definition failedDebitState : State :=
  set_wire [ErrorResponse] []
    (set_cache (Some 10) (Some "2025-01-11") creditedState).

(** The same with a store that answers. *)
Definition exhaustedState : State :=
  set_cache (Some 10) (Some "2025-01-11") creditedState.

(** Credits are held by a signed-in user only. *)
Definition credits_wf (s : State) : Prop :=
  0 < purchasedCredits s -> signedIn s <> None.

(** The reading of the claim on the order of the period keys: a later
    window has a greater key. *)
Definition keysStrictlyIncrease (now1 now2 : Clock) : Prop :=
  window_lt (window now1) (window now2) ->
  String.ltb (getCooldownPeriodStart now1) (getCooldownPeriodStart now2) = true.

(** The last day of the leap year 2024 and the first day of 2025, on a
    host running on UTC. *)
Definition dec31_2024 : Clock := mkClock 2024 (365 * MS_PER_DAY + 3600000) 0.
Definition jan1_2025 : Clock := mkClock 2025 3600000 0.

(** The last window of a leap year followed by the first of the next. *)
Definition leapYearTurn (now1 now2 : Clock) : Prop :=
  isLeap (fullYear now1) = true /\ periodNumber now1 = 183 /\
  fullYear now2 = fullYear now1 + 1 /\ periodNumber now2 = 0.

(** Month and day of month of day [k] of the year packed in one number,
    and the check, day by day through a year, that month and day are in
    range and the packed number grows. *)
Definition monthDayCode (leap : bool) (k : Z) : Z :=
  let '(m, d) := monthDayFrom 1 k (monthLengths leap) in 100 * m + d.

Definition monthDayCheck (leap : bool) : bool :=
  forallb
    (fun n =>
       let k := Z.of_nat n in
       let '(m, d) := monthDayFrom 1 k (monthLengths leap) in
       (1 <=? m) && (m <=? 12) && (1 <=? d) && (d <=? 31) &&
       ((k =? (if leap then 366 else 365))
        || (monthDayCode leap k <? monthDayCode leap (k + 1))))
    (seq 1 (if leap then 366 else 365)).

(** The user ["u1"] just signed in, with seven entries in the local
    history and nothing in the store. *)
Definition sevenEntriesState : State :=
  set_localStorage
    (Stored {| u_count := Some 2; u_period := Some "2025-01-11";
               u_total := Some 7;
               u_history := Some (map (fun n => entryItem (sampleEntry n))
                                      (seq 0 7)) |})
    userState.

(** ** The rest of the page: reset countdown, labels, payment, generation *)

(** [Math.ceil(x / d)] for a positive [d]. *)
Definition ceilDiv (x d : Z) : Z := - ((- x) / d).

(** The minutes east of UTC applied to the local midnight
    [new Date(now.getFullYear(), 0, k)]. *)
Definition offsetAt (now : Clock) (k : Z) : Z :=
  let '(y', k') := normDay (fullYear now) k in tzEastAt now y' k'.

(** By how much the host's offset at the midnight of day [k] is ahead of
    its offset at the midnight of 31 December before, in milliseconds:
    an hour forward in summer time, nothing else. *)
Definition clockShift (now : Clock) (k : Z) : Z :=
  (offsetAt now k - offsetAt now 0) * (60 * 1000).

(** [new Date(y, 0, k) - new Date(y, 0, 0)] less one day: by the wall
    clock the two local midnights lie [k] days apart, and the instants
    lie closer by what the clock was put forward in between. *)
Definition msToLocalMidnight (now : Clock) (k : Z) : Z :=
  (k - 1) * MS_PER_DAY - clockShift now k.

(** [getNextResetTime() - new Date()] in milliseconds. *)
Definition msUntilNextReset (now : Clock) : Z :=
  msToLocalMidnight now ((periodNumber now + 1) * COOLDOWN_DAYS + 1)
  - msIntoYear now.

(** The clock shift at the reset [getNextResetTime] announces. *)
Definition resetShift (now : Clock) : Z :=
  clockShift now ((periodNumber now + 1) * COOLDOWN_DAYS + 1).

(** [Math.ceil((nextReset - new Date()) / (1000 * 60 * 60))] *)
Definition hoursUntilReset (now : Clock) : Z :=
  ceilDiv (msUntilNextReset now) (1000 * 60 * 60).

(** The text [updateGenerateUsage] writes into the usage widget:
    ["N free"], ["N free + M credits"], ["M credits"] or ["Resets in Hh"]. *)
Inductive UsageLabel :=
| LabelFree (free : Z) (credits : option Z)
| LabelCredits (credits : Z)
| LabelResets (hours : Z).

Definition usageLabel (freeRemaining credits : Z) (now : Clock) : UsageLabel :=
  let totalRemaining := freeRemaining + credits in
  if 0 <? totalRemaining then
    if 0 <? freeRemaining
    then LabelFree freeRemaining (if 0 <? credits then Some credits else None)
    else LabelCredits credits
  else LabelResets (hoursUntilReset now).

(** [updateGenerateUsage] with what it writes: the label of the usage
    widget and whether the buy button is displayed, each when the widget
    is in the page. *)
Definition updateGenerateUsageView : M (option UsageLabel * option bool) :=
  el <- gets hasUsageEl ;;
  label <- (if el : bool
            then freeRemaining <- getRemainingFreeGenerations ;;
                 p <- gets purchasedCredits ;;
                 now <- gets clock ;;
                 ret (Some (usageLabel freeRemaining p now))
            else ret None) ;;
  buyBtn <- gets hasBuyBtn ;;
  shown <- (if buyBtn : bool
            then freeRemaining <- getRemainingFreeGenerations ;;
                 u <- gets currentUser ;;
                 ret (Some ((freeRemaining <=? 2)
                            && match u with Some _ => true | None => false end))
            else ret None) ;;
  ret (label, shown).

(** The messages [showToast] is called with. *)
Inductive Toast :=
| ToastCreditsAdded (n : Z)
| ToastPaymentCancelled
| ToastUploadFirst
| ToastNoGenerations (hours : Z)
| ToastMessage (msg : string)
| ToastFailedToGenerate
| ToastErrorGenerating.

(** [checkPaymentStatus] for the value of the [payment] parameter of the
    address ([None]: no such parameter): the toast shown and whether the
    address is rewritten without its query. *)
Definition checkPaymentStatus (payment : option string) : M (option Toast * bool) :=
  match payment with
  | Some p =>
      if String.eqb p "success" then
        addCredits CREDIT_PACK_SIZE ;;;
        ret (Some (ToastCreditsAdded CREDIT_PACK_SIZE), true)
      else if String.eqb p "cancelled" then
        ret (Some ToastPaymentCancelled, true)
      else ret (None, false)
  | None => ret (None, false)
  end.

(** The body of the answer of [/api/generate], and the outcome of the
    [fetch]: the request or the reading of its body throws, or it
    answers with [response.ok] and a body. *)
Record Generated := {
  r_matchName : string;
  r_openers : option (list Opener);
  r_analysis : option string;
  r_message : option string
}.

Inductive Fetched :=
| FetchThrows
| FetchAnswers (ok : bool) (data : Generated).

(** How [generateOpeners] ends: with a toast, or showing the openers. *)
Inductive GenerateResult :=
| GenToast (t : Toast)
| GenShown (matchName : string) (openers : list Opener).

(** An exception thrown, or the rejection of an awaited promise. *)
Definition throw {A} : M A := fun s => (Exn, s).

(** [generateOpeners], given what the page and the network supply:
    whether a file is selected; the value of the checked mode input
    ([None]: no input is checked, and reading its [value] throws);
    whether [fileToBase64] reads the file or rejects; the outcome of the
    [fetch]; and whether showing the openers throws.  The outcome [Exn]
    is the rejection of the promise the function returns: the mode
    lookup and the reading of the file stand outside the [try]. *)
Definition generateOpeners (selectedFile : bool) (checkedMode : option string)
    (fileReads : bool) (reply : Fetched) (displayThrows : bool)
    : M GenerateResult :=
  if negb selectedFile then ret (GenToast ToastUploadFirst)
  else
    canGen <- canGenerate ;;
    if negb canGen then
      now <- gets clock ;;
      ret (GenToast (ToastNoGenerations (hoursUntilReset now)))
    else
      match checkedMode with
      | None => throw
      | Some mode =>
          if negb fileReads then throw
          else
            tryCatch
              (match reply with
               | FetchThrows => throw
               | FetchAnswers ok data =>
                   match ok, r_openers data with
                   | true, Some (o :: os) =>
                       consumeGeneration ;;;
                       saveToHistory (r_matchName data) (o :: os) mode
                         (r_analysis data) ;;;
                       (if displayThrows then throw
                        else
                          ret (GenShown (if String.eqb (r_matchName data) ""
                                         then "Match" else r_matchName data)
                                        (o :: os)))
                   | _, _ =>
                       updateGenerateUsage ;;;
                       ret (GenToast (match r_message data with
                                      | Some msg =>
                                          if String.eqb msg ""
                                          then ToastFailedToGenerate
                                          else ToastMessage msg
                                      | None => ToastFailedToGenerate
                                      end))
                   end
               end)
              (updateGenerateUsage ;;; ret (GenToast ToastErrorGenerating))
      end.

(** The run gets as far as [consumeGeneration]: a file is selected, the
    gate is open, a mode is checked, the file is read and the answer is
    accepted and carries an opener. *)
Definition reachesCharge (selectedFile : bool) (checkedMode : option string)
    (fileReads : bool) (reply : Fetched) (s : State) : Prop :=
  selectedFile = true /\ result canGenerate s = Val true /\
  checkedMode <> None /\ fileReads = true /\
  exists data o os,
    reply = FetchAnswers true data /\ r_openers data = Some (o :: os).

(** [n] generations consumed in a row. *)
Fixpoint consumeTimes (n : nat) : M unit :=
  match n with
  | O => ret tt
  | S k => consumeGeneration ;;; consumeTimes k
  end.

(** The balance the store holds for a user, 0 without a row. *)
Definition storedBalance (s : State) (uid : string) : Z :=
  match credits s !! uid with
  | Some row => balance row
  | None => 0
  end.

(** The balance of the session is the stored one. *)
Definition inSync (s : State) : Prop :=
  forall uid, signedIn s = Some uid -> purchasedCredits s = storedBalance s uid.

(** What no function of the page changes: the clock, who is signed in,
    the widgets of the page; and the scheduled faults are only used up. *)
Definition steady (s s' : State) : Prop :=
  clock s' = clock s /\
  currentUser s' = currentUser s /\
  supabaseClient s' = supabaseClient s /\
  hasUsageEl s' = hasUsageEl s /\
  hasBuyBtn s' = hasBuyBtn s /\
  exists k, script s' = drop k (script s).

(** Half past eleven at night on 11 January 2025, half an hour before
    the period key changes. *)
Definition lateJan11 : Clock :=
  {| epochMs := 1736638200000; fullYear := 2025;
     msIntoYear := 10 * MS_PER_DAY + 84600000; tzEastAt := fun _ _ => 0;
     isoNow := "2025-01-11T23:30:00.000Z" |}.

(** An anonymous visitor who has used three free generations in the
    current period. *)
Definition threeUsedState : State :=
  set_localStorage
    (Stored {| u_count := Some 3; u_period := Some "2025-01-11";
               u_total := Some 9; u_history := None |})
    freshState.


(** The stored balance 7 is read while the store reports an error; the
    purchase that follows is answered. *)
Definition failedLoadState : State :=
  set_wire [ErrorResponse] []
    (set_credits
       {[ "u1" := {| balance := 7; total_purchased := 25;
                     updated_at := "2025-01-09T08:00:00.000Z" |} ]}
       userState).

(** An answer of [/api/generate] with one opener. *)
Definition oneOpener : Generated :=
  {| r_matchName := "Alex";
     r_openers := Some [{| o_type := "playful"; o_emoji := "*";
                           o_text := "Is that your dog?" |}];
     r_analysis := None; r_message := None |}.

(** The user ["u1"] signs in for the first time with one local entry and
    an empty store. *)
Definition firstSignIn : State :=
  set_localStorage
    (Stored {| u_count := Some 1; u_period := Some "2025-01-09";
               u_total := Some 1; u_history := Some [savedItem] |})
    userState.

(** ** How long ago a history entry was filed *)

(** What [getTimeAgo] renders: ['just now'], ['Nm ago'], ['Nh ago'] or
    ['Nd ago']. *)
Inductive TimeAgo :=
| JustNow
| MinutesAgo (n : Z)
| HoursAgo (n : Z)
| DaysAgo (n : Z).

(** [getTimeAgo(date)] for a valid date, given [new Date() - date] in
    milliseconds. *)
Definition getTimeAgo (elapsedMs : Z) : TimeAgo :=
  let seconds := elapsedMs / 1000 in
  if seconds <? 60 then JustNow
  else if seconds <? 3600 then MinutesAgo (seconds / 60)
  else if seconds <? 86400 then HoursAgo (seconds / 3600)
  else DaysAgo (seconds / 86400).

(** * The server: checks of a request and of the text put into a prompt

    Texts are strings of 8-bit characters, one for each UTF-16 code unit
    of the JavaScript string. *)

Definition ALLOWED_MEDIA_TYPES : list string :=
  ["image/jpeg"; "image/png"; "image/webp"]%string.

Definition includes (x : string) (l : list string) : bool :=
  existsb (String.eqb x) l.

Definition charIn (lo hi c : ascii) : bool :=
  (N_of_ascii lo <=? N_of_ascii c)%N && (N_of_ascii c <=? N_of_ascii hi)%N.

(** The class [\s] on code units below 256. *)
Definition isSpace (c : ascii) : bool :=
  charIn "009" "013" c || Ascii.eqb c " " || Ascii.eqb c "160".

(** The class [[A-Za-z0-9+/]]. *)
Definition isBase64Char (c : ascii) : bool :=
  charIn "A" "Z" c || charIn "a" "z" c || charIn "0" "9" c
  || Ascii.eqb c "+" || Ascii.eqb c "/".

(** [text.replace(/\s/g, '')] *)
Fixpoint stripSpace (text : string) : string :=
  match text with
  | EmptyString => EmptyString
  | String c rest => if isSpace c then stripSpace rest else String c (stripSpace rest)
  end.

(** [/=*$/] at the current position. *)
Fixpoint paddingToEnd (text : string) : bool :=
  match text with
  | EmptyString => true
  | String c rest => Ascii.eqb c "=" && paddingToEnd rest
  end.

(** [/[A-Za-z0-9+/]*=*$/] at the current position. *)
Fixpoint bodyThenPadding (text : string) : bool :=
  match text with
  | EmptyString => true
  | String c rest =>
      if isBase64Char c then bodyThenPadding rest else paddingToEnd text
  end.

(** [/^[A-Za-z0-9+/]+=*$/.test(text)] *)
Definition base64Regex (text : string) : bool :=
  match text with
  | EmptyString => false
  | String c rest => isBase64Char c && bodyThenPadding rest
  end.

(** The object [validateImage] returns. *)
Inductive Validation :=
| Valid
| Invalid (error : string).

(** [validateImage(base64String, mediaType)]; [None] is an argument
    that is not a string. *)
Definition validateImage (base64String mediaType : option string)
    : Validation :=
  match base64String with
  | None => Invalid "No image data provided"
  | Some EmptyString => Invalid "No image data provided"
  | Some text =>
      if Z.of_nat (String.length text) >? 7000000
      then Invalid "Image too large. Maximum size is 5MB."
      else if negb (match mediaType with
                    | Some m => includes m ALLOWED_MEDIA_TYPES
                    | None => false
                    end)
      then Invalid "Invalid image type. Please upload a JPG, PNG, or WebP."
      else if negb (base64Regex (stripSpace text))
      then Invalid "Invalid image format."
      else Valid
  end.

Definition allowedModes : list string :=
  ["chaotic"; "flirty"; "unhinged"; "mysterious"; "dadjoke"; "poetic"]%string.

(** A field of the request body as the handler tests it: a value that
    is falsy and not a string ([undefined], [null], [0], [false]), a
    string, or any other value, which is truthy. *)
Inductive BodyField :=
| Falsy
| Str (s : string)
| Truthy.

(** [mediaType || 'image/png']; [None] is a value that is not a string. *)
Definition declaredMediaType (mediaType : BodyField) : option string :=
  match mediaType with
  | Falsy => Some "image/png"
  | Str EmptyString => Some "image/png"
  | Str m => Some m
  | Truthy => None
  end.

(** The media type read off the first characters of the image. *)
Definition detectMediaType (image : string) (declared : option string)
    : option string :=
  if String.prefix "/9j/" image then Some "image/jpeg"
  else if String.prefix "iVBOR" image then Some "image/png"
  else if String.prefix "UklGR" image then Some "image/webp"
  else declared.

(** How the checks at the head of the [/api/generate] handler end: with
    the answer 400 and an error, with a [TypeError] of [image.startsWith],
    or with the media type the image is processed under. *)
Inductive Checked :=
| BadRequest (error : string)
| StartsWithThrows
| Proceeds (detectedMediaType : option string).

(** The head of the [/api/generate] handler for the fields [image],
    [mode] and [mediaType] of the body; for [image] and [mode], [None]
    is a value that is not a string. *)
Definition checkGenerateRequest (image mode : option string)
    (mediaType : BodyField) : Checked :=
  if negb (match mode with Some m => includes m allowedModes | None => false end)
  then BadRequest "Invalid mode selected"
  else
    match validateImage image (declaredMediaType mediaType) with
    | Invalid error => BadRequest error
    | Valid =>
        match image with
        | Some img => Proceeds (detectMediaType img (declaredMediaType mediaType))
        | None => StartsWithThrows
        end
    end.

(** The letter a character is compared as under the flag [i]: lower-case
    letters of the alphabet count as their capitals. *)
Definition canonicalize (c : ascii) : ascii :=
  if charIn "a" "z" c then ascii_of_N (N_of_ascii c - 32) else c.

Definition eqIgnoreCase (a b : ascii) : bool :=
  Ascii.eqb (canonicalize a) (canonicalize b).

(** The phrase [p] matches at the start of [text], letters compared
    without their case. *)
Fixpoint matchesAt (p text : string) : bool :=
  match p with
  | EmptyString => true
  | String a p' =>
      match text with
      | EmptyString => false
      | String b text' => eqIgnoreCase a b && matchesAt p' text'
      end
  end.

(** [text.replace(/p/gi, '[removed]')] for a phrase [p] without special
    characters: the text is scanned from the left, every match found is
    replaced and the scan goes on behind it; [skip] counts the characters
    of the last match that are still to be passed over. *)
Fixpoint replaceFrom (p : string) (skip : nat) (text : string) : string :=
  match text with
  | EmptyString => EmptyString
  | String c rest =>
      match skip with
      | S k => replaceFrom p k rest
      | O =>
          if matchesAt p text
          then String.append "[removed]" (replaceFrom p (String.length p - 1) rest)
          else String c (replaceFrom p 0 rest)
      end
  end.

Definition replaceAll (p text : string) : string := replaceFrom p 0 text.

(** [text.slice(0, n)] *)
Fixpoint sliceTo (n : nat) (text : string) : string :=
  match n, text with
  | S k, String c rest => String c (sliceTo k rest)
  | _, _ => EmptyString
  end.

(** The phrases [sanitizeForPrompt] replaces, in the order of its calls
    of [replace]. *)
Definition injectionPhrases : list string :=
  ["ignore previous instructions"; "disregard all"; "system:"; "assistant:";
   "human:"]%string.

(** [sanitizeForPrompt(text)]; [None] is [null] or [undefined]. *)
Definition sanitizeForPrompt (text : option string) : string :=
  match text with
  | None => EmptyString
  | Some EmptyString => EmptyString
  | Some t =>
      sliceTo 500
        (replaceAll "human:"
           (replaceAll "assistant:"
              (replaceAll "system:"
                 (replaceAll "disregard all"
                    (replaceAll "ignore previous instructions" t)))))
  end.

(** The phrase [p] occurs somewhere in [text], letters compared without
    their case. *)
Fixpoint occursIn (p text : string) : bool :=
  matchesAt p text ||
  match text with
  | EmptyString => false
  | String _ rest => occursIn p rest
  end.

(** A phrase that is not empty, has no square bracket and does not occur
    in the word [removed]. *)
Fixpoint noBracket (p : string) : bool :=
  match p with
  | EmptyString => true
  | String a p' =>
      negb (eqIgnoreCase a "[") && negb (eqIgnoreCase a "]") && noBracket p'
  end.

Definition plainPhrase (p : string) : bool :=
  negb (String.eqb p "") && noBracket p && negb (occursIn p "removed").

(** [text.slice(n)] *)
Fixpoint sliceFrom (n : nat) (text : string) : string :=
  match n, text with
  | S k, String _ rest => sliceFrom k rest
  | _, _ => text
  end.

(** Every character of [text] is in the class [P]. *)
Fixpoint allChars (P : ascii -> bool) (text : string) : bool :=
  match text with
  | EmptyString => true
  | String c rest => P c && allChars P rest
  end.

(** ** Hosts and their clock changes *)

(** Two readings of one host: the same time zone rules apply. *)
Definition sameHost (now1 now2 : Clock) : Prop := tzEastAt now1 = tzEastAt now2.

(** The last window of a common year followed by the first of the next,
    on a host that is not east of Greenwich at the midnight of 31
    December and is east of it at the midnight of 1 January. *)
Definition eastwardTurn (now1 now2 : Clock) : Prop :=
  isLeap (fullYear now1) = false /\ periodNumber now1 = 182 /\
  fullYear now2 = fullYear now1 + 1 /\ periodNumber now2 = 0 /\
  tzEastAt now1 (fullYear now1) 365 <= 0 /\
  0 < tzEastAt now2 (fullYear now2) 1.

(** London by the clock changes of 2025: summer time at the midnights of
    31 March to 26 October. *)
Definition londonAt (y k : Z) : Z :=
  if (90 <=? k) && (k <=? 299) then 60 else 0.

(** New York by the clock changes of 2025: daylight time at the
    midnights of 10 March to 2 November. *)
Definition newYorkAt (y k : Z) : Z :=
  if (69 <=? k) && (k <=? 306) then -240 else -300.

(** A host whose zone moves from an hour west to an hour east of
    Greenwich in the evening of 31 December 2025. *)
Definition crossingAt (y k : Z) : Z :=
  if y <? 2026 then -60 else 60.

(** London, 26 October 2025: half past midnight in summer time, and noon
    after the clocks have gone back. *)
Definition londonOct26Early : Clock :=
  {| epochMs := 1761435000000; fullYear := 2025;
     msIntoYear := 297 * MS_PER_DAY + 84600000; tzEastAt := londonAt;
     isoNow := "2025-10-25T23:30:00.000Z" |}.

Definition londonOct26Noon : Clock :=
  {| epochMs := 1761480000000; fullYear := 2025;
     msIntoYear := 298 * MS_PER_DAY + 43200000; tzEastAt := londonAt;
     isoNow := "2025-10-26T12:00:00.000Z" |}.

(** New York, 11 July 2025, half past midnight in daylight time. *)
Definition newYorkJul11 : Clock :=
  {| epochMs := 1752208200000; fullYear := 2025;
     msIntoYear := 190 * MS_PER_DAY + 84600000; tzEastAt := newYorkAt;
     isoNow := "2025-07-11T04:30:00.000Z" |}.

(** Six in the morning of 31 December 2025 and noon of 1 January 2026
    on the host that crosses Greenwich in between. *)
Definition crossingDec31 : Clock :=
  {| epochMs := 1767164400000; fullYear := 2025;
     msIntoYear := 364 * MS_PER_DAY + 21600000; tzEastAt := crossingAt;
     isoNow := "2025-12-31T07:00:00.000Z" |}.

Definition crossingJan1 : Clock :=
  {| epochMs := 1767265200000; fullYear := 2026;
     msIntoYear := 36000000; tzEastAt := crossingAt;
     isoNow := "2026-01-01T11:00:00.000Z" |}.
(** ** Generic facts about computations *)

Local Open Scope list_scope.

Lemma run_eta {A} (m : M A) s : m s = (result m s, after m s).
Proof. unfold result, after. destruct (m s); reflexivity. Qed.

Lemma bind_run {A B} (m : M A) (k : A -> M B) s a s1 :
  m s = (Val a, s1) -> bind m k s = k a s1.
Proof. intros H. unfold bind. rewrite H. reflexivity. Qed.

Lemma frames_ret {A} R (a : A) : Reflexive R -> frames R (ret a).
Proof. intros HR s. apply HR. Qed.

Lemma frames_gets {A} R (f : State -> A) : Reflexive R -> frames R (gets f).
Proof. intros HR s. apply HR. Qed.

Lemma frames_bind {A B} R (m : M A) (k : A -> M B) :
  Transitive R -> frames R m -> (forall a, frames R (k a)) -> frames R (bind m k).
Proof.
  intros HT Hm Hk s. unfold after, bind.
  specialize (Hm s). unfold after in Hm.
  destruct (m s) as [[a|] s1]; simpl in *; [|assumption].
  specialize (Hk a s1). unfold after in Hk.
  eapply HT; eassumption.
Qed.

Lemma frames_tryCatch {A} R (m h : M A) :
  Transitive R -> frames R m -> frames R h -> frames R (tryCatch m h).
Proof.
  intros HT Hm Hh s. unfold after, tryCatch.
  specialize (Hm s). unfold after in Hm.
  destruct (m s) as [[a|] s1]; simpl in *; [assumption|].
  specialize (Hh s1). unfold after in Hh.
  eapply HT; eassumption.
Qed.

Lemma total_ret {A} (a : A) : total (ret a).
Proof. intros s. exists a. reflexivity. Qed.

Lemma total_gets {A} (f : State -> A) : total (gets f).
Proof. intros s. eexists. reflexivity. Qed.

Lemma total_modify f : total (modify f).
Proof. intros s. exists tt. reflexivity. Qed.

Lemma total_bind {A B} (m : M A) (k : A -> M B) :
  total m -> (forall a, total (k a)) -> total (bind m k).
Proof.
  intros Hm Hk s. unfold result, bind.
  destruct (Hm s) as [a Ha]. unfold result in Ha.
  destruct (m s) as [[a'|] s1]; simpl in *; [|discriminate].
  apply Hk.
Qed.

Lemma total_tryCatch {A} (m h : M A) : total h -> total (tryCatch m h).
Proof.
  intros Hh s. unfold result, tryCatch.
  destruct (m s) as [[a|] s1]; simpl; [eauto|]. apply Hh.
Qed.

#[export] Instance sameLedgers_refl : Reflexive sameLedgers.
Proof. intros s. unfold sameLedgers. tauto. Qed.

#[export] Instance sameLedgers_trans : Transitive sameLedgers.
Proof.
  intros a b c H1 H2. unfold sameLedgers in *.
  destruct H1 as (?&?&?&?&?&?&?&?&?), H2 as (?&?&?&?&?&?&?&?&?).
  repeat split; congruence.
Qed.

Create HintDb js discriminated.

Ltac frames_tac :=
  repeat first
    [ assumption
    | solve [auto 2 with js nocore]
    | apply frames_bind; [typeclasses eauto | | intros ?]
    | apply frames_tryCatch; [typeclasses eauto | | ]
    | apply frames_ret; typeclasses eauto
    | apply frames_gets; typeclasses eauto
    | match goal with |- frames _ (if ?b then _ else _) => destruct b end
    | match goal with |- frames _ (match ?b with _ => _ end) => destruct b end
    | assumption ].

Ltac total_tac :=
  repeat first
    [ assumption
    | solve [auto 2 with js nocore]
    | apply total_bind; [ | intros ?]
    | apply total_tryCatch
    | apply total_ret
    | apply total_gets
    | apply total_modify
    | match goal with |- total (if ?b then _ else _) => destruct b end
    | match goal with |- total (match ?b with _ => _ end) => destruct b end
    | assumption ].

(** ** Reads of the usage counters *)

Lemma roundTrip_frames c : frames sameLedgers (roundTrip c).
Proof.
  intros s. unfold after, roundTrip.
  destruct (script s) as [|[] fs]; simpl; unfold sameLedgers; simpl; tauto.
Qed.

Lemma set_cache_frames v p : frames sameLedgers (modify (set_cache v p)).
Proof. intros s. unfold after, modify, sameLedgers; simpl; tauto. Qed.

#[export] Hint Resolve roundTrip_frames set_cache_frames : js.

Lemma countSince_frames uid t : frames sameLedgers (countSince uid t).
Proof. unfold countSince. frames_tac. Qed.

Lemma countAll_frames uid : frames sameLedgers (countAll uid).
Proof. unfold countAll. frames_tac. Qed.

#[export] Hint Resolve countSince_frames countAll_frames : js.

Lemma refreshCloudCount_frames uid p : frames sameLedgers (refreshCloudCount uid p).
Proof. unfold refreshCloudCount. frames_tac. Qed.

#[export] Hint Resolve refreshCloudCount_frames : js.

Lemma cloudFreeCount_frames uid : frames sameLedgers (cloudFreeCount uid).
Proof. unfold cloudFreeCount. frames_tac. Qed.

Lemma cloudFreeCount_total uid : total (cloudFreeCount uid).
Proof. unfold cloudFreeCount. total_tac. Qed.

#[export] Hint Resolve cloudFreeCount_frames cloudFreeCount_total : js.

Lemma getFreeUsageCount_frames : frames sameLedgers getFreeUsageCount.
Proof. unfold getFreeUsageCount. frames_tac. Qed.

Lemma getFreeUsageCount_total : total getFreeUsageCount.
Proof. unfold getFreeUsageCount. total_tac. Qed.

#[export] Hint Resolve getFreeUsageCount_frames getFreeUsageCount_total : js.

Lemma getRemainingFreeGenerations_frames : frames sameLedgers getRemainingFreeGenerations.
Proof. unfold getRemainingFreeGenerations. frames_tac. Qed.

Lemma getRemainingFreeGenerations_total : total getRemainingFreeGenerations.
Proof. unfold getRemainingFreeGenerations. total_tac. Qed.

#[export] Hint Resolve getRemainingFreeGenerations_frames
  getRemainingFreeGenerations_total : js.

Lemma canGenerate_frames : frames sameLedgers canGenerate.
Proof. unfold canGenerate. frames_tac. Qed.

Lemma canGenerate_total : total canGenerate.
Proof. unfold canGenerate. total_tac. Qed.

Lemma updateStats_frames : frames sameLedgers updateStats.
Proof. unfold updateStats. frames_tac. Qed.

Lemma updateStats_total : total updateStats.
Proof. unfold updateStats. total_tac. Qed.

Lemma updateGenerateUsage_frames : frames sameLedgers updateGenerateUsage.
Proof. unfold updateGenerateUsage. frames_tac. Qed.

Lemma updateGenerateUsage_total : total updateGenerateUsage.
Proof. unfold updateGenerateUsage. total_tac. Qed.

#[export] Hint Resolve canGenerate_frames canGenerate_total updateStats_frames
  updateStats_total updateGenerateUsage_frames updateGenerateUsage_total : js.

Lemma total_run {A} (m : M A) s : total m -> exists a, m s = (Val a, after m s).
Proof.
  intros H. destruct (H s) as [a Ha]. exists a.
  rewrite (run_eta m s), Ha. reflexivity.
Qed.

Lemma samePeriod_true p cur : samePeriod p cur = true <-> p = Some cur.
Proof.
  unfold samePeriod. destruct p as [q|].
  - rewrite String.eqb_eq. split; congruence.
  - split; discriminate.
Qed.

Lemma samePeriod_false p cur : samePeriod p cur = false <-> p <> Some cur.
Proof.
  rewrite <- samePeriod_true. destruct (samePeriod p cur); split; congruence.
Qed.

Lemma getFreeLimit_identity s : getFreeLimit s = limitOf (identity s).
Proof. unfold getFreeLimit, identity. destruct (currentUser s); reflexivity. Qed.

(** Running the two display refreshes changes no ledger. *)
Lemma refresh_frames : frames sameLedgers (updateStats ;;; updateGenerateUsage).
Proof. frames_tac. Qed.

Lemma refresh_total : total (updateStats ;;; updateGenerateUsage).
Proof. total_tac. Qed.

Lemma incrementUsage_run s :
  let s1 := set_localStorage
              (Stored (incrementedUsage (currentPeriod s) (getUsageData s)))
              (bumpCache s) in
  incrementUsage s = (Val tt, after (updateStats ;;; updateGenerateUsage) s1).
Proof.
  intros s1. unfold incrementUsage.
  assert (E : forall k : M unit,
    (modify bumpCache ;;;
     data <- gets getUsageData ;;
     cur <- gets currentPeriod ;;
     saveUsageData (incrementedUsage cur data) ;;; k) s = k s1).
  { intros k. unfold bind, modify, gets, saveUsageData. simpl.
    subst s1. unfold bumpCache, getUsageData, currentPeriod.
    destruct (cachedCloudUsage s); reflexivity. }
  rewrite E.
  destruct (total_run _ s1 refresh_total) as [[] Ht]. exact Ht.
Qed.

(** ** Remaining free generations *)

(** C3.  The remaining free generations are [max(0, limit - used)], where
    [used] is the count [getFreeUsageCount] returns and [limit] is 10 for
    an authenticated identity and 5 for an anonymous one; the value is
    never negative, whatever the used count. *)
Theorem remainingFree_clamped (s : State) :
  exists used : Z,
    getFreeUsageCount s = (Val used, after getFreeUsageCount s) /\
    getRemainingFreeGenerations s =
      (Val (Z.max 0 (getFreeLimit s - used)), after getFreeUsageCount s) /\
    getFreeLimit s =
      match identity s with Authenticated _ => 10 | Anonymous => 5 end /\
    0 <= Z.max 0 (getFreeLimit s - used).
Proof.
  destruct (total_run _ s getFreeUsageCount_total) as [used Hu].
  exists used. split; [exact Hu|]. split; [|split; [|lia]].
  - unfold getRemainingFreeGenerations, bind. rewrite Hu.
    unfold gets, ret.
    destruct (getFreeUsageCount_frames s) as (_ & Hc & _).
    unfold getFreeLimit. rewrite Hc. reflexivity.
  - unfold getFreeLimit, identity. destruct (currentUser s); reflexivity.
Qed.

(** A used count above the limit leaves nothing, not a negative number:
    twelve generations counted against the limit of ten. *)
Example remainingFree_over_limit :
  result getRemainingFreeGenerations
    (set_cache (Some 12) (Some "2025-01-11"%string) userState) = Val 0.
Proof. reflexivity. Qed.

(** ** The lazy reset of the local record *)

Lemma incrementUsage_storage s :
  localStorage (after incrementUsage s) =
  Stored (incrementedUsage (currentPeriod s) (getUsageData s)).
Proof.
  unfold after at 1. rewrite incrementUsage_run. cbn [snd].
  match goal with |- context [after ?m ?s1] =>
    destruct (refresh_frames s1) as (_ & _ & _ & _ & Hls & _) end.
  rewrite Hls. reflexivity.
Qed.

Lemma incrementUsage_data s :
  getUsageData (after incrementUsage s) =
  incrementedUsage (currentPeriod s) (getUsageData s).
Proof. unfold getUsageData at 1. rewrite incrementUsage_storage. reflexivity. Qed.

(** C6.  [incrementUsage] writes back a record whose total is one more
    than the stored total and whose history is the stored one; when the
    stored period key differs from the current one the written free count
    is 1 under the current key, and when the keys agree the free count is
    one more than the stored count. *)
Theorem incrementUsage_lazy_reset (s : State) :
  let data := getUsageData s in
  let data' := getUsageData (after incrementUsage s) in
  result incrementUsage s = Val tt /\
  localStorage (after incrementUsage s) = Stored data' /\
  u_total data' = Some (orZero (u_total data) + 1) /\
  u_history data' = u_history data /\
  u_period data' = Some (currentPeriod s) /\
  (u_period data <> Some (currentPeriod s) -> u_count data' = Some 1) /\
  (u_period data = Some (currentPeriod s) ->
   u_count data' = Some (orZero (u_count data) + 1)).
Proof.
  intros data data'. subst data'.
  rewrite incrementUsage_data, incrementUsage_storage. fold data.
  split. { unfold result. rewrite incrementUsage_run. reflexivity. }
  split; [reflexivity|].
  unfold incrementedUsage.
  destruct (samePeriod (u_period data) (currentPeriod s)) eqn:E; cbn.
  - apply samePeriod_true in E.
    repeat split; try reflexivity; try assumption; intros; congruence.
  - apply samePeriod_false in E.
    repeat split; try reflexivity; intros; congruence.
Qed.

Lemma incrementUsage_lazy_reset_witness :
  u_period (getUsageData staleState) <> Some (currentPeriod staleState) /\
  u_count (getUsageData (after incrementUsage staleState)) = Some 1.
Proof.
  assert (H : u_period (getUsageData staleState) <> Some (currentPeriod staleState))
    by (vm_compute; discriminate).
  split; [exact H|].
  apply (incrementUsage_lazy_reset staleState). exact H.
Defined.

(** ** Queries leave the local record alone *)

#[export] Instance keeps_refl {A} (f : State -> A) : Reflexive (keeps f).
Proof. intros s. reflexivity. Qed.

#[export] Instance keeps_trans {A} (f : State -> A) : Transitive (keeps f).
Proof. intros a b c H1 H2. unfold keeps in *. congruence. Qed.

Lemma anonymous_getFreeUsageCount s :
  signedIn s = None -> getFreeUsageCount s = (Val (localFreeCount s), s).
Proof.
  intros H. unfold getFreeUsageCount, bind, gets, ret. rewrite H. reflexivity.
Qed.

Lemma stale_localFreeCount s :
  u_period (getUsageData s) <> Some (currentPeriod s) -> localFreeCount s = 0.
Proof.
  intros H. apply samePeriod_false in H. unfold localFreeCount. rewrite H.
  reflexivity.
Qed.

(** C10.  [getFreeUsageCount], [getRemainingFreeGenerations] and
    [canGenerate] leave the stored usage record as it is.  On the
    anonymous path a record of another period is reported as a free count
    of 0 (so the whole limit remains and generation is allowed) with the
    state unchanged, stale record included; the reset reaches the store
    with the next [incrementUsage], which writes count 1 under the
    current key. *)
Theorem queries_keep_usage_record (s : State) :
  localStorage (after getFreeUsageCount s) = localStorage s /\
  localStorage (after getRemainingFreeGenerations s) = localStorage s /\
  localStorage (after canGenerate s) = localStorage s /\
  (signedIn s = None ->
   u_period (getUsageData s) <> Some (currentPeriod s) ->
   getFreeUsageCount s = (Val 0, s) /\
   getRemainingFreeGenerations s = (Val (limitOf (identity s)), s) /\
   canGenerate s = (Val true, s) /\
   getUsageData (after incrementUsage s) =
     {| u_count := Some 1; u_period := Some (currentPeriod s);
        u_total := Some (orZero (u_total (getUsageData s)) + 1);
        u_history := u_history (getUsageData s) |}).
Proof.
  split; [apply getFreeUsageCount_frames|].
  split; [apply getRemainingFreeGenerations_frames|].
  split; [apply canGenerate_frames|].
  intros Hanon Hstale.
  assert (E : getFreeUsageCount s = (Val 0, s)).
  { rewrite anonymous_getFreeUsageCount, stale_localFreeCount by assumption.
    reflexivity. }
  assert (R : getRemainingFreeGenerations s = (Val (limitOf (identity s)), s)).
  { unfold getRemainingFreeGenerations, bind. rewrite E. unfold gets, ret.
    rewrite getFreeLimit_identity. f_equal. f_equal.
    destruct (identity s); simpl; lia. }
  split; [exact E|]. split; [exact R|]. split.
  - unfold canGenerate, bind. rewrite R. unfold gets, ret.
    destruct (identity s); reflexivity.
  - rewrite incrementUsage_data. unfold incrementedUsage.
    apply samePeriod_false in Hstale. rewrite Hstale. reflexivity.
Qed.

Lemma queries_keep_usage_record_witness :
  signedIn staleState = None /\
  u_period (getUsageData staleState) <> Some (currentPeriod staleState) /\
  getFreeUsageCount staleState = (Val 0, staleState) /\
  localStorage (after canGenerate staleState) = localStorage staleState.
Proof.
  assert (H1 : signedIn staleState = None) by reflexivity.
  assert (H2 : u_period (getUsageData staleState) <> Some (currentPeriod staleState))
    by (vm_compute; discriminate).
  destruct (queries_keep_usage_record staleState) as (_ & _ & Hc & Hs).
  destruct (Hs H1 H2) as (Hq & _).
  repeat split; assumption.
Defined.

(** ** The bounded history *)

Lemma roundTrip_keeps_storage c : frames (keeps localStorage) (roundTrip c).
Proof.
  intros s. unfold after, roundTrip, keeps.
  destruct (script s) as [|[] fs]; reflexivity.
Qed.

#[export] Hint Resolve roundTrip_keeps_storage : js.

Lemma insertGeneration_keeps_storage row :
  frames (keeps localStorage) (insertGeneration row).
Proof.
  unfold insertGeneration.
  apply frames_bind; [typeclasses eauto | auto with js | intros [|]].
  - apply frames_bind; [typeclasses eauto | | intros _; apply frames_ret; typeclasses eauto].
    intros s. reflexivity.
  - apply frames_ret; typeclasses eauto.
Qed.


Lemma saveToHistory_total a b c d : total (saveToHistory a b c d).
Proof. unfold saveToHistory. total_tac. Qed.

Lemma saveToHistory_history matchName openers mode analysis s :
  result (saveToHistory matchName openers mode analysis) s = Val tt /\
  historyOf (getUsageData (after (saveToHistory matchName openers mode analysis) s)) =
  take 50 (newItem (clock s) matchName openers mode analysis
           :: historyOf (getUsageData s)).
Proof.
  split.
  { destruct (saveToHistory_total matchName openers mode analysis s) as [[] H].
    exact H. }
  unfold saveToHistory, after, bind, gets, saveUsageData, modify.
  cbn [fst snd].
  destruct (signedIn _) as [uid|].
  - match goal with |- context [tryCatch ?m ?h ?s1] =>
      assert (K : frames (keeps localStorage) (tryCatch m h)) end.
    { apply frames_tryCatch; [typeclasses eauto | | apply frames_ret; typeclasses eauto].
      apply frames_bind; [typeclasses eauto | apply insertGeneration_keeps_storage |].
      intros _. apply frames_ret; typeclasses eauto. }
    match goal with |- context [tryCatch ?m ?h ?s1] =>
      specialize (K s1); unfold after, keeps in K;
      destruct (tryCatch m h s1) as [[[]|] s2] end;
      cbn [fst snd] in *; unfold getUsageData at 1; rewrite K; reflexivity.
  - reflexivity.
Qed.

Lemma appendHistory_history e s :
  result (appendHistory e) s = Val tt /\
  historyOf (getUsageData (after (appendHistory e) s)) =
  take 50 (entryItem e :: historyOf (getUsageData s)).
Proof.
  unfold appendHistory, result, after, bind, modify. cbn [fst snd].
  destruct (saveToHistory_history (e_matchName e) (e_openers e) (e_mode e)
              (e_analysis e) (set_clock (e_now e) s)) as [Hr Hh].
  unfold result, after in Hr, Hh. split; [exact Hr|].
  rewrite Hh. reflexivity.
Qed.

Lemma take_app_take {A} (l m : list A) : forall n k : nat,
  (n <= k)%nat -> take n (l ++ take k m) = take n (l ++ m).
Proof.
  induction l as [|x l IH]; intros n k Hnk; cbn [app].
  - rewrite take_take. f_equal. lia.
  - destruct n as [|n]; [reflexivity|]. cbn [take]. f_equal.
    apply IH. lia.
Qed.

Lemma appendAll_history es : forall e s,
  result (appendAll (e :: es)) s = Val tt /\
  historyOf (getUsageData (after (appendAll (e :: es)) s)) =
  take 50 (rev (map entryItem (e :: es)) ++ historyOf (getUsageData s)).
Proof.
  induction es as [|e' es IH]; intros e s.
  - destruct (appendHistory_history e s) as [Hr Hh].
    unfold result, after in *. cbn [appendAll]. unfold bind.
    destruct (appendHistory e s) as [[[]|] s1]; cbn [fst snd] in *;
      [|discriminate].
    unfold ret. cbn [fst snd]. split; [reflexivity|]. rewrite Hh. reflexivity.
  - destruct (appendHistory_history e s) as [Hr Hh].
    unfold result, after in *.
    change (appendAll (e :: e' :: es)) with (appendHistory e ;;; appendAll (e' :: es)).
    unfold bind at 1 2.
    destruct (appendHistory e s) as [[[]|] s1]; cbn [fst snd] in *;
      [|discriminate].
    destruct (IH e' s1) as [Hr' Hh']. split; [exact Hr'|].
    rewrite Hh', Hh.
    change (map entryItem (e :: e' :: es))
      with (entryItem e :: map entryItem (e' :: es)).
    cbn [rev]. rewrite <- app_assoc. cbn [app].
    apply take_app_take. lia.
Qed.

(** C7.  [saveToHistory] puts the new entry in front of the stored
    history and keeps the first 50: the new entry is first, every older
    entry that survives has moved one place down, and at most 50 remain.
    After any run of appends the history is the entries in reverse order
    of arrival followed by the old history, cut to 50; after 60 or more
    appends exactly 50 remain. *)
Theorem history_bounded_most_recent_first (e : Entry) (es : list Entry) (s : State) :
  let h0 := historyOf (getUsageData s) in
  let h1 := historyOf (getUsageData (after (appendHistory e) s)) in
  let hn := historyOf (getUsageData (after (appendAll (e :: es)) s)) in
  result (appendAll (e :: es)) s = Val tt /\
  h1 = take 50 (entryItem e :: h0) /\
  h1 !! 0%nat = Some (entryItem e) /\
  (forall i : nat, (S i < 50)%nat -> h1 !! S i = h0 !! i) /\
  (length h1 <= 50)%nat /\
  hn = take 50 (rev (map entryItem (e :: es)) ++ h0) /\
  (length hn <= 50)%nat /\
  (60 <= length (e :: es) -> length hn = 50)%nat.
Proof.
  intros h0 h1 hn.
  destruct (appendHistory_history e s) as [_ H1].
  destruct (appendAll_history es e s) as [Hr Hn].
  fold h0 h1 in H1. fold h0 hn in Hn.
  split; [exact Hr|]. split; [exact H1|].
  split; [rewrite H1; reflexivity|].
  split.
  { intros i Hi. rewrite H1. rewrite lookup_take_lt by lia. reflexivity. }
  split; [rewrite H1, length_take; lia|].
  split; [exact Hn|].
  split; [rewrite Hn, length_take; lia|].
  intros Hlen. rewrite Hn, length_take, length_app, length_rev, length_map.
  lia.
Qed.

Lemma history_bounded_most_recent_first_witness :
  (60 <= length (map sampleEntry (seq 0 60)))%nat /\
  (S 3 < 50)%nat /\
  length (historyOf (getUsageData
            (after (appendAll (map sampleEntry (seq 0 60))) freshState))) = 50%nat /\
  historyOf (getUsageData (after (appendHistory (sampleEntry 0)) freshState)) !! 4%nat
  = historyOf (getUsageData freshState) !! 3%nat.
Proof.
  assert (H60 : (60 <= length (map sampleEntry (seq 0 60)))%nat)
    by (vm_compute; lia).
  assert (H3 : (S 3 < 50)%nat) by lia.
  pose proof (history_bounded_most_recent_first (sampleEntry 0)
                (map sampleEntry (seq 1 59)) freshState) as H.
  cbv zeta in H. destruct H as (_ & _ & _ & Hshift & _ & _ & _ & Hfull).
  split; [exact H60|]. split; [exact H3|]. split.
  - apply Hfull. exact H60.
  - apply Hshift. exact H3.
Defined.

(** ** The credit ledger *)

Lemma roundTrip_run c s :
  roundTrip c s =
  (match nextFault s with
   | Answers => Val true
   | ErrorResponse => Val false
   | Throws => Exn
   end, sent c s).
Proof.
  unfold roundTrip, nextFault, sent.
  destruct (script s) as [|[] fs]; reflexivity.
Qed.

Lemma identity_anonymous s : identity s = Anonymous -> signedIn s = None.
Proof.
  unfold identity, signedIn. destruct (currentUser s); [discriminate|reflexivity].
Qed.

Lemma useCredit_refused s :
  signedIn s = None \/ purchasedCredits s <= 0 -> useCredit s = (Val false, s).
Proof.
  intros H. unfold useCredit, bind, gets, ret.
  destruct (signedIn s) as [uid|]; [|reflexivity].
  destruct H as [H|H]; [discriminate|].
  apply Z.leb_le in H. rewrite H. reflexivity.
Qed.

Lemma useCredit_run s uid :
  signedIn s = Some uid -> 0 < purchasedCredits s ->
  let c := UpdateBalance uid (purchasedCredits s - 1) in
  useCredit s =
  match nextFault s with
  | Answers =>
      (Val true,
       set_purchasedCredits (purchasedCredits s - 1)
         (set_credits
            (alter (debitedRow (purchasedCredits s - 1) (isoNow (clock s))) uid
               (credits s))
            (sent c s)))
  | _ => (Val false, sent c s)
  end.
Proof.
  intros Hu Hp c. unfold useCredit, bind, gets.
  rewrite Hu. apply Z.leb_gt in Hp. rewrite Hp.
  unfold tryCatch, updateBalance, bind. rewrite roundTrip_run.
  destruct (nextFault s); reflexivity.
Qed.

Lemma addCredits_refused amount s :
  signedIn s = None -> addCredits amount s = (Val false, s).
Proof. intros H. unfold addCredits, bind, gets, ret. rewrite H. reflexivity. Qed.

(** A call of [addCredits] by a signed-in user: the row it writes and the
    state in which the statistics are then refreshed. *)
Lemma addCredits_run amount s uid :
  signedIn s = Some uid ->
  let p := purchasedCredits s in
  let row := {| balance := p + amount; total_purchased := p + amount;
                updated_at := isoNow (clock s) |} in
  let c := UpsertCredits uid (p + amount) (p + amount) in
  addCredits amount s =
  match nextFault s with
  | Answers =>
      (Val true,
       after updateStats
         (set_purchasedCredits (p + amount)
            (set_credits (<[uid := row]> (credits s)) (sent c s))))
  | _ => (Val false, sent c s)
  end.
Proof.
  intros Hu p row c. unfold addCredits, bind, gets. rewrite Hu.
  unfold tryCatch, upsertCredits, bind. rewrite roundTrip_run.
  destruct (nextFault s); try reflexivity.
  unfold modify, ret. cbn [balance total_purchased].
  match goal with |- context [updateStats ?s1] =>
    destruct (total_run _ s1 updateStats_total) as [v Hv]; rewrite Hv end.
  reflexivity.
Qed.

Lemma loadCredits_total : total loadCredits.
Proof. unfold loadCredits. total_tac. Qed.

Lemma useCredit_total : total useCredit.
Proof. unfold useCredit. total_tac. Qed.

Lemma addCredits_total amount : total (addCredits amount).
Proof. unfold addCredits. total_tac. Qed.

Lemma loadCredits_effect s :
  credits (after loadCredits s) = credits s /\
  (purchasedCredits (after loadCredits s) = 0 \/
   exists uid row, credits s !! uid = Some row /\
                   purchasedCredits (after loadCredits s) = balance row).
Proof.
  unfold loadCredits, after, bind, gets, modify, ret.
  destruct (signedIn s) as [uid|]; cbn [fst snd]; [|split; [reflexivity|left; reflexivity]].
  unfold tryCatch, selectBalance, bind. rewrite roundTrip_run.
  destruct (nextFault s); cbn [fst snd];
    try (split; [reflexivity|left; reflexivity]).
  unfold gets. cbn.
  destruct (credits s !! uid) as [row|] eqn:E; cbn;
    [|split; [reflexivity|left; reflexivity]].
  destruct (balance row =? 0); cbn; (split; [reflexivity|]).
  - left; reflexivity.
  - right. exists uid, row. split; [exact E|reflexivity].
Qed.

Lemma ledger_ok_sameLedgers s s' : sameLedgers s s' -> ledger_ok s -> ledger_ok s'.
Proof.
  intros (_ & _ & _ & Hp & _ & Hc & _) [H1 H2]. unfold ledger_ok.
  rewrite Hp, Hc. split; assumption.
Qed.

Lemma ledgerStep_ok op s :
  amount_ok op -> ledger_ok s ->
  result (ledgerStep op) s = Val tt /\ ledger_ok (after (ledgerStep op) s).
Proof.
  intros Ha [Hp Hc]. destruct op as [|amount|]; cbn [ledgerStep amount_ok] in *.
  - unfold result, after, bind.
    destruct (total_run _ s loadCredits_total) as [v Hv]. rewrite Hv.
    cbn [fst snd ret]. split; [reflexivity|].
    destruct (loadCredits_effect s) as [Ec Ep]. unfold ledger_ok.
    rewrite Ec. split; [|assumption].
    destruct Ep as [Ep|(uid & row & Hr & Ep)]; rewrite Ep; [lia|eauto].
  - unfold result, after, bind.
    destruct (signedIn s) as [uid|] eqn:Hu.
    + rewrite (addCredits_run amount s uid Hu).
      destruct (nextFault s); cbn [fst snd ret];
        (split; [reflexivity|]); try (split; assumption).
      match goal with |- ledger_ok (after updateStats ?s1) =>
        apply (ledger_ok_sameLedgers s1); [apply updateStats_frames|] end.
      split; cbn; [lia|].
      intros uid' row'. destruct (decide (uid = uid')) as [->|Hne].
      * rewrite lookup_insert_eq. intros [= <-]. cbn. lia.
      * rewrite lookup_insert_ne by assumption. apply Hc.
    + rewrite (addCredits_refused amount s Hu). cbn. split; [reflexivity|].
      split; assumption.
  - unfold result, after, bind.
    destruct (signedIn s) as [uid|] eqn:Hu.
    + destruct (Z_lt_le_dec 0 (purchasedCredits s)) as [Hpos|Hle].
      * rewrite (useCredit_run s uid Hu Hpos).
        destruct (nextFault s); cbn [fst snd ret];
          (split; [reflexivity|]); try (split; assumption).
        split; cbn; [lia|].
        intros uid' row'. rewrite lookup_alter.
        destruct (decide (uid = uid')) as [->|Hne].
        -- destruct (credits s !! uid') as [r|]; cbn; [|discriminate].
           intros [= <-]. cbn. lia.
        -- apply Hc.
      * rewrite (useCredit_refused s) by (right; exact Hle). cbn.
        split; [reflexivity|]. split; assumption.
    + rewrite (useCredit_refused s) by (left; exact Hu). cbn.
      split; [reflexivity|]. split; assumption.
Qed.

Lemma ledgerRun_ok ops : forall s,
  Forall amount_ok ops -> ledger_ok s ->
  result (ledgerRun ops) s = Val tt /\ ledger_ok (after (ledgerRun ops) s).
Proof.
  induction ops as [|op ops IH]; intros s Ha Hs.
  - split; [reflexivity|exact Hs].
  - inversion Ha as [|? ? Hop Hops]; subst.
    destruct (ledgerStep_ok op s Hop Hs) as [Hr Hs1].
    cbn [ledgerRun]. unfold result, after, bind in *.
    destruct (ledgerStep op s) as [[[]|] s1]; cbn [fst snd] in *; [|discriminate].
    apply IH; assumption.
Qed.

(** C9.  [useCredit] is refused, changing nothing and returning [false],
    for an anonymous identity and for a balance of 0 or less; it returns
    [true] or [false]; when it returns [true] the balance of the session
    is one less and the stored row carries that balance (one less than
    before when the two agreed); when it returns [false] neither balance
    changed.  [addCredits] by an anonymous identity returns [false] and
    changes nothing.  Hence, from balances that are not negative, no
    sequence of loads, additions of non-negative amounts and spends makes
    a balance negative, and each such sequence runs to its end. *)
Theorem credit_balance_never_negative (s : State) :
  (identity s = Anonymous \/ purchasedCredits s <= 0 ->
   useCredit s = (Val false, s)) /\
  (result useCredit s = Val true \/ result useCredit s = Val false) /\
  (result useCredit s = Val true ->
   purchasedCredits (after useCredit s) = purchasedCredits s - 1 /\
   forall uid row,
     signedIn s = Some uid -> credits s !! uid = Some row ->
     credits (after useCredit s) !! uid =
       Some (debitedRow (purchasedCredits s - 1) (isoNow (clock s)) row) /\
     (balance row = purchasedCredits s ->
      balance <$> credits (after useCredit s) !! uid = Some (balance row - 1))) /\
  (result useCredit s = Val false ->
   purchasedCredits (after useCredit s) = purchasedCredits s /\
   credits (after useCredit s) = credits s) /\
  (forall amount, identity s = Anonymous -> addCredits amount s = (Val false, s)) /\
  (forall ops, ledger_ok s -> Forall amount_ok ops ->
   result (ledgerRun ops) s = Val tt /\ ledger_ok (after (ledgerRun ops) s)).
Proof.
  assert (Hcases :
    useCredit s = (Val false, s) \/
    (exists uid c, signedIn s = Some uid /\ 0 < purchasedCredits s /\
       (useCredit s = (Val false, sent c s) \/
        useCredit s =
          (Val true,
           set_purchasedCredits (purchasedCredits s - 1)
             (set_credits
                (alter (debitedRow (purchasedCredits s - 1) (isoNow (clock s)))
                   uid (credits s))
                (sent c s)))))).
  { destruct (signedIn s) as [uid|] eqn:Hu;
      [|left; apply useCredit_refused; left; exact Hu].
    destruct (Z_lt_le_dec 0 (purchasedCredits s)) as [Hpos|Hle];
      [|left; apply useCredit_refused; right; exact Hle].
    right. exists uid, (UpdateBalance uid (purchasedCredits s - 1)).
    split; [reflexivity|]. split; [exact Hpos|].
    rewrite (useCredit_run s uid Hu Hpos).
    destruct (nextFault s); [right|left|left]; reflexivity. }
  split.
  { intros [H|H]; apply useCredit_refused;
      [left; apply identity_anonymous; exact H | right; exact H]. }
  split.
  { unfold result.
    destruct Hcases as [E|(uid & c & _ & _ & [E|E])]; rewrite E; cbn; auto. }
  split.
  { unfold result, after.
    destruct Hcases as [E|(uid & c & Hu & _ & [E|E])]; rewrite E; cbn [fst snd];
      try discriminate.
    intros _. split; [reflexivity|].
    intros uid' row Hu' Hrow. rewrite Hu in Hu'. injection Hu' as <-.
    cbn [credits set_purchasedCredits set_credits].
    rewrite lookup_alter_eq, Hrow. cbn. split; [reflexivity|].
    intros ->. reflexivity. }
  split.
  { unfold result, after.
    destruct Hcases as [E|(uid & c & Hu & _ & [E|E])]; rewrite E; cbn [fst snd];
      try discriminate; intros _; split; reflexivity. }
  split.
  { intros amount H. apply addCredits_refused, identity_anonymous, H. }
  intros ops Hs Ha. apply ledgerRun_ok; assumption.
Qed.

Lemma creditedState_ledger_ok : ledger_ok creditedState.
Proof.
  split; [cbn; lia|]. intros uid row. cbn [creditedState credits set_purchasedCredits set_credits].
  destruct (decide (uid = "u1"%string)) as [->|Hne].
  - rewrite lookup_singleton_eq. intros [= <-]. cbn. lia.
  - rewrite lookup_singleton_ne by congruence. discriminate.
Qed.

Lemma credit_balance_never_negative_witness :
  (identity freshState = Anonymous /\ useCredit freshState = (Val false, freshState) /\
   addCredits 25 freshState = (Val false, freshState)) /\
  (result useCredit creditedState = Val true /\
   purchasedCredits (after useCredit creditedState) = 3 - 1) /\
  (ledger_ok creditedState /\
   Forall amount_ok [OpSpend; OpSpend; OpSpend; OpSpend; OpAdd 25; OpLoad] /\
   ledger_ok (after (ledgerRun [OpSpend; OpSpend; OpSpend; OpSpend; OpAdd 25; OpLoad])
                creditedState)).
Proof.
  assert (Ha : identity freshState = Anonymous) by reflexivity.
  assert (Ht : result useCredit creditedState = Val true) by (vm_compute; reflexivity).
  assert (Hf : Forall amount_ok [OpSpend; OpSpend; OpSpend; OpSpend; OpAdd 25; OpLoad]).
  { repeat constructor. cbn. lia. }
  destruct (credit_balance_never_negative freshState) as (Hr & _ & _ & _ & Hadd & _).
  destruct (credit_balance_never_negative creditedState) as (_ & _ & Hs & _ & _ & Hrun).
  split; [|split].
  - split; [exact Ha|]. split; [apply Hr; left; exact Ha | apply Hadd; exact Ha].
  - split; [exact Ht|]. apply Hs. exact Ht.
  - split; [exact creditedState_ledger_ok|]. split; [exact Hf|].
    apply Hrun; [exact creditedState_ledger_ok | exact Hf].
Defined.

(** Every successful [addCredits] stores the same number in both columns:
    the balance of the session plus the amount. *)
Lemma addCredits_row amount s :
  result (addCredits amount) s = Val true ->
  exists uid,
    signedIn s = Some uid /\
    purchasedCredits (after (addCredits amount) s) = purchasedCredits s + amount /\
    credits (after (addCredits amount) s) !! uid =
      Some {| balance := purchasedCredits s + amount;
              total_purchased := purchasedCredits s + amount;
              updated_at := isoNow (clock s) |}.
Proof.
  unfold result, after. destruct (signedIn s) as [uid|] eqn:Hu.
  - rewrite (addCredits_run amount s uid Hu).
    destruct (nextFault s); cbn [fst snd]; try discriminate.
    intros _. exists uid. split; [reflexivity|].
    match goal with |- context [after updateStats ?s1] =>
      destruct (updateStats_frames s1) as (_ & _ & _ & Hp & _ & Hc & _) end.
    rewrite Hp, Hc. cbn.
    rewrite lookup_insert_eq. split; reflexivity.
  - rewrite (addCredits_refused amount s Hu). discriminate.
Qed.

(** C1 (the code departs from the claim).  The user ["u1"] buys two packs
    of 25 and spends 30 credits: the stored row holds balance 20 and
    total purchased 50.  A third purchase of 25 succeeds and stores
    balance 45 and total purchased 45: the balance rose by the amount,
    the total purchased fell by 5 instead of rising by 25. *)
Theorem addCredits_overwrites_total_purchased :
  let s1 := after (ledgerRun twoPacksThirtySpent) userState in
  let s2 := after (addCredits CREDIT_PACK_SIZE) s1 in
  purchasedCredits s1 = 20 /\
  balance <$> credits s1 !! "u1"%string = Some 20 /\
  total_purchased <$> credits s1 !! "u1"%string = Some 50 /\
  result (addCredits CREDIT_PACK_SIZE) s1 = Val true /\
  balance <$> credits s2 !! "u1"%string = Some 45 /\
  total_purchased <$> credits s2 !! "u1"%string = Some 45.
Proof. vm_compute. repeat split; reflexivity. Qed.

(** ** Migration of the local history *)

Lemma reliable_next s : reliable s -> nextFault s = Answers.
Proof.
  unfold reliable, nextFault. intros H.
  destruct (script s) as [|f fs]; [reflexivity|].
  inversion H; subst. reflexivity.
Qed.

Lemma reliable_sent c s : reliable s -> reliable (sent c s).
Proof.
  unfold reliable, sent. cbn. intros H.
  destruct (script s) as [|f fs]; cbn; [constructor|].
  inversion H; assumption.
Qed.

Lemma insertGeneration_run row s :
  insertGeneration row s =
  match nextFault s with
  | Answers =>
      (Val true, set_generations (generations s ++ [row]) (sent (InsertGeneration row) s))
  | ErrorResponse => (Val false, sent (InsertGeneration row) s)
  | Throws => (Exn, sent (InsertGeneration row) s)
  end.
Proof.
  unfold insertGeneration, bind. rewrite roundTrip_run.
  destruct (nextFault s); reflexivity.
Qed.

(** One turn of the migration loop: the insert is tried, a failure of
    either kind is passed over. *)
Lemma migrateItem_run uid item s :
  tryCatch (insertGeneration (migratedRow uid item) ;;; ret tt) (ret tt) s =
  (Val tt,
   match nextFault s with
   | Answers =>
       set_generations (generations s ++ [migratedRow uid item])
         (sent (InsertGeneration (migratedRow uid item)) s)
   | _ => sent (InsertGeneration (migratedRow uid item)) s
   end).
Proof.
  unfold tryCatch, bind. rewrite insertGeneration_run.
  destruct (nextFault s); reflexivity.
Qed.

Lemma migrateItems_spec uid items : forall s,
  result (migrateItems uid items) s = Val tt /\
  localStorage (after (migrateItems uid items) s) = localStorage s /\
  insertsMade (after (migrateItems uid items) s) =
    (insertsMade s + length items)%nat /\
  (exists kept,
     sublist kept (map (migratedRow uid) items) /\
     generations (after (migrateItems uid items) s) = generations s ++ kept) /\
  (reliable s ->
   generations (after (migrateItems uid items) s) =
     generations s ++ map (migratedRow uid) items).
Proof.
  induction items as [|item items IH]; intros s.
  - cbn. unfold result, after, ret. cbn.
    split; [reflexivity|]. split; [reflexivity|]. split; [lia|].
    split; [exists []; split; [constructor | rewrite app_nil_r; reflexivity]|].
    intros _. rewrite app_nil_r. reflexivity.
  - cbn [migrateItems]. unfold result, after.
    rewrite (bind_run _ _ _ _ _ (migrateItem_run uid item s)).
    match goal with |- context [migrateItems uid items ?s1] =>
      destruct (IH s1) as (Hr & Hl & Hi & (kept & Hk & Hg) & Hrel);
      set (s' := s1) in * end.
    unfold result, after in *.
    split; [exact Hr|].
    assert (Hs' : localStorage s' = localStorage s /\
                  insertsMade s' = S (insertsMade s)).
    { subst s'. destruct (nextFault s); cbn; split; reflexivity. }
    destruct Hs' as [Hl' Hi'].
    split; [rewrite Hl; exact Hl'|].
    split; [rewrite Hi, Hi'; cbn [length]; lia|].
    split.
    + rewrite Hg. subst s'. destruct (nextFault s) eqn:Hf; cbn [generations set_generations sent set_wire].
      * exists (migratedRow uid item :: kept). split.
        -- cbn [map]. apply sublist_skip. exact Hk.
        -- rewrite <- app_assoc. reflexivity.
      * exists kept. split; [cbn [map]; apply sublist_cons; exact Hk | reflexivity].
      * exists kept. split; [cbn [map]; apply sublist_cons; exact Hk | reflexivity].
    + intros Hrs. rewrite Hrel.
      * subst s'. rewrite (reliable_next s Hrs). cbn.
        rewrite <- app_assoc. reflexivity.
      * subst s'. rewrite (reliable_next s Hrs).
        apply (reliable_sent (InsertGeneration (migratedRow uid item))) in Hrs.
        exact Hrs.
Qed.

Lemma selectExisting_run uid s :
  selectExisting uid s =
  (match nextFault s with
   | Answers => Val (Some (take 1 (rowsOf uid (generations s))))
   | ErrorResponse => Val None
   | Throws => Exn
   end, sent (SelectExisting uid) s).
Proof.
  unfold selectExisting, bind. rewrite roundTrip_run.
  destruct (nextFault s); reflexivity.
Qed.

Lemma migrate_idle s :
  signedIn s = None \/ historyOf (getUsageData s) = [] ->
  migrateLocalHistoryToCloud s = (Val tt, s).
Proof.
  intros H. unfold migrateLocalHistoryToCloud, bind, gets, ret.
  destruct (signedIn s) as [uid|]; [|reflexivity].
  destruct H as [H|H]; [discriminate|]. unfold historyOf in H.
  destruct (u_history (getUsageData s)) as [[|item hist]|]; try reflexivity.
  discriminate.
Qed.

Lemma migrate_run s uid item hist :
  signedIn s = Some uid ->
  u_history (getUsageData s) = Some (item :: hist) ->
  migrateLocalHistoryToCloud s =
  match nextFault s with
  | Answers =>
      match rowsOf uid (generations s) with
      | [] => migrateItems uid (take 20 (item :: hist)) (sent (SelectExisting uid) s)
      | _ :: _ => (Val tt, sent (SelectExisting uid) s)
      end
  | ErrorResponse =>
      migrateItems uid (take 20 (item :: hist)) (sent (SelectExisting uid) s)
  | Throws => (Exn, sent (SelectExisting uid) s)
  end.
Proof.
  intros Hu Hh. unfold migrateLocalHistoryToCloud, bind at 1, gets at 1.
  rewrite Hu. unfold bind at 1, gets at 1. rewrite Hh.
  unfold bind. rewrite selectExisting_run.
  destruct (nextFault s); try reflexivity.
  destruct (rowsOf uid (generations s)); reflexivity.
Qed.

(** When its check of the store is answered, the migration does as
    described: it never touches the local record; with a row of the user
    in the store it inserts nothing; with none it tries the first 20
    entries of the local history in their order, the rows that arrive
    keep that order, and all arrive when no call fails. *)
Lemma migration_when_check_answers s uid :
  signedIn s = Some uid -> nextFault s = Answers ->
  let s' := after migrateLocalHistoryToCloud s in
  let batch := take 20 (historyOf (getUsageData s)) in
  result migrateLocalHistoryToCloud s = Val tt /\
  localStorage s' = localStorage s /\
  (length batch <= 20)%nat /\
  (rowsOf uid (generations s) <> [] ->
   generations s' = generations s /\ insertsMade s' = insertsMade s) /\
  (rowsOf uid (generations s) = [] ->
   insertsMade s' = (insertsMade s + length batch)%nat /\
   (exists kept, sublist kept (map (migratedRow uid) batch) /\
                 generations s' = generations s ++ kept) /\
   (reliable s -> generations s' = generations s ++ map (migratedRow uid) batch)).
Proof.
  intros Hu Hf s' batch.
  assert (Hb : (length batch <= 20)%nat) by (subst batch; rewrite length_take; lia).
  destruct (u_history (getUsageData s)) as [[|item hist]|] eqn:Hh.
  1,3: assert (Hb0 : batch = [])
         by (subst batch; unfold historyOf; rewrite Hh; reflexivity);
       subst s'; unfold result, after; rewrite migrate_idle
         by (right; unfold historyOf; rewrite Hh; reflexivity);
       cbn [fst snd]; rewrite Hb0;
       (split; [reflexivity|]); (split; [reflexivity|]);
       (split; [cbn; lia|]); (split; [intros _; split; reflexivity|]);
       intros _; cbn [map length]; rewrite app_nil_r;
       (split; [lia|]);
       (split; [exists []; split; [constructor | rewrite app_nil_r; reflexivity]|]);
       intros _; reflexivity.
  assert (Hbatch : batch = take 20 (item :: hist))
    by (subst batch; unfold historyOf; rewrite Hh; reflexivity).
  subst s'. unfold result, after.
  rewrite (migrate_run s uid item hist Hu Hh), Hf.
  destruct (rowsOf uid (generations s)) as [|r rs] eqn:Hrows.
  - destruct (migrateItems_spec uid (take 20 (item :: hist)) (sent (SelectExisting uid) s))
      as (Hr & Hl & Hi & Hk & Hrel).
    unfold result, after in *. rewrite <- Hbatch in *.
    split; [exact Hr|]. split; [exact Hl|]. split; [exact Hb|].
    split; [intros H; congruence|]. intros _.
    split; [exact Hi|]. split; [exact Hk|].
    intros Hrs. apply Hrel. apply reliable_sent. exact Hrs.
  - cbn [fst snd]. split; [reflexivity|]. split; [reflexivity|].
    split; [exact Hb|]. split; [intros _; split; reflexivity|].
    intros H; discriminate.
Qed.

(** C4 (the code departs from the claim).  The store already holds the
    row of the one local entry of user ["u1"], and the check of the store
    is answered with an error.  The migration then runs as for an empty
    store: it makes one insert and the store holds the entry twice. *)
Theorem migration_repeats_after_failed_check :
  rowsOf "u1" (generations returningUser) = [migratedRow "u1" savedItem] /\
  nextFault returningUser = ErrorResponse /\
  result migrateLocalHistoryToCloud returningUser = Val tt /\
  insertsMade (after migrateLocalHistoryToCloud returningUser) = 1%nat /\
  generations (after migrateLocalHistoryToCloud returningUser) =
    [migratedRow "u1" savedItem; migratedRow "u1" savedItem] /\
  localStorage (after migrateLocalHistoryToCloud returningUser) =
    localStorage returningUser.
Proof. vm_compute. repeat split; reflexivity. Qed.

(** ** The cached remote free count *)

Lemma countSince_run uid t s :
  countSince uid t s =
  (match nextFault s with
   | Answers => Val (Some (Z.of_nat (length (rowsSince uid t (generations s)))))
   | ErrorResponse => Val None
   | Throws => Exn
   end, sent (CountSince uid t) s).
Proof.
  unfold countSince, bind. rewrite roundTrip_run.
  destruct (nextFault s); reflexivity.
Qed.

Lemma cloudFreeCount_run uid s :
  cloudFreeCount uid s =
  if cacheHit s then (Val (cachedCloudUsage s), s)
  else (match nextFault s with
        | Throws => Val None
        | _ => Val (Some (fst (refreshed uid s)))
        end, snd (refreshed uid s)).
Proof.
  assert (E : tryCatch (n' <- refreshCloudCount uid (currentPeriod s) ;; ret (Some n'))
                (ret None) s =
              (match nextFault s with
               | Throws => Val None
               | _ => Val (Some (fst (refreshed uid s)))
               end, snd (refreshed uid s))).
  { unfold tryCatch, bind, refreshCloudCount, bind. rewrite countSince_run.
    unfold refreshed, countQuery, remoteFreeCount.
    destruct (nextFault s); reflexivity. }
  unfold cloudFreeCount, bind at 1 2 3, gets, cacheHit.
  destruct (cachedCloudUsage s) as [n|]; [|exact E].
  destruct (samePeriod _ _); [reflexivity | exact E].
Qed.

Lemma getFreeUsageCount_run s :
  getFreeUsageCount s =
  match signedIn s with
  | None => (Val (localFreeCount s), s)
  | Some uid =>
      if cacheHit s then (Val (orZero (cachedCloudUsage s)), s)
      else (Val (fst (refreshed uid s)), snd (refreshed uid s))
  end.
Proof.
  destruct (signedIn s) as [uid|] eqn:Hu;
    [|apply anonymous_getFreeUsageCount; exact Hu].
  unfold getFreeUsageCount, bind at 1, gets at 1. rewrite Hu.
  unfold bind. rewrite cloudFreeCount_run.
  unfold cacheHit. destruct (cachedCloudUsage s) as [n|] eqn:Hc.
  - destruct (samePeriod _ _); [reflexivity|].
    unfold refreshed. destruct (nextFault s); reflexivity.
  - unfold refreshed. destruct (nextFault s); reflexivity.
Qed.

Lemma settled_getFreeUsageCount s :
  settled s -> getFreeUsageCount s = (Val (usedView s), s).
Proof.
  unfold settled, usedView. rewrite getFreeUsageCount_run.
  destruct (signedIn s); [|reflexivity]. intros ->. reflexivity.
Qed.

Lemma settled_getRemaining s :
  settled s ->
  getRemainingFreeGenerations s = (Val (Z.max 0 (getFreeLimit s - usedView s)), s).
Proof.
  intros H. unfold getRemainingFreeGenerations.
  rewrite (bind_run _ _ _ _ _ (settled_getFreeUsageCount s H)). reflexivity.
Qed.

Lemma getRemaining_run s :
  getRemainingFreeGenerations s =
  (match result getFreeUsageCount s with
   | Val used => Val (Z.max 0 (getFreeLimit s - used))
   | Exn => Exn
   end, after getFreeUsageCount s).
Proof.
  unfold result, after, getRemainingFreeGenerations.
  destruct (total_run _ s getFreeUsageCount_total) as [used Hu].
  rewrite (bind_run _ _ _ _ _ Hu), Hu. cbn [fst snd]. unfold bind, gets, ret.
  destruct (getFreeUsageCount_frames s) as (_ & Hc & _).
  unfold getFreeLimit. rewrite Hc. reflexivity.
Qed.

Lemma signedIn_sameLedgers s s' : sameLedgers s s' -> signedIn s' = signedIn s.
Proof.
  intros (_ & Hc & Hs & _). unfold signedIn. rewrite Hc, Hs. reflexivity.
Qed.

Lemma getRemaining_val s :
  exists r, getRemainingFreeGenerations s = (Val r, after getFreeUsageCount s).
Proof.
  rewrite getRemaining_run.
  destruct (getFreeUsageCount_total s) as [used Hu]. rewrite Hu. eauto.
Qed.

Lemma updateStats_after s :
  after updateStats s = statsState (after getFreeUsageCount s).
Proof.
  unfold after at 1, updateStats.
  destruct (getRemaining_val s) as [r Hr].
  rewrite (bind_run _ _ _ _ _ Hr).
  unfold bind at 1, gets at 1. unfold bind at 1, gets at 1.
  unfold bind at 1, gets at 1. unfold statsState.
  destruct (signedIn (after getFreeUsageCount s)) as [uid|]; [|reflexivity].
  unfold bind, tryCatch, countAll, bind. rewrite roundTrip_run.
  destruct (nextFault _); reflexivity.
Qed.

Lemma updateGenerateUsage_after s :
  after updateGenerateUsage s =
  let s1 := if hasUsageEl s then after getFreeUsageCount s else s in
  if hasBuyBtn s then after getFreeUsageCount s1 else s1.
Proof.
  unfold after at 1, updateGenerateUsage. unfold bind at 1, gets at 1.
  assert (E : forall b s0,
    (if b : bool then getRemainingFreeGenerations ;;; ret tt else ret tt) s0 =
    (Val tt, if b then after getFreeUsageCount s0 else s0)).
  { intros [|] s0; [|reflexivity].
    destruct (getRemaining_val s0) as [r Hr].
    rewrite (bind_run _ _ _ _ _ Hr). reflexivity. }
  rewrite (bind_run _ _ _ _ _ (E (hasUsageEl s) s)).
  unfold bind at 1, gets at 1. rewrite E. cbn [snd].
  assert (Hb : hasBuyBtn (if hasUsageEl s then after getFreeUsageCount s else s)
               = hasBuyBtn s).
  { destruct (hasUsageEl s); [|reflexivity].
    destruct (getFreeUsageCount_frames s) as (_&_&_&_&_&_&_&_&H). exact H. }
  rewrite Hb. reflexivity.
Qed.

Lemma after_seq {A B} (m : M A) (k : M B) s :
  total m -> after (m ;;; k) s = after k (after m s).
Proof.
  intros Ht. destruct (total_run m s Ht) as [a Ha].
  unfold after at 1. rewrite (bind_run _ _ _ _ _ Ha). reflexivity.
Qed.


#[export] Instance quietStep_refl : Reflexive quietStep.
Proof.
  intros s. unfold quietStep. split; [reflexivity|].
  repeat split; try reflexivity. exists 0%nat. reflexivity.
Qed.

#[export] Instance quietStep_trans : Transitive quietStep.
Proof.
  intros a b c (L1 & C1 & P1 & (k1 & S1) & Q1) (L2 & C2 & P2 & (k2 & S2) & Q2).
  split; [etransitivity; eassumption|].
  split; [congruence|]. split; [congruence|]. split; [|congruence].
  exists (k1 + k2)%nat. rewrite S2, S1, drop_drop. reflexivity.
Qed.

Lemma currentPeriod_sameLedgers s s' :
  sameLedgers s s' -> currentPeriod s' = currentPeriod s.
Proof. intros (Hc & _). unfold currentPeriod. rewrite Hc. reflexivity. Qed.

Lemma localFreeCount_sameLedgers s s' :
  sameLedgers s s' -> localFreeCount s' = localFreeCount s.
Proof.
  intros H. pose proof (currentPeriod_sameLedgers _ _ H) as Hp.
  destruct H as (_ & _ & _ & _ & Hl & _).
  unfold localFreeCount, getUsageData. rewrite Hl, Hp. reflexivity.
Qed.

Lemma quietStep_cacheHit s s' : quietStep s s' -> cacheHit s' = cacheHit s.
Proof.
  intros (L & C & P & _). unfold cacheHit.
  rewrite C, P, (currentPeriod_sameLedgers _ _ L). reflexivity.
Qed.

Lemma quietStep_settled s s' : quietStep s s' -> settled s -> settled s'.
Proof.
  intros H. unfold settled.
  rewrite (signedIn_sameLedgers s s') by apply H.
  rewrite (quietStep_cacheHit _ _ H). auto.
Qed.

Lemma quietStep_usedView s s' : quietStep s s' -> usedView s' = usedView s.
Proof.
  intros H. unfold usedView.
  rewrite (signedIn_sameLedgers s s') by apply H.
  destruct H as (L & C & _). rewrite C, (localFreeCount_sameLedgers _ _ L).
  reflexivity.
Qed.

Lemma Forall_drop_script (P : Fault -> Prop) s s' :
  (exists k, script s' = drop k (script s)) ->
  Forall P (script s) -> Forall P (script s').
Proof. intros [k ->]. apply Forall_drop. Qed.

Lemma quietStep_noThrows s s' : quietStep s s' -> noThrows s -> noThrows s'.
Proof. intros (_ & _ & _ & H & _). apply Forall_drop_script, H. Qed.


Lemma quietStep_queries s s' :
  quietStep s s' -> freeCountQueries s' = freeCountQueries s.
Proof. intros (_ & _ & _ & _ & H). exact H. Qed.

Lemma sent_quiet c s : isFreeCountQuery c = false -> quietStep s (sent c s).
Proof.
  intros Hc. unfold quietStep, sent. cbn.
  split; [unfold sameLedgers; cbn; tauto|].
  split; [reflexivity|]. split; [reflexivity|].
  split; [exists 1%nat; destruct (script s); reflexivity|].
  unfold freeCountQueries. cbn. rewrite Hc. reflexivity.
Qed.

Lemma statsState_quiet s : quietStep s (statsState s).
Proof.
  unfold statsState. destruct (signedIn s); [|reflexivity].
  apply sent_quiet. reflexivity.
Qed.

Lemma settled_after_getFreeUsageCount s :
  settled s -> after getFreeUsageCount s = s.
Proof. intros H. unfold after. rewrite settled_getFreeUsageCount by exact H. reflexivity. Qed.

Lemma settled_updateGenerateUsage s :
  settled s -> after updateGenerateUsage s = s.
Proof.
  intros H. rewrite updateGenerateUsage_after. cbv zeta.
  rewrite (settled_after_getFreeUsageCount s H).
  destruct (hasUsageEl s), (hasBuyBtn s);
    rewrite ?(settled_after_getFreeUsageCount s H); reflexivity.
Qed.

(** What [getFreeUsageCount] does to the wire and the cache, whatever the
    state. *)
Lemma getFreeUsageCount_facts s :
  let s' := after getFreeUsageCount s in
  sameLedgers s s' /\
  (exists k, script s' = drop k (script s)) /\
  (freeCountQueries s' <= freeCountQueries s + 1)%nat /\
  (settled s -> s' = s) /\
  (~ settled s -> freeCountQueries s' = (freeCountQueries s + 1)%nat) /\
  (nextFault s <> Throws ->
   settled s' /\ result getFreeUsageCount s = Val (usedView s')).
Proof.
  intros s'. split; [apply getFreeUsageCount_frames|].
  assert (Hs : settled s -> s' = s) by apply settled_after_getFreeUsageCount.
  subst s'. unfold after, result in *. rewrite getFreeUsageCount_run in *.
  unfold settled, usedView in *.
  destruct (signedIn s) as [uid|] eqn:Hu.
  2:{ cbn [fst snd]. rewrite Hu.
      split; [exists 0%nat; reflexivity|]. split; [lia|].
      split; [auto|]. split; [tauto|]. intros _. split; [exact I|reflexivity]. }
  destruct (cacheHit s) eqn:Hh.
  { cbn [fst snd]. rewrite Hu, Hh.
    split; [exists 0%nat; reflexivity|]. split; [lia|].
    split; [auto|]. split; [tauto|]. intros _. split; reflexivity. }
  cbn [fst snd].
  assert (Hsig : forall v p c,
    signedIn (set_cache v p (sent c s)) = Some uid).
  { intros. unfold signedIn in *. cbn. exact Hu. }
  assert (Hper : forall v c,
    cacheHit (set_cache (Some v) (Some (currentPeriod s)) (sent c s)) = true).
  { intros. unfold cacheHit, currentPeriod. cbn. apply String.eqb_refl. }
  unfold refreshed.
  split.
  { exists 1%nat. destruct (nextFault s); cbn; destruct (script s); reflexivity. }
  split; [destruct (nextFault s); unfold freeCountQueries; cbn; lia|].
  split; [exact Hs|].
  split; [intros _; destruct (nextFault s); unfold freeCountQueries; cbn; lia|].
  intros Hnt. destruct (nextFault s); [| |congruence]; cbn [fst snd];
    rewrite Hsig, Hper; split; reflexivity.
Qed.

Lemma noThrows_next s : noThrows s -> nextFault s <> Throws.
Proof.
  unfold noThrows, nextFault. intros H.
  destruct (script s) as [|f fs]; [discriminate|].
  inversion H; subst. assumption.
Qed.

Lemma reliable_noThrows s : reliable s -> noThrows s.
Proof.
  unfold reliable, noThrows. intros H.
  eapply Forall_impl; [exact H|]. intros f ->. discriminate.
Qed.

(** The two refreshes that end [incrementUsage] and [consumeGeneration]:
    once the free count is settled they only ask for the lifetime
    count. *)
Lemma refresh_after s :
  settled (after getFreeUsageCount s) ->
  after (updateStats ;;; updateGenerateUsage) s =
  statsState (after getFreeUsageCount s).
Proof.
  intros H. rewrite after_seq by apply updateStats_total.
  rewrite updateStats_after. apply settled_updateGenerateUsage.
  apply (quietStep_settled _ _ (statsState_quiet _)). exact H.
Qed.

Lemma refresh_settled s :
  settled s ->
  after (updateStats ;;; updateGenerateUsage) s = statsState s.
Proof.
  intros H. rewrite refresh_after; rewrite (settled_after_getFreeUsageCount s H);
    [reflexivity | exact H].
Qed.

Lemma bumpCache_cacheHit s : cacheHit (bumpCache s) = cacheHit s.
Proof.
  unfold bumpCache. destruct (cachedCloudUsage s) eqn:E; [|reflexivity].
  unfold cacheHit. rewrite E. reflexivity.
Qed.

Lemma signedIn_bumpCache s : signedIn (bumpCache s) = signedIn s.
Proof. unfold bumpCache. destruct (cachedCloudUsage s); reflexivity. Qed.

(** The state in which [incrementUsage] starts its refreshes. *)
Lemma incremented_settled s d :
  settled s -> settled (set_localStorage d (bumpCache s)).
Proof.
  unfold settled. intros H.
  change (signedIn (set_localStorage d (bumpCache s))) with (signedIn (bumpCache s)).
  change (cacheHit (set_localStorage d (bumpCache s))) with (cacheHit (bumpCache s)).
  rewrite signedIn_bumpCache, bumpCache_cacheHit. exact H.
Qed.

Lemma incremented_wire s d :
  script (set_localStorage d (bumpCache s)) = script s /\
  calls (set_localStorage d (bumpCache s)) = calls s.
Proof. unfold bumpCache. destruct (cachedCloudUsage s); split; reflexivity. Qed.

Lemma incrementUsage_after s :
  after incrementUsage s =
  after (updateStats ;;; updateGenerateUsage)
    (set_localStorage
       (Stored (incrementedUsage (currentPeriod s) (getUsageData s)))
       (bumpCache s)).
Proof. unfold after at 1. rewrite incrementUsage_run. reflexivity. Qed.

Lemma usageStep_settled op s :
  settled s ->
  settled (after (usageStep op) s) /\
  freeCountQueries (after (usageStep op) s) = freeCountQueries s.
Proof.
  intros H. destruct op; cbn [usageStep].
  - rewrite after_seq by apply getFreeUsageCount_total.
    rewrite (settled_after_getFreeUsageCount s H). split; [exact H|reflexivity].
  - rewrite incrementUsage_after.
    set (s1 := set_localStorage _ (bumpCache s)).
    assert (H1 : settled s1) by (apply incremented_settled; exact H).
    rewrite (refresh_settled s1 H1).
    split; [apply (quietStep_settled _ _ (statsState_quiet _)); exact H1|].
    rewrite (quietStep_queries _ _ (statsState_quiet s1)).
    unfold freeCountQueries. subst s1.
    destruct (incremented_wire s (Stored (incrementedUsage (currentPeriod s) (getUsageData s))))
      as [_ ->]. reflexivity.
Qed.

Lemma usageStep_total op : total (usageStep op).
Proof.
  destruct op; cbn [usageStep]; [total_tac|].
  intros s. exists tt. unfold result. rewrite incrementUsage_run. reflexivity.
Qed.

Lemma usageRun_settled ops : forall s,
  settled s ->
  settled (after (usageRun ops) s) /\
  freeCountQueries (after (usageRun ops) s) = freeCountQueries s.
Proof.
  induction ops as [|op ops IH]; intros s H; [split; [exact H|reflexivity]|].
  cbn [usageRun]. rewrite after_seq by apply usageStep_total.
  destruct (usageStep_settled op s H) as [H1 Q1].
  destruct (IH _ H1) as [H2 Q2]. split; [exact H2|congruence].
Qed.

Lemma usageStep_noThrows op s :
  noThrows s ->
  settled (after (usageStep op) s) /\
  noThrows (after (usageStep op) s) /\
  (freeCountQueries (after (usageStep op) s) <= freeCountQueries s + 1)%nat.
Proof.
  intros H. destruct op; cbn [usageStep].
  - rewrite after_seq by apply getFreeUsageCount_total.
    destruct (getFreeUsageCount_facts s) as (_ & Hk & Hq & _ & _ & Hs).
    split; [apply Hs, noThrows_next, H|].
    split; [apply (Forall_drop_script _ s); assumption | exact Hq].
  - rewrite incrementUsage_after.
    set (s1 := set_localStorage _ (bumpCache s)).
    assert (Hw : script s1 = script s /\ calls s1 = calls s)
      by apply incremented_wire.
    destruct Hw as [Hw1 Hw2].
    assert (H1 : noThrows s1) by (unfold noThrows; rewrite Hw1; exact H).
    destruct (getFreeUsageCount_facts s1) as (_ & Hk & Hq & _ & _ & Hs).
    destruct (Hs (noThrows_next s1 H1)) as [Hset _].
    rewrite (refresh_after s1 Hset).
    pose proof (statsState_quiet (after getFreeUsageCount s1)) as Hquiet.
    split; [apply (quietStep_settled _ _ Hquiet); exact Hset|].
    split.
    + apply (quietStep_noThrows _ _ Hquiet).
      apply (Forall_drop_script _ s1); assumption.
    + rewrite (quietStep_queries _ _ Hquiet).
      unfold freeCountQueries in *. rewrite Hw2 in Hq. exact Hq.
Qed.

Lemma usageRun_noThrows ops s :
  noThrows s ->
  (freeCountQueries (after (usageRun ops) s) <= freeCountQueries s + 1)%nat.
Proof.
  intros H. destruct ops as [|op ops]; [cbn; lia|].
  cbn [usageRun]. rewrite after_seq by apply usageStep_total.
  destruct (usageStep_noThrows op s H) as (Hs & _ & Hq).
  destruct (usageRun_settled ops _ Hs) as [_ Q]. rewrite Q. exact Hq.
Qed.

Lemma cachedFor_cacheHit s n : cachedFor s n -> cacheHit s = true.
Proof. intros [Hc Hp]. unfold cacheHit. rewrite Hc. exact Hp. Qed.

Lemma cachedFor_settled s n : cachedFor s n -> settled s.
Proof.
  intros H. unfold settled. destruct (signedIn s); [|exact I].
  apply (cachedFor_cacheHit s n H).
Qed.

Lemma quietStep_cachedFor s s' n : quietStep s s' -> cachedFor s n -> cachedFor s' n.
Proof.
  intros (L & C & P & _) [Hc Hp]. unfold cachedFor.
  rewrite C, P, (currentPeriod_sameLedgers _ _ L). split; assumption.
Qed.

(** C8, as the code has it.  With the count of the current period in the
    cache, [getFreeUsageCount] of a signed-in user returns it and leaves
    the state, wire included, as it was; [incrementUsage] adds one to the
    cached count and asks the store for no free count; and no run of
    reads and increments asks for one.  A read that has to ask caches the
    answer unless the query throws, in which case nothing is cached and
    the next read asks again.  So when no call throws, a run of reads and
    increments at one instant asks for the free count at most once. *)
Theorem free_count_cached_within_period (s : State) :
  (forall uid n, signedIn s = Some uid -> cachedFor s n ->
   getFreeUsageCount s = (Val n, s)) /\
  (forall n, cachedFor s n ->
   cachedFor (after incrementUsage s) (n + 1) /\
   freeCountQueries (after incrementUsage s) = freeCountQueries s) /\
  (settled s -> forall ops,
   settled (after (usageRun ops) s) /\
   freeCountQueries (after (usageRun ops) s) = freeCountQueries s) /\
  (forall uid, signedIn s = Some uid -> nextFault s <> Throws ->
   exists n, cachedFor (after getFreeUsageCount s) n /\
             result getFreeUsageCount s = Val n) /\
  (forall uid, signedIn s = Some uid -> cacheHit s = false ->
   nextFault s = Throws ->
   cacheHit (after getFreeUsageCount s) = false /\
   freeCountQueries (after getFreeUsageCount s) = (freeCountQueries s + 1)%nat) /\
  (noThrows s -> atMostOneFreeCountQuery s).
Proof.
  split.
  { intros uid n Hu [Hc Hp]. rewrite getFreeUsageCount_run, Hu.
    unfold cacheHit. rewrite Hc, Hp. reflexivity. }
  split.
  { intros n Hn. rewrite incrementUsage_after.
    set (s1 := set_localStorage _ (bumpCache s)).
    assert (Hn1 : cachedFor s1 (n + 1)).
    { destruct Hn as [Hc Hp]. subst s1. unfold cachedFor, bumpCache.
      rewrite Hc. cbn. split; [reflexivity|exact Hp]. }
    rewrite (refresh_settled s1 (cachedFor_settled _ _ Hn1)).
    split; [apply (quietStep_cachedFor _ _ _ (statsState_quiet s1) Hn1)|].
    rewrite (quietStep_queries _ _ (statsState_quiet s1)).
    unfold freeCountQueries. subst s1.
    destruct (incremented_wire s (Stored (incrementedUsage (currentPeriod s) (getUsageData s))))
      as [_ ->]. reflexivity. }
  split; [intros H ops; apply usageRun_settled; exact H|].
  split.
  { intros uid Hu Hnt.
    destruct (getFreeUsageCount_facts s) as (L & _ & _ & _ & _ & Hs).
    destruct (Hs Hnt) as [Hset Hres].
    unfold settled, usedView in *.
    rewrite (signedIn_sameLedgers _ _ L), Hu in *.
    unfold cacheHit in Hset.
    destruct (cachedCloudUsage (after getFreeUsageCount s)) as [n|] eqn:Hc;
      [|discriminate].
    exists n. split; [split; assumption | exact Hres]. }
  split.
  { intros uid Hu Hmiss Hf. unfold after. rewrite getFreeUsageCount_run, Hu, Hmiss.
    unfold refreshed. rewrite Hf. cbn [fst snd].
    split; [|unfold freeCountQueries; cbn; lia].
    unfold cacheHit in *. cbn. exact Hmiss. }
  intros H ops. apply usageRun_noThrows. exact H.
Qed.

Lemma free_count_cached_within_period_witness :
  (signedIn cachedState = Some "u1"%string /\ cachedFor cachedState 4 /\
   getFreeUsageCount cachedState = (Val 4, cachedState) /\
   cachedFor (after incrementUsage cachedState) (4 + 1)) /\
  (settled cachedState /\
   freeCountQueries (after (usageRun [OpCount; OpIncrement; OpCount]) cachedState)
   = freeCountQueries cachedState) /\
  (nextFault userState <> Throws /\
   exists n, cachedFor (after getFreeUsageCount userState) n /\
             result getFreeUsageCount userState = Val n) /\
  (cacheHit throwingState = false /\ nextFault throwingState = Throws /\
   cacheHit (after getFreeUsageCount throwingState) = false) /\
  (noThrows userState /\
   (freeCountQueries (after (usageRun [OpCount; OpIncrement; OpCount]) userState)
    <= freeCountQueries userState + 1)%nat).
Proof.
  assert (Hu : signedIn cachedState = Some "u1"%string) by reflexivity.
  assert (Hc : cachedFor cachedState 4) by (split; reflexivity).
  assert (Hs : settled cachedState) by reflexivity.
  assert (Hn : nextFault userState <> Throws) by (cbn; discriminate).
  assert (Hm : cacheHit throwingState = false) by reflexivity.
  assert (Ht : nextFault throwingState = Throws) by reflexivity.
  assert (Hq : noThrows userState) by constructor.
  destruct (free_count_cached_within_period cachedState) as (T1 & T2 & T3 & _).
  destruct (free_count_cached_within_period userState) as (_ & _ & _ & T4 & _ & T6).
  destruct (free_count_cached_within_period throwingState) as (_ & _ & _ & _ & T5 & _).
  split; [|split; [|split; [|split]]].
  - split; [exact Hu|]. split; [exact Hc|].
    split; [exact (T1 _ _ Hu Hc) | exact (proj1 (T2 _ Hc))].
  - split; [exact Hs|]. exact (proj2 (T3 Hs _)).
  - split; [exact Hn|]. exact (T4 "u1"%string eq_refl Hn).
  - split; [exact Hm|]. split; [exact Ht|].
    exact (proj1 (T5 "u1"%string eq_refl Hm Ht)).
  - split; [exact Hq|]. exact (T6 Hq _).
Defined.

(** C8 as stated fails: with a connection that throws twice, two reads by
    the signed-in user at one instant send two count queries. *)
Lemma free_count_queried_twice :
  currentUser throwingState = Some "u1"%string /\
  ~ atMostOneFreeCountQuery throwingState.
Proof.
  split; [reflexivity|]. intros H. specialize (H [OpCount; OpCount]).
  vm_compute in H. lia.
Qed.

(** ** The generation gate *)

Lemma incremented_usedView s :
  settled s ->
  usedView (set_localStorage
              (Stored (incrementedUsage (currentPeriod s) (getUsageData s)))
              (bumpCache s)) = usedView s + 1.
Proof.
  intros H. unfold usedView, settled in *.
  change (signedIn (set_localStorage ?d (bumpCache s))) with (signedIn (bumpCache s)).
  rewrite signedIn_bumpCache.
  destruct (signedIn s) as [uid|].
  - unfold cacheHit in H. unfold bumpCache.
    destruct (cachedCloudUsage s) as [n|] eqn:Hc; [|discriminate].
    cbn. reflexivity.
  - unfold localFreeCount.
    change (currentPeriod (set_localStorage ?d (bumpCache s)))
      with (currentPeriod (bumpCache s)).
    assert (Hp : currentPeriod (bumpCache s) = currentPeriod s).
    { unfold bumpCache. destruct (cachedCloudUsage s); reflexivity. }
    rewrite Hp. cbn [getUsageData localStorage set_localStorage].
    unfold incrementedUsage.
    destruct (samePeriod (u_period (getUsageData s)) (currentPeriod s)) eqn:E;
      cbn [u_period u_count].
    + rewrite E. reflexivity.
    + unfold samePeriod. rewrite String.eqb_refl. reflexivity.
Qed.

Lemma getRemaining_used s used :
  result getFreeUsageCount s = Val used ->
  getRemainingFreeGenerations s =
  (Val (Z.max 0 (getFreeLimit s - used)), after getFreeUsageCount s).
Proof. intros H. rewrite getRemaining_run, H. reflexivity. Qed.

Lemma canGenerate_run s used :
  result getFreeUsageCount s = Val used ->
  canGenerate s =
  (Val ((0 <? Z.max 0 (getFreeLimit s - used)) || (0 <? purchasedCredits s)),
   after getFreeUsageCount s).
Proof.
  intros H. unfold canGenerate.
  rewrite (bind_run _ _ _ _ _ (getRemaining_used s used H)).
  unfold bind, gets, ret.
  destruct (getFreeUsageCount_frames s) as (_ & _ & _ & Hp & _).
  rewrite Hp. reflexivity.
Qed.

Lemma getFreeLimit_sameLedgers s s' :
  sameLedgers s s' -> getFreeLimit s' = getFreeLimit s.
Proof. intros (_ & Hc & _). unfold getFreeLimit. rewrite Hc. reflexivity. Qed.

(** The free branch of [consumeGeneration], from a settled state. *)
Lemma consume_free s :
  settled s -> 0 < Z.max 0 (getFreeLimit s - usedView s) ->
  let s' := after consumeGeneration s in
  result consumeGeneration s = Val tt /\
  settled s' /\
  usedView s' = usedView s + 1 /\
  getFreeLimit s' = getFreeLimit s /\
  purchasedCredits s' = purchasedCredits s /\
  credits s' = credits s.
Proof.
  intros Hs Hr s'. subst s'.
  assert (E : consumeGeneration s =
              ((incrementUsage ;;; updateStats ;;; updateGenerateUsage) s)).
  { unfold consumeGeneration.
    rewrite (bind_run _ _ _ _ _ (settled_getRemaining s Hs)).
    unfold bind at 1, gets at 1.
    apply Z.ltb_lt in Hr. rewrite Hr. reflexivity. }
  unfold result, after. rewrite E.
  set (s1 := set_localStorage
               (Stored (incrementedUsage (currentPeriod s) (getUsageData s)))
               (bumpCache s)).
  assert (H1 : settled s1) by (apply incremented_settled; exact Hs).
  assert (Hi : incrementUsage s = (Val tt, statsState s1)).
  { rewrite incrementUsage_run. fold s1. rewrite (refresh_settled s1 H1). reflexivity. }
  rewrite (bind_run _ _ _ _ _ Hi).
  pose proof (statsState_quiet s1) as Q1.
  assert (H2 : settled (statsState s1)) by (apply (quietStep_settled _ _ Q1 H1)).
  change ((updateStats;;; updateGenerateUsage) (statsState s1)).1
    with (result (updateStats;;; updateGenerateUsage) (statsState s1)).
  change ((updateStats;;; updateGenerateUsage) (statsState s1)).2
    with (after (updateStats;;; updateGenerateUsage) (statsState s1)).
  rewrite (refresh_settled _ H2).
  pose proof (statsState_quiet (statsState s1)) as Q2.
  assert (Q : quietStep s1 (statsState (statsState s1)))
    by (etransitivity; eassumption).
  split.
  { destruct (refresh_total (statsState s1)) as [[] Ht]. exact Ht. }
  split; [apply (quietStep_settled _ _ Q H1)|].
  split; [rewrite (quietStep_usedView _ _ Q); apply incremented_usedView; exact Hs|].
  destruct Q as (L & _).
  split; [rewrite (getFreeLimit_sameLedgers _ _ L); subst s1;
          unfold getFreeLimit, bumpCache; destruct (cachedCloudUsage s); reflexivity|].
  destruct L as (_ & _ & _ & Hp & _ & Hc & _). rewrite Hp, Hc. subst s1.
  unfold bumpCache. destruct (cachedCloudUsage s); split; reflexivity.
Qed.

(** The credit branch of [consumeGeneration], from a settled state: the
    credit goes when the store accepts the update and stays when it does
    not; the free count is not touched. *)
Lemma consume_credit s uid :
  settled s -> Z.max 0 (getFreeLimit s - usedView s) = 0 ->
  0 < purchasedCredits s -> signedIn s = Some uid ->
  let s' := after consumeGeneration s in
  result consumeGeneration s = Val tt /\
  settled s' /\
  usedView s' = usedView s /\
  getFreeLimit s' = getFreeLimit s /\
  match nextFault s with
  | Answers =>
      purchasedCredits s' = purchasedCredits s - 1 /\
      credits s' =
        alter (debitedRow (purchasedCredits s - 1) (isoNow (clock s))) uid (credits s)
  | _ => purchasedCredits s' = purchasedCredits s /\ credits s' = credits s
  end.
Proof.
  intros Hs Hr Hp Hu s'. subst s'.
  pose proof (useCredit_run s uid Hu Hp) as Huse. cbv zeta in Huse.
  set (c := UpdateBalance uid (purchasedCredits s - 1)) in *.
  set (s2 := match nextFault s with
             | Answers =>
                 set_purchasedCredits (purchasedCredits s - 1)
                   (set_credits
                      (alter (debitedRow (purchasedCredits s - 1) (isoNow (clock s)))
                         uid (credits s)) (sent c s))
             | _ => sent c s
             end).
  set (s3 := set_localStorage
               (Stored {| u_count := u_count (getUsageData s2);
                          u_period := u_period (getUsageData s2);
                          u_total := Some (orZero (u_total (getUsageData s2)) + 1);
                          u_history := u_history (getUsageData s2) |}) s2).
  assert (E : consumeGeneration s = (updateStats ;;; updateGenerateUsage) s3).
  { unfold consumeGeneration.
    rewrite (bind_run _ _ _ _ _ (settled_getRemaining s Hs)).
    unfold bind at 1, gets at 1. rewrite Hr. cbn [Z.ltb Z.compare].
    apply Z.ltb_lt in Hp. rewrite Hp.
    unfold bind at 1. unfold bind at 1. rewrite Huse.
    subst s3 s2. destruct (nextFault s); reflexivity. }
  assert (Hsig : signedIn s3 = signedIn s /\ cacheHit s3 = cacheHit s /\
                 usedView s3 = usedView s /\ getFreeLimit s3 = getFreeLimit s).
  { subst s3 s2. destruct (nextFault s); repeat split; reflexivity. }
  destruct Hsig as (Hsig & Hhit & Hview & Hlim).
  assert (H3 : settled s3).
  { unfold settled in *. rewrite Hsig, Hhit. exact Hs. }
  unfold result, after. rewrite E.
  change ((updateStats;;; updateGenerateUsage) s3).1
    with (result (updateStats;;; updateGenerateUsage) s3).
  change ((updateStats;;; updateGenerateUsage) s3).2
    with (after (updateStats;;; updateGenerateUsage) s3).
  rewrite (refresh_settled _ H3).
  pose proof (statsState_quiet s3) as Q.
  split.
  { destruct (refresh_total s3) as [[] Ht]. exact Ht. }
  split; [apply (quietStep_settled _ _ Q H3)|].
  split; [rewrite (quietStep_usedView _ _ Q); exact Hview|].
  destruct Q as (L & _).
  split; [rewrite (getFreeLimit_sameLedgers _ _ L); exact Hlim|].
  destruct L as (_ & _ & _ & Hpc & _ & Hc & _). rewrite Hpc, Hc.
  subst s3 s2. destruct (nextFault s); cbn; split; reflexivity.
Qed.

(** C2, as the code has it.  In a state where [canGenerate] returns
    [true], the store answers every call and credits are held by a
    signed-in user only, [consumeGeneration] consumes exactly one unit:
    with free generations remaining it uses one of them (the remaining
    free generations go down by one, the used count up by one) and leaves
    the credits of the session and the stored rows alone; with none
    remaining it debits one credit, in the session and in the stored row,
    and the free count stays where it was. *)
Theorem consume_exactly_one (s : State) :
  reliable s -> credits_wf s -> result canGenerate s = Val true ->
  let s' := after consumeGeneration s in
  exists r used,
    result getRemainingFreeGenerations s = Val r /\
    result getFreeUsageCount s = Val used /\
    0 <= r /\
    result consumeGeneration s = Val tt /\
    (0 < r ->
     result getRemainingFreeGenerations s' = Val (r - 1) /\
     result getFreeUsageCount s' = Val (used + 1) /\
     purchasedCredits s' = purchasedCredits s /\
     credits s' = credits s) /\
    (r = 0 ->
     purchasedCredits s' = purchasedCredits s - 1 /\
     (exists uid,
        signedIn s = Some uid /\
        credits s' =
          alter (debitedRow (purchasedCredits s - 1) (isoNow (clock s))) uid
            (credits s)) /\
     result getRemainingFreeGenerations s' = Val 0 /\
     result getFreeUsageCount s' = Val used).
Proof.
  intros Hrel Hwf Hcan s'.
  destruct (getFreeUsageCount_facts s) as (L & Hk & _ & _ & _ & Hset).
  destruct (Hset (noThrows_next s (reliable_noThrows s Hrel))) as [Hs1 Hused].
  set (s1 := after getFreeUsageCount s) in *.
  set (used := usedView s1) in *.
  set (r := Z.max 0 (getFreeLimit s - used)).
  assert (Hrem : getRemainingFreeGenerations s = (Val r, s1))
    by apply (getRemaining_used s used Hused).
  assert (Hrel1 : reliable s1) by (apply (Forall_drop_script _ s); assumption).
  assert (Hlim1 : getFreeLimit s1 = getFreeLimit s)
    by apply (getFreeLimit_sameLedgers _ _ L).
  assert (Hp1 : purchasedCredits s1 = purchasedCredits s) by apply L.
  assert (Hc1 : credits s1 = credits s) by apply L.
  assert (Hclk : clock s1 = clock s) by apply L.
  (* the run of consumeGeneration from s continues as the one from s1 *)
  assert (Econs : consumeGeneration s = consumeGeneration s1).
  { unfold consumeGeneration.
    rewrite (bind_run _ _ _ _ _ Hrem).
    rewrite (bind_run _ _ _ _ _ (settled_getRemaining s1 Hs1)).
    rewrite Hlim1. reflexivity. }
  assert (Hafter : forall s2, settled s2 ->
            result getRemainingFreeGenerations s2 =
              Val (Z.max 0 (getFreeLimit s2 - usedView s2)) /\
            result getFreeUsageCount s2 = Val (usedView s2)).
  { intros s2 H2. unfold result.
    rewrite (settled_getRemaining s2 H2), (settled_getFreeUsageCount s2 H2).
    split; reflexivity. }
  exists r, used.
  split; [unfold result; rewrite Hrem; reflexivity|].
  split; [exact Hused|]. split; [subst r; lia|].
  subst s'. unfold result at 1, after. rewrite Econs.
  change (consumeGeneration s1).1 with (result consumeGeneration s1).
  change (consumeGeneration s1).2 with (after consumeGeneration s1).
  destruct (Z_lt_le_dec 0 r) as [Hpos|Hzero].
  - assert (Hpos1 : 0 < Z.max 0 (getFreeLimit s1 - usedView s1))
      by (rewrite Hlim1; exact Hpos).
    destruct (consume_free s1 Hs1 Hpos1) as (Hres & Hs' & Hv & Hl & Hp & Hc).
    split; [exact Hres|]. split; [|intros H0; lia].
    intros _. destruct (Hafter _ Hs') as [Ha Hb].
    rewrite Ha, Hb, Hv, Hl, Hlim1, Hp, Hc, Hp1, Hc1. fold used.
    repeat split; try reflexivity. f_equal. subst r. lia.
  - assert (Hr0 : r = 0) by (subst r; lia).
    assert (Hp : 0 < purchasedCredits s).
    { unfold result in Hcan. rewrite (canGenerate_run s used Hused) in Hcan.
      cbn [fst] in Hcan. fold r in Hcan.
      rewrite Hr0 in Hcan. cbn in Hcan. injection Hcan as Hcan.
      apply Z.ltb_lt. exact Hcan. }
    destruct (signedIn s) as [uid|] eqn:Hu; [|exfalso; apply (Hwf Hp); exact Hu].
    assert (Hu1 : signedIn s1 = Some uid)
      by (rewrite (signedIn_sameLedgers _ _ L); exact Hu).
    assert (Hr1 : Z.max 0 (getFreeLimit s1 - usedView s1) = 0)
      by (rewrite Hlim1; exact Hr0).
    assert (Hpp : 0 < purchasedCredits s1) by (rewrite Hp1; exact Hp).
    destruct (consume_credit s1 uid Hs1 Hr1 Hpp Hu1) as (Hres & Hs' & Hv & Hl & Hdeb).
    rewrite (reliable_next s1 Hrel1) in Hdeb. destruct Hdeb as [Hd1 Hd2].
    split; [exact Hres|]. split; [intros H0; lia|].
    intros _. destruct (Hafter _ Hs') as [Ha Hb].
    rewrite Ha, Hb, Hv, Hl, Hr1, Hd1, Hd2, Hp1, Hc1, Hclk.
    split; [reflexivity|]. split; [exists uid; split; reflexivity|].
    split; reflexivity.
Qed.

Lemma consume_exactly_one_witness :
  (reliable exhaustedState /\ credits_wf exhaustedState /\
   result canGenerate exhaustedState = Val true /\
   purchasedCredits (after consumeGeneration exhaustedState) = 3 - 1) /\
  (reliable freshState /\ credits_wf freshState /\
   result canGenerate freshState = Val true /\
   result getRemainingFreeGenerations (after consumeGeneration freshState)
   = Val (5 - 1)).
Proof.
  assert (R1 : reliable exhaustedState) by constructor.
  assert (W1 : credits_wf exhaustedState) by (intros _; discriminate).
  assert (C1 : result canGenerate exhaustedState = Val true) by (vm_compute; reflexivity).
  assert (R2 : reliable freshState) by constructor.
  assert (W2 : credits_wf freshState) by (intros H; vm_compute in H; discriminate).
  assert (C2 : result canGenerate freshState = Val true) by (vm_compute; reflexivity).
  split.
  - split; [exact R1|]. split; [exact W1|]. split; [exact C1|].
    destruct (consume_exactly_one exhaustedState R1 W1 C1)
      as (r & used & Hr & _ & _ & _ & _ & Hcredit).
    assert (H0 : r = 0) by (vm_compute in Hr; congruence).
    exact (proj1 (Hcredit H0)).
  - split; [exact R2|]. split; [exact W2|]. split; [exact C2|].
    destruct (consume_exactly_one freshState R2 W2 C2)
      as (r & used & Hr & _ & _ & _ & Hfree & _).
    assert (H5 : r = 5) by (vm_compute in Hr; congruence).
    subst r. apply Hfree. lia.
Defined.

(** C2 as stated fails: the user holds three credits, no free generation
    remains, [canGenerate] returns [true], and the store answers the
    update of the balance with an error.  [consumeGeneration] then leaves
    the three credits and the free count as they were: no unit is
    consumed. *)
Lemma consume_nothing_on_failed_debit :
  result canGenerate failedDebitState = Val true /\
  result getRemainingFreeGenerations failedDebitState = Val 0 /\
  purchasedCredits failedDebitState = 3 /\
  result consumeGeneration failedDebitState = Val tt /\
  result getRemainingFreeGenerations (after consumeGeneration failedDebitState)
  = Val 0 /\
  purchasedCredits (after consumeGeneration failedDebitState) = 3 /\
  ~ consumesExactlyOne failedDebitState.
Proof.
  repeat (split; [vm_compute; reflexivity|]).
  intros (r & r' & Hr & Hr' & H).
  vm_compute in Hr, Hr'. injection Hr as <-. injection Hr' as <-.
  assert (Hp : purchasedCredits (after consumeGeneration failedDebitState) = 3)
    by (vm_compute; reflexivity).
  rewrite Hp in H. cbn in H. destruct H as [[H _]|[_ H]]; lia.
Qed.

(** ** The period key *)

Example key_jan10 : getCooldownPeriodStart noonJan10 = "2025-01-11"%string.
Proof. reflexivity. Qed.

Example key_east_of_greenwich :
  getCooldownPeriodStart (mkClock 2025 (9 * MS_PER_DAY) 60) = "2025-01-10"%string.
Proof. reflexivity. Qed.

Lemma getCooldownPeriodStart_periodDay now :
  getCooldownPeriodStart now = isoDate (fst (periodDay now)) (snd (periodDay now)).
Proof.
  unfold getCooldownPeriodStart, periodDay, periodNumber.
  destruct (utcDayOfLocalMidnight _ _ _). reflexivity.
Qed.

Lemma digitChar_compare a b :
  0 <= a <= 9 -> 0 <= b <= 9 ->
  Ascii.compare (digitChar a) (digitChar b) = (a ?= b).
Proof.
  intros Ha Hb.
  assert (Ea : a = 0 \/ a = 1 \/ a = 2 \/ a = 3 \/ a = 4 \/ a = 5 \/ a = 6 \/
               a = 7 \/ a = 8 \/ a = 9) by lia.
  assert (Eb : b = 0 \/ b = 1 \/ b = 2 \/ b = 3 \/ b = 4 \/ b = 5 \/ b = 6 \/
               b = 7 \/ b = 8 \/ b = 9) by lia.
  repeat (destruct Ea as [->|Ea]); try subst a;
    repeat (destruct Eb as [->|Eb]); try subst b; reflexivity.
Qed.

Lemma append_String c s t :
  (String c s ++ t)%string = String c (s ++ t)%string.
Proof. reflexivity. Qed.

(** Numbers of [k] digits are ordered as their texts, whatever follows. *)
Lemma pad_compare k : forall a b s t,
  0 <= a < 10 ^ Z.of_nat k -> 0 <= b < 10 ^ Z.of_nat k ->
  String.compare (pad k a ++ s)%string (pad k b ++ t)%string =
  match a ?= b with
  | Eq => String.compare s t
  | c => c
  end.
Proof.
  induction k as [|k IH]; intros a b s t Ha Hb.
  - cbn in Ha, Hb. assert (a = 0) by lia. assert (b = 0) by lia. subst.
    reflexivity.
  - rewrite Nat2Z.inj_succ, Z.pow_succ_r in Ha, Hb by lia.
    set (P := 10 ^ Z.of_nat k) in *.
    assert (HP : 0 < P) by (subst P; apply Z.pow_pos_nonneg; lia).
    cbn [pad String.append String.compare]. fold P.
    pose proof (Z.div_mod a P ltac:(lia)) as Da.
    pose proof (Z.div_mod b P ltac:(lia)) as Db.
    pose proof (Z.mod_pos_bound a P HP) as Ra.
    pose proof (Z.mod_pos_bound b P HP) as Rb.
    assert (Qa : 0 <= a / P <= 9).
    { split; [apply Z.div_pos; lia|].
      assert (a / P < 10) by (apply Z.div_lt_upper_bound; lia). lia. }
    assert (Qb : 0 <= b / P <= 9).
    { split; [apply Z.div_pos; lia|].
      assert (b / P < 10) by (apply Z.div_lt_upper_bound; lia). lia. }
    rewrite !(Z.mod_small (_ / P) 10) by lia.
    rewrite !append_String. cbn [String.compare].
    rewrite digitChar_compare by assumption.
    rewrite (IH (a mod P) (b mod P) s t Ra Rb).
    destruct (Z.compare_spec (a / P) (b / P)) as [E|E|E].
    + destruct (Z.compare_spec (a mod P) (b mod P)) as [E'|E'|E'];
        destruct (Z.compare_spec a b) as [F|F|F]; try reflexivity; exfalso; nia.
    + destruct (Z.compare_spec a b) as [F|F|F]; try reflexivity; exfalso; nia.
    + destruct (Z.compare_spec a b) as [F|F|F]; try reflexivity; exfalso; nia.
Qed.

Lemma dash_compare s t :
  String.compare ("-" ++ s)%string ("-" ++ t)%string = String.compare s t.
Proof. reflexivity. Qed.

Lemma monthDayCheck_true leap : monthDayCheck leap = true.
Proof. destruct leap; vm_compute; reflexivity. Qed.

Lemma monthDay_facts (leap : bool) k :
  1 <= k <= (if leap then 366 else 365) ->
  let '(m, d) := monthDayFrom 1 k (monthLengths leap) in
  1 <= m <= 12 /\ 1 <= d <= 31 /\
  (k < (if leap then 366 else 365) ->
   monthDayCode leap k < monthDayCode leap (k + 1)).
Proof.
  intros Hk. pose proof (monthDayCheck_true leap) as H.
  unfold monthDayCheck in H. rewrite forallb_forall in H.
  specialize (H (Z.to_nat k)). rewrite Z2Nat.id in H by lia.
  assert (Hin : In (Z.to_nat k) (seq 1 (if leap then 366 else 365))).
  { apply in_seq. destruct leap; lia. }
  specialize (H Hin).
  destruct (monthDayFrom 1 k (monthLengths leap)) as [m d].
  rewrite !andb_true_iff, orb_true_iff in H.
  destruct H as ((((H1 & H2) & H3) & H4) & H5).
  apply Z.leb_le in H1, H2, H3, H4.
  split; [lia|]. split; [lia|]. intros Hlt.
  destruct H5 as [H5|H5]; [apply Z.eqb_eq in H5; lia | apply Z.ltb_lt in H5; exact H5].
Qed.

Lemma monthDayCode_mono (leap : bool) (n : nat) : forall k,
  1 <= k -> k + Z.of_nat (S n) <= (if leap then 366 else 365) ->
  monthDayCode leap k < monthDayCode leap (k + Z.of_nat (S n)).
Proof.
  induction n as [|n IH]; intros k H1 H2.
  - assert (Hk : 1 <= k <= (if leap then 366 else 365)) by lia.
    pose proof (monthDay_facts leap k Hk) as H.
    destruct (monthDayFrom 1 k (monthLengths leap)) as [m d].
    destruct H as (_ & _ & H). change (Z.of_nat 1) with 1. apply H. lia.
  - assert (Hk : 1 <= k + Z.of_nat (S n) <= (if leap then 366 else 365)) by lia.
    pose proof (monthDay_facts leap (k + Z.of_nat (S n)) Hk) as H.
    destruct (monthDayFrom 1 (k + Z.of_nat (S n)) (monthLengths leap)) as [m d].
    destruct H as (_ & _ & H).
    replace (k + Z.of_nat (S (S n))) with (k + Z.of_nat (S n) + 1) by lia.
    assert (H3 : k + Z.of_nat (S n) <= (if leap then 366 else 365)) by lia.
    assert (H4 : k + Z.of_nat (S n) < (if leap then 366 else 365)) by lia.
    specialize (IH k H1 H3). specialize (H H4). lia.
Qed.

Lemma string_append_empty s : (s ++ "")%string = s.
Proof. induction s as [|c s IH]; [reflexivity|]. rewrite append_String, IH. reflexivity. Qed.

Lemma isoYear_four y : 0 <= y <= 9999 -> isoYear y = pad 4 y.
Proof.
  intros H. unfold isoYear.
  destruct (Z.leb_spec 0 y); [|lia]. destruct (Z.leb_spec y 9999); [|lia].
  reflexivity.
Qed.

(** Valid dates are ordered as their ISO texts. *)
Lemma isoDate_lt y1 k1 y2 k2 :
  0 <= y1 <= 9999 -> 0 <= y2 <= 9999 ->
  1 <= k1 <= daysInYear y1 -> 1 <= k2 <= daysInYear y2 ->
  window_lt (y1, k1) (y2, k2) ->
  String.compare (isoDate y1 k1) (isoDate y2 k2) = Lt.
Proof.
  intros Hy1 Hy2 Hk1 Hk2 Hlt. unfold window_lt in Hlt. cbn [fst snd] in Hlt.
  unfold isoDate, daysInYear in *.
  pose proof (monthDay_facts (isLeap y1) k1 Hk1) as F1.
  pose proof (monthDay_facts (isLeap y2) k2 Hk2) as F2.
  assert (Hmono : y1 = y2 -> monthDayCode (isLeap y1) k1 < monthDayCode (isLeap y1) k2).
  { intros ->. destruct Hlt as [Hlt|[_ Hlt]]; [lia|].
    replace k2 with (k1 + Z.of_nat (S (Z.to_nat (k2 - k1 - 1)))) by lia.
    apply monthDayCode_mono; lia. }
  unfold monthDayCode in Hmono.
  destruct (monthDayFrom 1 k1 (monthLengths (isLeap y1))) as [m1 d1] eqn:E1.
  destruct (monthDayFrom 1 k2 (monthLengths (isLeap y2))) as [m2 d2] eqn:E2.
  destruct F1 as (Hm1 & Hd1 & _), F2 as (Hm2 & Hd2 & _).
  rewrite !isoYear_four by assumption.
  rewrite pad_compare by (cbn; lia).
  destruct (Z.compare_spec y1 y2) as [Ey|Ey|Ey]; [|reflexivity|lia].
  subst y2. specialize (Hmono eq_refl). rewrite E2 in Hmono.
  rewrite dash_compare, pad_compare by (cbn; lia).
  destruct (Z.compare_spec m1 m2) as [Em|Em|Em]; [|reflexivity|lia].
  subst m2. rewrite dash_compare.
  rewrite <- (string_append_empty (pad 2 d1)), <- (string_append_empty (pad 2 d2)).
  rewrite pad_compare by (cbn; lia).
  destruct (Z.compare_spec d1 d2) as [Ed|Ed|Ed]; [lia|reflexivity|lia].
Qed.

Lemma MS_PER_DAY_eq : MS_PER_DAY = 86400000.
Proof. reflexivity. Qed.

Lemma periodNumber_window now p :
  periodNumber now = p <->
  (2 * p - 1) * MS_PER_DAY <= msIntoYear now < (2 * p + 1) * MS_PER_DAY.
Proof.
  unfold periodNumber, dayOfYear, COOLDOWN_DAYS. rewrite MS_PER_DAY_eq.
  rewrite Z.div_div by lia. change (86400000 * 2) with 172800000.
  split.
  - intros <-.
    pose proof (Z.div_mod (msIntoYear now + 86400000) 172800000 ltac:(lia)).
    pose proof (Z.mod_pos_bound (msIntoYear now + 86400000) 172800000 ltac:(lia)).
    lia.
  - intros H. symmetry.
    apply (Z.div_unique _ _ _ (msIntoYear now + 86400000 - 172800000 * p)); lia.
Qed.

Lemma periodNumber_range now :
  clock_ok now ->
  0 <= periodNumber now /\ 2 * periodNumber now <= daysInYear (fullYear now).
Proof.
  intros [_ Hms].
  pose proof (proj1 (periodNumber_window now (periodNumber now)) eq_refl) as H.
  rewrite MS_PER_DAY_eq in *.
  assert (0 < daysInYear (fullYear now)) by (unfold daysInYear; destruct isLeap; lia).
  split; nia.
Qed.

Lemma daysInYear_range y : 365 <= daysInYear y <= 366.
Proof. unfold daysInYear. destruct (isLeap y); lia. Qed.

Lemma daysInYear_leap y : daysInYear y = 366 -> isLeap y = true.
Proof. unfold daysInYear. destruct (isLeap y); [reflexivity|lia]. Qed.

Ltac split_tests :=
  repeat match goal with
         | |- context [?a <? ?b] => destruct (Z.ltb_spec a b)
         end;
  cbn [fst snd].

(** The UTC day of the key is the local day of the window's first
    midnight, or the day before where the host is east of Greenwich. *)
Lemma utcDay_normDay (tz : Z -> Z -> Z) y p :
  0 <= p -> 2 * p <= daysInYear y ->
  let n := normDay y (p * 2 + 1) in
  let e := if 0 <? tz (fst n) (snd n) then 1 else 0 in
  utcDayOfLocalMidnight tz y (p * 2 + 1) = normDay y (p * 2 + 1 - e).
Proof.
  intros Hp Hl. cbv zeta. unfold utcDayOfLocalMidnight.
  pose proof (daysInYear_range y) as R.
  destruct (normDay y (p * 2 + 1)) as [y' k'] eqn:E. cbn [fst snd].
  destruct (0 <? tz y' k'); [|rewrite Z.sub_0_r; symmetry; exact E].
  unfold normDay in E.
  destruct (Z.ltb_spec (p * 2 + 1) 1); [lia|].
  destruct (Z.ltb_spec (daysInYear y) (p * 2 + 1)); injection E as <- <-.
  - replace (p * 2 + 1 - daysInYear y - 1) with 0 by lia.
    unfold normDay. cbn [Z.ltb Z.compare].
    replace (y + 1 - 1) with y by lia.
    destruct (Z.ltb_spec (p * 2 + 1 - 1) 1); [lia|].
    destruct (Z.ltb_spec (daysInYear y) (p * 2 + 1 - 1)); [lia|].
    f_equal. lia.
  - reflexivity.
Qed.

(** The days of the period keys follow the windows.  They coincide at
    the turn of a leap year, and at the turn of a common year when the
    earlier key is not put back by a day and the later one is. *)
Lemma keyDay_order y1 y2 p1 p2 e1 e2 :
  0 <= p1 -> 2 * p1 <= daysInYear y1 ->
  0 <= p2 -> 2 * p2 <= daysInYear y2 ->
  0 <= e1 <= 1 -> 0 <= e2 <= 1 ->
  (daysInYear y1 = 366 -> p1 = 183 -> y2 = y1 + 1 -> p2 = 0 -> e1 = e2) ->
  window_lt (y1, p1) (y2, p2) ->
  let d1 := normDay y1 (p1 * 2 + 1 - e1) in
  let d2 := normDay y2 (p2 * 2 + 1 - e2) in
  window_lt d1 d2 \/
  (d1 = d2 /\ isLeap y1 = true /\ p1 = 183 /\ y2 = y1 + 1 /\ p2 = 0) \/
  (d1 = d2 /\ isLeap y1 = false /\ p1 = 182 /\ y2 = y1 + 1 /\ p2 = 0 /\
   e1 = 0 /\ e2 = 1).
Proof.
  intros Hp1 Hl1 Hp2 Hl2 He1 He2 Hturn Hlt d1 d2.
  unfold window_lt in Hlt. cbn [fst snd] in Hlt.
  assert (Harith :
    window_lt d1 d2 \/
    (fst d1 = fst d2 /\ snd d1 = snd d2 /\
     daysInYear y1 = 366 /\ p1 = 183 /\ y2 = y1 + 1 /\ p2 = 0) \/
    (fst d1 = fst d2 /\ snd d1 = snd d2 /\
     daysInYear y1 = 365 /\ p1 = 182 /\ y2 = y1 + 1 /\ p2 = 0 /\
     e1 = 0 /\ e2 = 1)).
  { subst d1 d2. unfold normDay, window_lt.
    pose proof (daysInYear_range y1) as R1.
    pose proof (daysInYear_range (y1 - 1)) as R1'.
    pose proof (daysInYear_range y2) as R2.
    pose proof (daysInYear_range (y2 - 1)) as R2'.
    assert (Hprev : y2 = y1 + 1 -> daysInYear (y2 - 1) = daysInYear y1)
      by (intros ->; f_equal; lia).
    assert (Hsame : y2 = y1 -> daysInYear y2 = daysInYear y1 /\
                               daysInYear (y2 - 1) = daysInYear (y1 - 1))
      by (intros ->; split; reflexivity).
    generalize dependent (daysInYear y1). intros L1.
    generalize dependent (daysInYear (y1 - 1)). intros L1'.
    generalize dependent (daysInYear y2). intros L2.
    generalize dependent (daysInYear (y2 - 1)). intros L2'.
    intros. split_tests; lia. }
  destruct Harith as [H|[(Hf & Hs & Hl & Hrest)|(Hf & Hs & Hl & Hrest)]];
    [left; exact H| |]; right; [left|right];
    (split; [destruct d1, d2; cbn [fst snd] in *; congruence|]).
  - split; [apply daysInYear_leap; exact Hl | exact Hrest].
  - split; [|exact Hrest].
    unfold daysInYear in Hl. destruct (isLeap y1); [lia|reflexivity].
Qed.

Lemma keyDay_valid y p e :
  1 <= y <= 9998 -> 0 <= p -> 2 * p <= daysInYear y -> 0 <= e <= 1 ->
  let d := normDay y (p * 2 + 1 - e) in
  0 <= fst d <= 9999 /\ 1 <= snd d <= daysInYear (fst d).
Proof.
  intros Hy Hp Hl He d. subst d. unfold normDay.
  pose proof (daysInYear_range y) as R.
  pose proof (daysInYear_range (y - 1)) as R'.
  pose proof (daysInYear_range (y + 1)) as R''.
  split_tests; lia.
Qed.

(** The local day of the first midnight of the last window of a year. *)
Lemma normDay_last y p :
  2 * p = daysInYear y \/ 2 * p + 1 = daysInYear y ->
  normDay y (p * 2 + 1) =
  if 2 * p =? daysInYear y then (y + 1, 1) else (y, daysInYear y).
Proof.
  intros H. unfold normDay. pose proof (daysInYear_range y) as R.
  destruct (Z.ltb_spec (p * 2 + 1) 1); [lia|].
  destruct (Z.eqb_spec (2 * p) (daysInYear y)) as [E|E];
    destruct (Z.ltb_spec (daysInYear y) (p * 2 + 1)); try lia; f_equal; lia.
Qed.

Lemma normDay_first y : normDay y (0 * 2 + 1) = (y, 1).
Proof.
  unfold normDay. pose proof (daysInYear_range y) as R.
  change (0 * 2 + 1) with 1.
  destruct (Z.ltb_spec 1 1); [lia|].
  destruct (Z.ltb_spec (daysInYear y) 1); [lia|reflexivity].
Qed.

Lemma string_compare_refl s : String.compare s s = Eq.
Proof.
  pose proof (String.compare_antisym s s) as H.
  destruct (String.compare s s); [reflexivity| |]; discriminate.
Qed.

(** C5, as the code has it.  Readings of one host in one window (same
    year, same period number, that is, between the same two odd-numbered
    midnights of the year) have the same period key, whatever clock
    changes the host makes.  The key of a reading in a later window is
    never smaller, and it is strictly greater except at the turn of a
    year: the last window of a leap year and the first window of the
    next year always carry the same key, and so do the last window of a
    common year and the first of the next on a host that is not east of
    Greenwich at the midnight of 31 December and east of it at the
    midnight of 1 January. *)
Theorem period_key_stable_and_ordered (now1 now2 : Clock) :
  clock_ok now1 -> clock_ok now2 -> sameHost now1 now2 ->
  (window now1 = window now2 ->
   getCooldownPeriodStart now1 = getCooldownPeriodStart now2) /\
  (forall p, fullYear now1 = fullYear now2 ->
   (2 * p - 1) * MS_PER_DAY <= msIntoYear now1 < (2 * p + 1) * MS_PER_DAY ->
   (2 * p - 1) * MS_PER_DAY <= msIntoYear now2 < (2 * p + 1) * MS_PER_DAY ->
   getCooldownPeriodStart now1 = getCooldownPeriodStart now2) /\
  (window_lt (window now1) (window now2) ->
   String.leb (getCooldownPeriodStart now1) (getCooldownPeriodStart now2) = true /\
   (leapYearTurn now1 now2 \/ eastwardTurn now1 now2 ->
    getCooldownPeriodStart now1 = getCooldownPeriodStart now2) /\
   (~ leapYearTurn now1 now2 -> ~ eastwardTurn now1 now2 ->
    String.ltb (getCooldownPeriodStart now1) (getCooldownPeriodStart now2) = true)).
Proof.
  intros Hok1 Hok2 Htz. unfold sameHost in Htz.
  assert (Hsame : fullYear now1 = fullYear now2 ->
                  periodNumber now1 = periodNumber now2 ->
                  getCooldownPeriodStart now1 = getCooldownPeriodStart now2).
  { intros Hy Hp. rewrite !getCooldownPeriodStart_periodDay. unfold periodDay.
    rewrite Hy, Hp, Htz. reflexivity. }
  split.
  { unfold window. intros [= Hy Hp]. apply Hsame; assumption. }
  split.
  { intros p Hy H1 H2. apply Hsame; [exact Hy|].
    apply periodNumber_window in H1, H2. congruence. }
  intros Hlt.
  destruct (periodNumber_range now1 Hok1) as [Hp1 Hl1].
  destruct (periodNumber_range now2 Hok2) as [Hp2 Hl2].
  destruct Hok1 as [Hy1 _], Hok2 as [Hy2 _].
  set (tz := tzEastAt now2) in *.
  set (y1 := fullYear now1) in *. set (y2 := fullYear now2) in *.
  set (p1 := periodNumber now1) in *. set (p2 := periodNumber now2) in *.
  pose proof (utcDay_normDay tz y1 p1 Hp1 Hl1) as U1.
  pose proof (utcDay_normDay tz y2 p2 Hp2 Hl2) as U2.
  cbv zeta in U1, U2.
  set (n1 := normDay y1 (p1 * 2 + 1)) in *.
  set (n2 := normDay y2 (p2 * 2 + 1)) in *.
  set (e1 := if 0 <? tz (fst n1) (snd n1) then 1 else 0) in *.
  set (e2 := if 0 <? tz (fst n2) (snd n2) then 1 else 0) in *.
  assert (He1 : 0 <= e1 <= 1)
    by (unfold e1; destruct (0 <? tz (fst n1) (snd n1)); lia).
  assert (He2 : 0 <= e2 <= 1)
    by (unfold e2; destruct (0 <? tz (fst n2) (snd n2)); lia).
  assert (Hleap : daysInYear y1 = 366 -> p1 = 183 -> y2 = y1 + 1 -> p2 = 0 ->
                  n1 = n2).
  { intros Hd Hq1 Hq2 Hq3. subst n1 n2.
    rewrite (normDay_last y1 p1) by lia. rewrite Hq3, normDay_first.
    destruct (Z.eqb_spec (2 * p1) (daysInYear y1)); [|lia].
    rewrite Hq2. reflexivity. }
  assert (Hturn : daysInYear y1 = 366 -> p1 = 183 -> y2 = y1 + 1 -> p2 = 0 ->
                  e1 = e2).
  { intros Hd Hq1 Hq2 Hq3. subst e1 e2. rewrite (Hleap Hd Hq1 Hq2 Hq3).
    reflexivity. }
  pose proof (keyDay_order y1 y2 p1 p2 e1 e2 Hp1 Hl1 Hp2 Hl2 He1 He2 Hturn Hlt)
    as Hord.
  pose proof (keyDay_valid y1 p1 e1 Hy1 Hp1 Hl1 He1) as V1.
  pose proof (keyDay_valid y2 p2 e2 Hy2 Hp2 Hl2 He2) as V2.
  cbv zeta in Hord, V1, V2.
  assert (K1 : getCooldownPeriodStart now1 =
               isoDate (fst (normDay y1 (p1 * 2 + 1 - e1)))
                       (snd (normDay y1 (p1 * 2 + 1 - e1)))).
  { rewrite getCooldownPeriodStart_periodDay. unfold periodDay.
    change COOLDOWN_DAYS with 2. rewrite Htz. fold tz y1 p1.
    rewrite U1. reflexivity. }
  assert (K2 : getCooldownPeriodStart now2 =
               isoDate (fst (normDay y2 (p2 * 2 + 1 - e2)))
                       (snd (normDay y2 (p2 * 2 + 1 - e2)))).
  { rewrite getCooldownPeriodStart_periodDay. unfold periodDay.
    change COOLDOWN_DAYS with 2. fold tz y2 p2.
    rewrite U2. reflexivity. }
  rewrite K1, K2.
  set (d1 := normDay y1 (p1 * 2 + 1 - e1)) in *.
  set (d2 := normDay y2 (p2 * 2 + 1 - e2)) in *.
  (* what the two exceptional turns say about the days *)
  assert (Hl_turn : leapYearTurn now1 now2 ->
                    isLeap y1 = true /\ p1 = 183 /\ y2 = y1 + 1 /\ p2 = 0)
    by (intros H; exact H).
  assert (He_turn : eastwardTurn now1 now2 ->
                    isLeap y1 = false /\ p1 = 182 /\ y2 = y1 + 1 /\ p2 = 0 /\
                    e1 = 0 /\ e2 = 1).
  { intros (Hn & Hq1 & Hq2 & Hq3 & Hw & He).
    fold y1 in Hn, Hq2, Hw. fold p1 in Hq1. fold y2 in Hq2, He. fold p2 in Hq3.
    rewrite Htz in Hw. fold tz in Hw, He.
    assert (Hd : daysInYear y1 = 365) by (unfold daysInYear; rewrite Hn; reflexivity).
    repeat split; try assumption.
    - subst e1 n1. rewrite (normDay_last y1 p1) by lia.
      destruct (Z.eqb_spec (2 * p1) (daysInYear y1)); [lia|].
      cbn [fst snd]. rewrite Hd.
      destruct (Z.ltb_spec 0 (tz y1 365)); [lia|reflexivity].
    - subst e2 n2. rewrite Hq3, normDay_first. cbn [fst snd].
      destruct (Z.ltb_spec 0 (tz y2 1)); [reflexivity|lia]. }
  assert (He_back : isLeap y1 = false -> p1 = 182 -> y2 = y1 + 1 -> p2 = 0 ->
                    e1 = 0 -> e2 = 1 -> eastwardTurn now1 now2).
  { intros Hn Hq1 Hq2 Hq3 Ha Hb.
    assert (Hd : daysInYear y1 = 365) by (unfold daysInYear; rewrite Hn; reflexivity).
    unfold eastwardTurn. fold y1 y2 p1 p2. rewrite Htz. fold tz.
    repeat split; try assumption.
    - subst e1 n1. rewrite (normDay_last y1 p1) in Ha by lia.
      destruct (Z.eqb_spec (2 * p1) (daysInYear y1)); [lia|].
      cbn [fst snd] in Ha. rewrite Hd in Ha.
      destruct (Z.ltb_spec 0 (tz y1 365)); [discriminate|lia].
    - subst e2 n2. rewrite Hq3, normDay_first in Hb. cbn [fst snd] in Hb.
      destruct (Z.ltb_spec 0 (tz y2 1)); [assumption|discriminate]. }
  unfold String.leb, String.ltb.
  destruct Hord as [Hd|[(Hd & Ht)|(Hd & Ht)]].
  - assert (Hc : String.compare (isoDate (fst d1) (snd d1)) (isoDate (fst d2) (snd d2)) = Lt).
    { apply isoDate_lt; try tauto; destruct d1, d2; exact Hd. }
    rewrite Hc. split; [reflexivity|].
    split; [|reflexivity].
    intros [H|H]; exfalso.
    + destruct (Hl_turn H) as (Hq0 & Hq1 & Hq2 & Hq3).
      assert (Hdd : daysInYear y1 = 366) by (unfold daysInYear; rewrite Hq0; reflexivity).
      assert (En : n1 = n2) by (apply Hleap; assumption).
      assert (Ee : e1 = e2) by (apply Hturn; assumption).
      assert (Ed : d1 = d2).
      { subst d1 d2. rewrite <- U1, <- U2. unfold utcDayOfLocalMidnight.
        fold n1 n2. rewrite En. reflexivity. }
      rewrite Ed in Hd. unfold window_lt in Hd. lia.
    + destruct (He_turn H) as (Hq0 & Hq1 & Hq2 & Hq3 & Ha & Hb).
      assert (Hdd : daysInYear y1 = 365) by (unfold daysInYear; rewrite Hq0; reflexivity).
      assert (Ed : d1 = d2).
      { subst d1 d2. rewrite Ha, Hb, Hq1, Hq3, Hq2. unfold normDay.
        replace (y1 + 1 - 1) with y1 by lia. rewrite Hdd. reflexivity. }
      rewrite Ed in Hd. unfold window_lt in Hd. lia.
  - rewrite Hd, string_compare_refl. split; [reflexivity|].
    split; [reflexivity|]. intros Hn _. exfalso. apply Hn. exact Ht.
  - rewrite Hd, string_compare_refl. split; [reflexivity|].
    split; [reflexivity|]. intros _ Hn. exfalso. apply Hn.
    destruct Ht as (Hq0 & Hq1 & Hq2 & Hq3 & Ha & Hb).
    apply He_back; assumption.
Qed.

Lemma clock_ok_dec31_2024 : clock_ok dec31_2024.
Proof. unfold clock_ok. cbn [fullYear msIntoYear dec31_2024 mkClock]. vm_compute. repeat split; congruence. Qed.

Lemma clock_ok_jan1_2025 : clock_ok jan1_2025.
Proof. unfold clock_ok. cbn [fullYear msIntoYear jan1_2025 mkClock]. vm_compute. repeat split; congruence. Qed.

Lemma clock_ok_noonJan10 : clock_ok noonJan10.
Proof. unfold clock_ok. vm_compute. repeat split; congruence. Qed.

Lemma clock_ok_london : clock_ok londonOct26Early /\ clock_ok londonOct26Noon.
Proof. unfold clock_ok. vm_compute. repeat split; congruence. Qed.

Lemma clock_ok_crossing : clock_ok crossingDec31 /\ clock_ok crossingJan1.
Proof. unfold clock_ok. vm_compute. repeat split; congruence. Qed.

(** On a London host, half past midnight of 26 October 2025 in summer
    time and noon of the same day after the clocks went back lie in one
    window and have the key of the evening before in UTC. *)
Example key_across_a_clock_change :
  window londonOct26Early = window londonOct26Noon /\
  getCooldownPeriodStart londonOct26Early = "2025-10-25"%string /\
  getCooldownPeriodStart londonOct26Noon = "2025-10-25"%string.
Proof. vm_compute. repeat split; reflexivity. Qed.

Lemma period_key_stable_and_ordered_witness :
  (clock_ok noonJan10 /\ clock_ok jan1_2025 /\
   sameHost jan1_2025 noonJan10 /\
   window_lt (window jan1_2025) (window noonJan10) /\
   ~ leapYearTurn jan1_2025 noonJan10 /\ ~ eastwardTurn jan1_2025 noonJan10 /\
   String.ltb (getCooldownPeriodStart jan1_2025) (getCooldownPeriodStart noonJan10)
   = true) /\
  (clock_ok dec31_2024 /\ leapYearTurn dec31_2024 jan1_2025 /\
   window_lt (window dec31_2024) (window jan1_2025) /\
   getCooldownPeriodStart dec31_2024 = getCooldownPeriodStart jan1_2025) /\
  (sameHost londonOct26Early londonOct26Noon /\
   window londonOct26Early = window londonOct26Noon /\
   getCooldownPeriodStart londonOct26Early =
   getCooldownPeriodStart londonOct26Noon) /\
  (sameHost crossingDec31 crossingJan1 /\
   window_lt (window crossingDec31) (window crossingJan1) /\
   eastwardTurn crossingDec31 crossingJan1 /\
   getCooldownPeriodStart crossingDec31 = getCooldownPeriodStart crossingJan1).
Proof.
  assert (Htz : sameHost jan1_2025 noonJan10) by reflexivity.
  assert (Hlt : window_lt (window jan1_2025) (window noonJan10))
    by (right; vm_compute; split; reflexivity).
  assert (Hn : ~ leapYearTurn jan1_2025 noonJan10)
    by (intros (H & _); vm_compute in H; discriminate).
  assert (Hn' : ~ eastwardTurn jan1_2025 noonJan10)
    by (intros (_ & H & _); vm_compute in H; discriminate).
  assert (Ht : leapYearTurn dec31_2024 jan1_2025)
    by (vm_compute; repeat split; reflexivity).
  assert (Hlt' : window_lt (window dec31_2024) (window jan1_2025))
    by (left; vm_compute; reflexivity).
  assert (Hw : window londonOct26Early = window londonOct26Noon)
    by (vm_compute; reflexivity).
  assert (Hc : eastwardTurn crossingDec31 crossingJan1)
    by (vm_compute; repeat split; congruence).
  assert (Hlt'' : window_lt (window crossingDec31) (window crossingJan1))
    by (left; vm_compute; reflexivity).
  split; [|split; [|split]].
  - split; [exact clock_ok_noonJan10|]. split; [exact clock_ok_jan1_2025|].
    split; [exact Htz|]. split; [exact Hlt|]. split; [exact Hn|].
    split; [exact Hn'|].
    destruct (period_key_stable_and_ordered jan1_2025 noonJan10
                clock_ok_jan1_2025 clock_ok_noonJan10 Htz) as (_ & _ & H).
    exact (proj2 (proj2 (H Hlt)) Hn Hn').
  - split; [exact clock_ok_dec31_2024|]. split; [exact Ht|]. split; [exact Hlt'|].
    destruct (period_key_stable_and_ordered dec31_2024 jan1_2025
                clock_ok_dec31_2024 clock_ok_jan1_2025 eq_refl) as (_ & _ & H).
    exact (proj1 (proj2 (H Hlt')) (or_introl Ht)).
  - split; [reflexivity|]. split; [exact Hw|].
    destruct (period_key_stable_and_ordered londonOct26Early londonOct26Noon
                (proj1 clock_ok_london) (proj2 clock_ok_london) eq_refl) as (H & _).
    exact (H Hw).
  - split; [reflexivity|]. split; [exact Hlt''|]. split; [exact Hc|].
    destruct (period_key_stable_and_ordered crossingDec31 crossingJan1
                (proj1 clock_ok_crossing) (proj2 clock_ok_crossing) eq_refl)
      as (_ & _ & H).
    exact (proj1 (proj2 (H Hlt'')) (or_intror Hc)).
Defined.

(** C5 as stated fails: 31 December 2024 lies in the last window of the
    leap year 2024 and 1 January 2025 in the first window of 2025, a
    later window, and both have the key ["2025-01-01"]. *)
Lemma period_key_repeats_at_leap_year_turn :
  clock_ok dec31_2024 /\ clock_ok jan1_2025 /\
  window_lt (window dec31_2024) (window jan1_2025) /\
  getCooldownPeriodStart dec31_2024 = "2025-01-01"%string /\
  getCooldownPeriodStart jan1_2025 = "2025-01-01"%string /\
  ~ keysStrictlyIncrease dec31_2024 jan1_2025.
Proof.
  split; [exact clock_ok_dec31_2024|]. split; [exact clock_ok_jan1_2025|].
  assert (Hlt : window_lt (window dec31_2024) (window jan1_2025))
    by (left; vm_compute; reflexivity).
  split; [exact Hlt|]. split; [reflexivity|]. split; [reflexivity|].
  intros H. specialize (H Hlt). vm_compute in H. discriminate.
Qed.

(** ** The scenarios of the specification *)

(** Scenario A: an anonymous visitor on a fresh page may generate five
    times; after the fifth consumption the gate is closed. *)
Example scenario_anonymous_quota :
  result canGenerate freshState = Val true /\
  result canGenerate
    (after (consumeGeneration ;;; consumeGeneration ;;; consumeGeneration ;;;
            consumeGeneration ;;; consumeGeneration) freshState) = Val false.
Proof. vm_compute. split; reflexivity. Qed.

(** Scenario B: with three credits and no free generation left, a
    consumption leaves two credits and no free generation. *)
Example scenario_credit_debit :
  purchasedCredits (after consumeGeneration exhaustedState) = 2 /\
  balance <$> credits (after consumeGeneration exhaustedState) !! "u1"%string = Some 2 /\
  result getRemainingFreeGenerations (after consumeGeneration exhaustedState) = Val 0.
Proof. vm_compute. repeat split; reflexivity. Qed.

(** Scenario C: seven local entries and an empty store: the migration of
    the newly signed-in user stores seven rows and keeps the local
    record. *)
Example scenario_migration :
  length (generations (after migrateLocalHistoryToCloud sevenEntriesState)) = 7%nat /\
  map match_name (generations (after migrateLocalHistoryToCloud sevenEntriesState)) =
    map h_matchName (historyOf (getUsageData sevenEntriesState)) /\
  localStorage (after migrateLocalHistoryToCloud sevenEntriesState) =
    localStorage sevenEntriesState.
Proof. vm_compute. repeat split; reflexivity. Qed.

(** Scenario D: a record of five generations in an earlier period is
    written back with a free count of one under the current key. *)
Example scenario_period_boundary :
  getUsageData (after incrementUsage staleState) =
  {| u_count := Some 1; u_period := Some "2025-01-11"%string;
     u_total := Some 13; u_history := None |}.
Proof. vm_compute. reflexivity. Qed.

(** Scenario E: adding 25 credits without a signed-in user fails and
    changes nothing. *)
Example scenario_anonymous_add :
  addCredits 25 freshState = (Val false, freshState).
Proof. reflexivity. Qed.

(** ** What every function of the page leaves alone *)

#[export] Instance steady_refl : Reflexive steady.
Proof.
  intros s. unfold steady. repeat split; try reflexivity.
  exists 0%nat. reflexivity.
Qed.

#[export] Instance steady_trans : Transitive steady.
Proof.
  intros a b c (C1 & U1 & S1 & E1 & B1 & k1 & K1) (C2 & U2 & S2 & E2 & B2 & k2 & K2).
  unfold steady. repeat split; try congruence.
  exists (k1 + k2)%nat. rewrite K2, K1, drop_drop. reflexivity.
Qed.

Lemma frames_modify R (f : State -> State) :
  (forall s, R s (f s)) -> frames R (modify f).
Proof. intros H s. apply H. Qed.

Lemma steady_fields s s' :
  clock s' = clock s -> currentUser s' = currentUser s ->
  supabaseClient s' = supabaseClient s -> hasUsageEl s' = hasUsageEl s ->
  hasBuyBtn s' = hasBuyBtn s -> script s' = script s -> steady s s'.
Proof.
  intros. unfold steady. repeat split; try assumption.
  exists 0%nat. assumption.
Qed.

Lemma roundTrip_steady c : frames steady (roundTrip c).
Proof.
  intros s. unfold after. rewrite roundTrip_run. cbn [snd].
  unfold steady, sent. cbn. repeat split.
  exists 1%nat. destruct (script s); reflexivity.
Qed.

#[export] Hint Resolve roundTrip_steady : js.

Ltac steady_leaf :=
  intros ?; apply steady_fields;
  first [ reflexivity
        | unfold bumpCache;
          match goal with |- context [cachedCloudUsage ?s] =>
            destruct (cachedCloudUsage s) end; reflexivity ].

Ltac steady_tac :=
  repeat first
    [ assumption
    | solve [auto 2 with js nocore]
    | apply frames_bind; [typeclasses eauto | | intros ?]
    | apply frames_tryCatch; [typeclasses eauto | | ]
    | apply frames_ret; typeclasses eauto
    | apply frames_gets; typeclasses eauto
    | apply frames_modify; steady_leaf
    | match goal with |- frames _ (if ?b then _ else _) => destruct b end
    | match goal with |- frames _ (match ?b with _ => _ end) => destruct b end ].

Lemma selectBalance_steady uid : frames steady (selectBalance uid).
Proof. unfold selectBalance. steady_tac. Qed.

Lemma upsertCredits_steady uid row : frames steady (upsertCredits uid row).
Proof. unfold upsertCredits. steady_tac. Qed.

Lemma updateBalance_steady uid bal stamp : frames steady (updateBalance uid bal stamp).
Proof. unfold updateBalance. steady_tac. Qed.

Lemma countSince_steady uid t : frames steady (countSince uid t).
Proof. unfold countSince. steady_tac. Qed.

Lemma countAll_steady uid : frames steady (countAll uid).
Proof. unfold countAll. steady_tac. Qed.

Lemma selectExisting_steady uid : frames steady (selectExisting uid).
Proof. unfold selectExisting. steady_tac. Qed.

Lemma insertGeneration_steady row : frames steady (insertGeneration row).
Proof. unfold insertGeneration. steady_tac. Qed.

#[export] Hint Resolve selectBalance_steady upsertCredits_steady
  updateBalance_steady countSince_steady countAll_steady
  selectExisting_steady insertGeneration_steady : js.

Lemma getFreeUsageCount_steady : frames steady getFreeUsageCount.
Proof.
  unfold getFreeUsageCount, cloudFreeCount, refreshCloudCount. steady_tac.
Qed.

#[export] Hint Resolve getFreeUsageCount_steady : js.

Lemma getRemainingFreeGenerations_steady : frames steady getRemainingFreeGenerations.
Proof. unfold getRemainingFreeGenerations. steady_tac. Qed.

#[export] Hint Resolve getRemainingFreeGenerations_steady : js.

Lemma canGenerate_steady : frames steady canGenerate.
Proof. unfold canGenerate. steady_tac. Qed.

Lemma updateStats_steady : frames steady updateStats.
Proof. unfold updateStats. steady_tac. Qed.

Lemma updateGenerateUsage_steady : frames steady updateGenerateUsage.
Proof. unfold updateGenerateUsage. steady_tac. Qed.

#[export] Hint Resolve canGenerate_steady updateStats_steady
  updateGenerateUsage_steady : js.

Lemma incrementUsage_steady : frames steady incrementUsage.
Proof. unfold incrementUsage, saveUsageData. steady_tac. Qed.

Lemma loadCredits_steady : frames steady loadCredits.
Proof. unfold loadCredits. steady_tac. Qed.

Lemma addCredits_steady amount : frames steady (addCredits amount).
Proof. unfold addCredits. steady_tac. Qed.

Lemma useCredit_steady : frames steady useCredit.
Proof. unfold useCredit. steady_tac. Qed.

#[export] Hint Resolve incrementUsage_steady loadCredits_steady
  addCredits_steady useCredit_steady : js.

Lemma consumeGeneration_steady : frames steady consumeGeneration.
Proof. unfold consumeGeneration, saveUsageData. steady_tac. Qed.

Lemma saveToHistory_steady a b c d : frames steady (saveToHistory a b c d).
Proof. unfold saveToHistory, saveUsageData. steady_tac. Qed.

#[export] Hint Resolve consumeGeneration_steady saveToHistory_steady : js.

Lemma steady_signedIn s s' : steady s s' -> signedIn s' = signedIn s.
Proof. intros (_ & U & C & _). unfold signedIn. rewrite U, C. reflexivity. Qed.

Lemma steady_getFreeLimit s s' : steady s s' -> getFreeLimit s' = getFreeLimit s.
Proof. intros (_ & U & _). unfold getFreeLimit. rewrite U. reflexivity. Qed.

Lemma steady_reliable s s' : steady s s' -> reliable s -> reliable s'.
Proof. intros (_ & _ & _ & _ & _ & H). apply Forall_drop_script, H. Qed.

Lemma steady_currentPeriod s s' : steady s s' -> currentPeriod s' = currentPeriod s.
Proof. intros (C & _). unfold currentPeriod. rewrite C. reflexivity. Qed.

(** ** The gate and the counts it shows *)

Lemma getFreeUsageCount_val s :
  exists used, result getFreeUsageCount s = Val used.
Proof. apply getFreeUsageCount_total. Qed.

Lemma getRemainingGenerations_run s used :
  result getFreeUsageCount s = Val used ->
  getRemainingGenerations s =
  (Val (Z.max 0 (getFreeLimit s - used) + purchasedCredits s),
   after getFreeUsageCount s).
Proof.
  intros H. unfold getRemainingGenerations.
  rewrite (bind_run _ _ _ _ _ (getRemaining_used s used H)).
  unfold bind, gets, ret.
  destruct (getFreeUsageCount_frames s) as (_ & _ & _ & Hp & _).
  rewrite Hp. reflexivity.
Qed.

(** X1.  With a balance that is not negative, [canGenerate] answers
    [true] exactly when [getRemainingGenerations] counts at least one
    generation; the two leave the same state. *)
Theorem gate_open_iff_generations_remain (s : State) :
  0 <= purchasedCredits s ->
  exists n,
    result getRemainingGenerations s = Val n /\
    0 <= n /\
    (result canGenerate s = Val true <-> 0 < n) /\
    (result canGenerate s = Val false <-> n = 0) /\
    after getRemainingGenerations s = after canGenerate s.
Proof.
  intros Hp. destruct (getFreeUsageCount_val s) as [used Hu].
  unfold result, after.
  rewrite (getRemainingGenerations_run s used Hu), (canGenerate_run s used Hu).
  cbn [fst snd]. eexists. split; [reflexivity|].
  set (r := Z.max 0 (getFreeLimit s - used)).
  assert (Hr : 0 <= r) by (subst r; lia).
  split; [lia|]. split; [|split; [|reflexivity]].
  - split.
    + intros [= H]. apply orb_true_iff in H.
      destruct H as [H|H]; apply Z.ltb_lt in H; lia.
    + intros H. f_equal. apply orb_true_iff.
      destruct (Z_lt_le_dec 0 r) as [H1|H1]; [left|right]; apply Z.ltb_lt; lia.
  - split.
    + intros [= H]. apply orb_false_iff in H. destruct H as [H1 H2].
      apply Z.ltb_ge in H1, H2. lia.
    + intros H. f_equal. apply orb_false_iff. split; apply Z.ltb_ge; lia.
Qed.

Lemma gate_open_iff_generations_remain_witness :
  0 <= purchasedCredits exhaustedState /\
  exists n, result getRemainingGenerations exhaustedState = Val n /\
            (result canGenerate exhaustedState = Val true <-> 0 < n).
Proof.
  assert (H : 0 <= purchasedCredits exhaustedState) by (cbn; lia).
  split; [exact H|].
  destruct (gate_open_iff_generations_remain exhaustedState H)
    as (n & Hn & _ & Hopen & _).
  exists n. split; assumption.
Defined.

Lemma msUntilNextReset_range now :
  MS_PER_DAY - resetShift now < msUntilNextReset now
    <= 3 * MS_PER_DAY - resetShift now.
Proof.
  pose proof (proj1 (periodNumber_window now (periodNumber now)) eq_refl) as Hw.
  unfold msUntilNextReset, msToLocalMidnight, resetShift, COOLDOWN_DAYS in *.
  rewrite MS_PER_DAY_eq in *. lia.
Qed.

Lemma reset_hours_range now lo hi :
  lo * 3600000 <= resetShift now <= hi * 3600000 ->
  25 - hi <= hoursUntilReset now <= 72 - lo.
Proof.
  intros Hs.
  pose proof (msUntilNextReset_range now) as H. rewrite MS_PER_DAY_eq in H.
  unfold hoursUntilReset, ceilDiv. change (1000 * 60 * 60) with 3600000.
  pose proof (Z.div_mod (- msUntilNextReset now) 3600000 ltac:(lia)).
  pose proof (Z.mod_pos_bound (- msUntilNextReset now) 3600000 ltac:(lia)).
  lia.
Qed.

(** X2.  The countdown of [getNextResetTime] is measured to the local
    midnight one day after the period key changes.  With [shift] the
    time by which the host's clock is ahead, at that midnight, of where
    it stood on 31 December, the announced reset is more than a day
    less [shift] and at most three days less [shift] away, so the hours
    shown are 25 to 72 on a host without a clock change and 24 to 73
    with a change of up to an hour; and a later instant of the year is
    still in the current period exactly when it lies more than a day
    less [shift] before the announced reset. *)
Theorem reset_countdown_runs_a_day_late (now later : Clock) :
  fullYear later = fullYear now ->
  msIntoYear now <= msIntoYear later ->
  let shift := resetShift now in
  MS_PER_DAY - shift < msUntilNextReset now <= 3 * MS_PER_DAY - shift /\
  (shift = 0 -> 25 <= hoursUntilReset now <= 72) /\
  (- 3600000 <= shift <= 3600000 -> 24 <= hoursUntilReset now <= 73) /\
  (periodNumber later = periodNumber now <->
   msIntoYear later <
     msIntoYear now + msUntilNextReset now - (MS_PER_DAY - shift)).
Proof.
  intros Hy Hle. cbv zeta.
  split; [apply msUntilNextReset_range|].
  split; [intros H0; apply (reset_hours_range now 0 0); lia|].
  split; [intros H1; apply (reset_hours_range now (-1) 1); lia|].
  pose proof (proj1 (periodNumber_window now (periodNumber now)) eq_refl) as Hw.
  rewrite (periodNumber_window later (periodNumber now)).
  unfold msUntilNextReset, msToLocalMidnight, resetShift, COOLDOWN_DAYS.
  rewrite MS_PER_DAY_eq in *. lia.
Qed.

Lemma reset_countdown_runs_a_day_late_witness :
  fullYear lateJan11 = fullYear noonJan10 /\
  msIntoYear noonJan10 <= msIntoYear lateJan11 /\
  25 <= hoursUntilReset lateJan11 <= 72 /\
  periodNumber lateJan11 = periodNumber noonJan10 /\
  24 <= hoursUntilReset newYorkJul11 <= 73.
Proof.
  assert (Hy : fullYear lateJan11 = fullYear noonJan10) by reflexivity.
  assert (Hm : msIntoYear noonJan10 <= msIntoYear lateJan11) by (vm_compute; congruence).
  split; [exact Hy|]. split; [exact Hm|].
  destruct (reset_countdown_runs_a_day_late lateJan11 lateJan11 eq_refl (Z.le_refl _))
    as (_ & Hh & _).
  split; [exact (Hh eq_refl)|].
  split.
  - apply (reset_countdown_runs_a_day_late noonJan10 lateJan11 Hy Hm).
    vm_compute. reflexivity.
  - destruct (reset_countdown_runs_a_day_late newYorkJul11 newYorkJul11 eq_refl
                (Z.le_refl _)) as (_ & _ & Hh' & _).
    apply Hh'. vm_compute. split; congruence.
Defined.

(** In New York at half past midnight of 11 July 2025 the announced
    reset, midnight of 12 July, is 23 and a half hours away and the page
    shows 24 hours; the period key has changed at one in the morning of
    10 July and changes again at one in the morning of 12 July. *)
Example countdown_in_daylight_time :
  msUntilNextReset newYorkJul11 = 23 * 3600000 + 1800000 /\
  hoursUntilReset newYorkJul11 = 24 /\
  resetShift newYorkJul11 = 3600000.
Proof. vm_compute. repeat split; reflexivity. Qed.

Example countdown_half_an_hour_before_the_reset :
  hoursUntilReset lateJan11 = 25 /\
  getCooldownPeriodStart lateJan11 = "2025-01-11"%string /\
  getCooldownPeriodStart (mkClock 2025 (11 * MS_PER_DAY) 0) = "2025-01-13"%string.
Proof. vm_compute. repeat split; reflexivity. Qed.

Lemma consume_closed s :
  result canGenerate s = Val false ->
  result consumeGeneration s = Val tt /\
  sameLedgers s (after consumeGeneration s).
Proof.
  intros Hcan. destruct (getFreeUsageCount_val s) as [used Hu].
  unfold result in Hcan. rewrite (canGenerate_run s used Hu) in Hcan.
  cbn [fst] in Hcan. injection Hcan as Hcan.
  apply orb_false_iff in Hcan. destruct Hcan as [Hr Hp].
  assert (E : consumeGeneration s =
              (updateStats ;;; updateGenerateUsage) (after getFreeUsageCount s)).
  { unfold consumeGeneration.
    rewrite (bind_run _ _ _ _ _ (getRemaining_used s used Hu)).
    unfold bind at 1, gets at 1. rewrite Hr.
    destruct (getFreeUsageCount_frames s) as (_ & _ & _ & Hpc & _).
    rewrite Hpc, Hp. reflexivity. }
  unfold result, after. rewrite E.
  split.
  - destruct (refresh_total (after getFreeUsageCount s)) as [[] H]. exact H.
  - etransitivity; [apply getFreeUsageCount_frames|apply refresh_frames].
Qed.

(** X5.  When [canGenerate] answers [false], [consumeGeneration] returns
    and charges nothing: the balance of the session, the stored usage
    record and both tables of the store are as before. *)
Theorem consume_with_closed_gate (s : State) :
  result canGenerate s = Val false ->
  result consumeGeneration s = Val tt /\
  sameLedgers s (after consumeGeneration s).
Proof. apply consume_closed. Qed.

Lemma consume_with_closed_gate_witness :
  result canGenerate (set_cache (Some 10) (Some "2025-01-11"%string) userState)
  = Val false /\
  sameLedgers (set_cache (Some 10) (Some "2025-01-11"%string) userState)
    (after consumeGeneration
       (set_cache (Some 10) (Some "2025-01-11"%string) userState)).
Proof.
  assert (H : result canGenerate
                (set_cache (Some 10) (Some "2025-01-11"%string) userState)
              = Val false) by (vm_compute; reflexivity).
  split; [exact H|]. apply (consume_with_closed_gate _ H).
Defined.

Lemma anonymous_consume_step s :
  signedIn s = None -> purchasedCredits s <= 0 ->
  localFreeCount s <= getFreeLimit s ->
  let s' := after consumeGeneration s in
  result consumeGeneration s = Val tt /\
  signedIn s' = None /\
  purchasedCredits s' = purchasedCredits s /\
  getFreeLimit s' = getFreeLimit s /\
  localFreeCount s' = Z.min (getFreeLimit s) (localFreeCount s + 1).
Proof.
  intros Hu Hp Hle s'.
  assert (Hst : steady s s') by apply consumeGeneration_steady.
  assert (Hu' : signedIn s' = None) by (rewrite (steady_signedIn _ _ Hst); exact Hu).
  assert (Hset : settled s) by (unfold settled; rewrite Hu; exact I).
  assert (Hview : forall x, signedIn x = None -> usedView x = localFreeCount x)
    by (intros x Hx; unfold usedView; rewrite Hx; reflexivity).
  destruct (Z_lt_le_dec (localFreeCount s) (getFreeLimit s)) as [Hlt|Hge].
  - assert (Hr : 0 < Z.max 0 (getFreeLimit s - usedView s))
      by (rewrite (Hview s Hu); lia).
    destruct (consume_free s Hset Hr) as (Hres & _ & Hv & Hl & Hpc & _).
    fold s' in Hv, Hl, Hpc.
    rewrite (Hview s' Hu'), (Hview s Hu) in Hv.
    repeat split; try assumption. lia.
  - assert (Hcan : result canGenerate s = Val false).
    { unfold result.
      rewrite (canGenerate_run s (localFreeCount s)).
      2:{ unfold result. rewrite (anonymous_getFreeUsageCount s Hu). reflexivity. }
      cbn [fst]. f_equal. apply orb_false_iff. split; apply Z.ltb_ge; lia. }
    destruct (consume_closed s Hcan) as [Hres L]. fold s' in L.
    split; [exact Hres|]. split; [exact Hu'|].
    split; [apply L|]. split; [apply (steady_getFreeLimit _ _ Hst)|].
    rewrite (localFreeCount_sameLedgers _ _ L). lia.
Qed.

Lemma anonymous_consume_run n : forall s,
  signedIn s = None -> purchasedCredits s <= 0 ->
  localFreeCount s <= getFreeLimit s ->
  let s' := after (consumeTimes n) s in
  result (consumeTimes n) s = Val tt /\
  signedIn s' = None /\
  purchasedCredits s' = purchasedCredits s /\
  getFreeLimit s' = getFreeLimit s /\
  localFreeCount s' = Z.min (getFreeLimit s) (localFreeCount s + Z.of_nat n).
Proof.
  induction n as [|n IH]; intros s Hu Hp Hle.
  - cbn. repeat split; try assumption. lia.
  - destruct (anonymous_consume_step s Hu Hp Hle) as (Hr & Hu1 & Hp1 & Hl1 & Hc1).
    cbn [consumeTimes]. cbv zeta. unfold result, after in *.
    unfold bind. destruct (consumeGeneration s) as [[[]|] s1]; cbn [fst snd] in *;
      [|discriminate].
    destruct (IH s1 Hu1 ltac:(lia) ltac:(lia)) as (Hr2 & Hu2 & Hp2 & Hl2 & Hc2).
    cbv zeta in *. unfold result, after in *.
    repeat split; try assumption; try congruence.
    rewrite Hc2, Hl1, Hc1. lia.
Qed.

(** X6.  An anonymous visitor without credits whose used count is within
    the limit: after [n] calls of [consumeGeneration] the used count of
    the period is [min(limit, used + n)], so the quota is never exceeded,
    and [canGenerate] then answers [true] exactly when [used + n] is
    still below the limit. *)
Theorem anonymous_quota_run (n : nat) (s : State) :
  signedIn s = None -> purchasedCredits s <= 0 ->
  localFreeCount s <= getFreeLimit s ->
  let s' := after (consumeTimes n) s in
  result (consumeTimes n) s = Val tt /\
  localFreeCount s' = Z.min (getFreeLimit s) (localFreeCount s + Z.of_nat n) /\
  result getRemainingFreeGenerations s' =
    Val (Z.max 0 (getFreeLimit s - (localFreeCount s + Z.of_nat n))) /\
  (result canGenerate s' = Val true <->
   localFreeCount s + Z.of_nat n < getFreeLimit s).
Proof.
  intros Hu Hp Hle s'.
  destruct (anonymous_consume_run n s Hu Hp Hle) as (Hr & Hu' & Hp' & Hl' & Hc').
  fold s' in Hu', Hp', Hl', Hc'.
  assert (Hg : result getFreeUsageCount s' = Val (localFreeCount s')).
  { unfold result. rewrite (anonymous_getFreeUsageCount s' Hu'). reflexivity. }
  split; [exact Hr|]. split; [exact Hc'|]. split.
  - unfold result. rewrite (getRemaining_used s' _ Hg). cbn [fst].
    rewrite Hl', Hc'. f_equal. lia.
  - unfold result. rewrite (canGenerate_run s' _ Hg). cbn [fst].
    rewrite Hl', Hc', Hp'.
    destruct (Z.ltb_spec 0 (purchasedCredits s)) as [H|_]; [lia|].
    rewrite orb_false_r. split.
    + intros [= H]. apply Z.ltb_lt in H. lia.
    + intros H. f_equal. apply Z.ltb_lt. lia.
Qed.

Lemma anonymous_quota_run_witness :
  signedIn threeUsedState = None /\ purchasedCredits threeUsedState <= 0 /\
  localFreeCount threeUsedState <= getFreeLimit threeUsedState /\
  localFreeCount (after (consumeTimes 4) threeUsedState) =
    Z.min (getFreeLimit threeUsedState)
          (localFreeCount threeUsedState + Z.of_nat 4).
Proof.
  assert (H1 : signedIn threeUsedState = None) by reflexivity.
  assert (H2 : purchasedCredits threeUsedState <= 0) by (cbn; lia).
  assert (H3 : localFreeCount threeUsedState <= getFreeLimit threeUsedState)
    by (vm_compute; congruence).
  split; [exact H1|]. split; [exact H2|]. split; [exact H3|].
  apply (anonymous_quota_run 4 threeUsedState H1 H2 H3).
Defined.

(** ** What the page shows *)

Lemma updateGenerateUsageView_run s r :
  hasUsageEl s = true ->
  getRemainingFreeGenerations s = (Val r, after getFreeUsageCount s) ->
  exists shown,
    updateGenerateUsageView s =
    (Val (Some (usageLabel r (purchasedCredits s) (clock s)), shown),
     after updateGenerateUsage s).
Proof.
  intros Hel Hr.
  destruct (getFreeUsageCount_frames s) as (Hc & _ & _ & Hp & _ & _ & _ & _ & Hb).
  set (s1 := after getFreeUsageCount s) in *.
  destruct (getRemaining_val s1) as [r1 Hr1].
  rewrite updateGenerateUsage_after. cbv zeta. rewrite Hel. fold s1.
  unfold updateGenerateUsageView. unfold bind at 1, gets at 1. rewrite Hel.
  unfold bind at 1. unfold bind at 1. rewrite Hr.
  unfold bind at 1, gets at 1. unfold bind at 1, gets at 1. unfold ret at 1.
  unfold bind at 1, gets at 1. rewrite Hb, Hp, Hc.
  destruct (hasBuyBtn s).
  - unfold bind at 1. unfold bind at 1. rewrite Hr1.
    unfold bind, gets, ret. eexists. reflexivity.
  - unfold bind, ret. eexists. reflexivity.
Qed.

(** X3.  The label [updateGenerateUsage] writes agrees with the gate:
    with a balance that is not negative it reads ["Resets in ..."]
    exactly when [canGenerate] answers [false], the hours in it are
    those of the countdown to [getNextResetTime], and otherwise it
    names the free generations whenever one remains and the credits
    alone when none does. *)
Theorem usage_label_matches_gate (s : State) :
  hasUsageEl s = true -> 0 <= purchasedCredits s ->
  exists label shown r,
    result updateGenerateUsageView s = Val (Some label, shown) /\
    after updateGenerateUsageView s = after updateGenerateUsage s /\
    result getRemainingFreeGenerations s = Val r /\
    (result canGenerate s = Val false <-> exists h, label = LabelResets h) /\
    (forall h, label = LabelResets h -> h = hoursUntilReset (clock s)) /\
    (0 < r -> exists c, label = LabelFree r c /\
                        (c = None <-> purchasedCredits s = 0)) /\
    (r = 0 -> 0 < purchasedCredits s -> label = LabelCredits (purchasedCredits s)).
Proof.
  intros Hel Hp. destruct (getFreeUsageCount_val s) as [used Hu].
  pose proof (getRemaining_used s used Hu) as Hr.
  set (r := Z.max 0 (getFreeLimit s - used)) in *.
  assert (Hr0 : 0 <= r) by (subst r; lia).
  destruct (updateGenerateUsageView_run s r Hel Hr) as [shown Hv].
  exists (usageLabel r (purchasedCredits s) (clock s)), shown, r.
  unfold result, after. rewrite Hv, Hr, (canGenerate_run s used Hu).
  cbn [fst snd]. fold r.
  split; [reflexivity|]. split; [reflexivity|]. split; [reflexivity|].
  unfold usageLabel.
  destruct (Z.ltb_spec 0 (r + purchasedCredits s)) as [Ht|Ht].
  - destruct (Z.ltb_spec 0 r) as [H1|H1].
    + split; [split; [discriminate | intros [h H]; discriminate]|].
      split; [intros h H; discriminate|]. split; [|lia].
      intros _. eexists. split; [reflexivity|].
      destruct (Z.ltb_spec 0 (purchasedCredits s)); split; intros;
        first [reflexivity | discriminate | lia | exfalso; lia].
    + destruct (Z.ltb_spec 0 (purchasedCredits s)) as [H2|H2]; [|lia].
      split; [split; [discriminate | intros [h H]; discriminate]|].
      split; [intros h H; discriminate|]. split; [lia|]. reflexivity.
  - destruct (Z.ltb_spec 0 r) as [H1|H1]; [lia|].
    destruct (Z.ltb_spec 0 (purchasedCredits s)) as [H2|H2]; [lia|].
    split; [split; [intros _; eexists; reflexivity | reflexivity]|].
    split; [|split; lia].
    intros h [= <-]. reflexivity.
Qed.

Lemma usage_label_matches_gate_witness :
  hasUsageEl exhaustedState = true /\ 0 <= purchasedCredits exhaustedState /\
  exists label shown,
    result updateGenerateUsageView exhaustedState = Val (Some label, shown) /\
    label = LabelCredits (purchasedCredits exhaustedState).
Proof.
  assert (H1 : hasUsageEl exhaustedState = true) by reflexivity.
  assert (H2 : 0 <= purchasedCredits exhaustedState) by (cbn; lia).
  split; [exact H1|]. split; [exact H2|].
  destruct (usage_label_matches_gate exhaustedState H1 H2)
    as (label & shown & r & Hv & _ & Hr & _ & _ & _ & Hc).
  exists label, shown. split; [exact Hv|].
  assert (H0 : r = 0) by (vm_compute in Hr; congruence).
  apply (Hc H0). cbn. lia.
Defined.

(** X4.  The numbers [updateStats] displays: the remaining generations
    are the free ones plus the credits of the session; the lifetime
    total is the stored total of the local record for an anonymous
    visitor, and for a signed-in user the number of rows the store holds
    for that user when the count is answered, the local total when it is
    not. *)
Theorem stats_show_store_count_when_signed_in (s : State) :
  exists r,
    result getRemainingFreeGenerations s = Val r /\
    let s1 := after getFreeUsageCount s in
    let localTotal := orZero (u_total (getUsageData s)) in
    (signedIn s = None ->
     result updateStats s = Val (r + purchasedCredits s, localTotal)) /\
    (forall uid, signedIn s = Some uid -> nextFault s1 = Answers ->
     result updateStats s =
       Val (r + purchasedCredits s,
            Z.of_nat (length (rowsOf uid (generations s))))) /\
    (forall uid, signedIn s = Some uid -> nextFault s1 <> Answers ->
     result updateStats s = Val (r + purchasedCredits s, localTotal)).
Proof.
  destruct (getRemaining_val s) as [r Hr]. exists r.
  split; [unfold result; rewrite Hr; reflexivity|].
  cbv zeta.
  pose proof (getFreeUsageCount_frames s) as L.
  pose proof (signedIn_sameLedgers _ _ L) as Hsig.
  destruct L as (_ & _ & _ & Hp & Hl & _ & Hg & _).
  set (s1 := after getFreeUsageCount s) in *.
  assert (E : updateStats s =
    (total <- match signedIn s1 with
              | Some uid =>
                  tryCatch
                    (count <- countAll uid ;;
                     ret (match count with
                          | Some n => n
                          | None => orZero (u_total (getUsageData s1))
                          end))
                    (ret (orZero (u_total (getUsageData s1))))
              | None => ret (orZero (u_total (getUsageData s1)))
              end ;;
     ret (r + purchasedCredits s1, total)) s1).
  { unfold updateStats. rewrite (bind_run _ _ _ _ _ Hr). reflexivity. }
  assert (Hd : getUsageData s1 = getUsageData s)
    by (unfold getUsageData; rewrite Hl; reflexivity).
  unfold result. rewrite E, Hsig, Hd, Hp.
  split; [|split].
  - intros ->. reflexivity.
  - intros uid -> Hf. unfold bind, tryCatch, countAll, bind.
    rewrite roundTrip_run, Hf. cbn. rewrite Hg. reflexivity.
  - intros uid -> Hf. unfold bind, tryCatch, countAll, bind.
    rewrite roundTrip_run. destruct (nextFault s1); [congruence| |]; reflexivity.
Qed.

Lemma stats_show_store_count_when_signed_in_witness :
  signedIn returningUser = Some "u1"%string /\
  nextFault (after getFreeUsageCount returningUser) = Answers /\
  result updateStats returningUser = Val (10 + 0, 1).
Proof.
  assert (H1 : signedIn returningUser = Some "u1"%string) by reflexivity.
  assert (H2 : nextFault (after getFreeUsageCount returningUser) = Answers)
    by (vm_compute; reflexivity).
  split; [exact H1|]. split; [exact H2|].
  destruct (stats_show_store_count_when_signed_in returningUser)
    as (r & Hr & _ & Hs & _).
  assert (H10 : r = 10) by (vm_compute in Hr; congruence).
  subst r. exact (Hs _ H1 H2).
Defined.

(** ** The balance of the session and the balance of the store *)

Lemma loadCredits_run s uid :
  signedIn s = Some uid ->
  loadCredits s =
  match nextFault s with
  | Answers => (Val (storedBalance s uid),
                set_purchasedCredits (storedBalance s uid) (sent (SelectBalance uid) s))
  | _ => (Val 0, set_purchasedCredits 0 (sent (SelectBalance uid) s))
  end.
Proof.
  intros Hu. unfold loadCredits, bind, gets. rewrite Hu.
  unfold tryCatch, selectBalance, bind. rewrite roundTrip_run.
  destruct (nextFault s); try reflexivity.
  unfold gets, storedBalance. cbn.
  destruct (credits s !! uid) as [row|]; cbn; [|reflexivity].
  destruct (Z.eqb_spec (balance row) 0) as [E|E]; cbn; [rewrite E|]; reflexivity.
Qed.

Lemma loadCredits_anonymous s :
  signedIn s = None -> loadCredits s = (Val 0, set_purchasedCredits 0 s).
Proof. intros Hu. unfold loadCredits, bind, gets. rewrite Hu. reflexivity. Qed.

(** X7.  [loadCredits] returns the balance it leaves in the session.
    For a signed-in user whose query is answered this is the balance of
    the stored row, 0 when there is no row, and the session is then in
    step with the store; for an anonymous visitor and for a query that
    fails it is 0.  The store is never written. *)
Theorem loadCredits_reads_stored_balance (s : State) :
  let s' := after loadCredits s in
  result loadCredits s = Val (purchasedCredits s') /\
  credits s' = credits s /\
  (forall uid, signedIn s = Some uid -> nextFault s = Answers ->
     purchasedCredits s' = storedBalance s uid /\ inSync s') /\
  (signedIn s = None \/ nextFault s <> Answers -> purchasedCredits s' = 0).
Proof.
  cbv zeta. unfold result, after.
  destruct (signedIn s) as [uid|] eqn:Hu.
  - rewrite (loadCredits_run s uid Hu).
    destruct (nextFault s) eqn:Hf; cbn [fst snd];
      (split; [reflexivity|]); (split; [reflexivity|]); split;
      try (intros ? _ ?; discriminate);
      try (intros _; reflexivity).
    + intros uid' E _. injection E as <-. split; [reflexivity|].
      intros u Hu'. change (signedIn s = Some u) in Hu'.
      rewrite Hu in Hu'. injection Hu' as <-. reflexivity.
    + intros [H|H]; [discriminate|congruence].
  - rewrite (loadCredits_anonymous s Hu). cbn [fst snd].
    split; [reflexivity|]. split; [reflexivity|]. split.
    + intros ? ?; discriminate.
    + intros _; reflexivity.
Qed.

Lemma loadCredits_reads_stored_balance_witness :
  signedIn creditedState = Some "u1"%string /\
  nextFault creditedState = Answers /\
  purchasedCredits (after loadCredits creditedState) = 3.
Proof.
  assert (H1 : signedIn creditedState = Some "u1"%string) by reflexivity.
  assert (H2 : nextFault creditedState = Answers) by reflexivity.
  split; [exact H1|]. split; [exact H2|].
  destruct (loadCredits_reads_stored_balance creditedState) as (_ & _ & H & _).
  destruct (H _ H1 H2) as [E _]. rewrite E. reflexivity.
Defined.

Lemma storedBalance_insert s uid row t :
  credits t = <[uid := row]> (credits s) -> storedBalance t uid = balance row.
Proof. intros E. unfold storedBalance. rewrite E, lookup_insert_eq. reflexivity. Qed.

Lemma addCredits_sync amount s uid :
  signedIn s = Some uid ->
  let s' := after (addCredits amount) s in
  match nextFault s with
  | Answers =>
      result (addCredits amount) s = Val true /\
      purchasedCredits s' = purchasedCredits s + amount /\
      storedBalance s' uid = purchasedCredits s + amount
  | _ =>
      result (addCredits amount) s = Val false /\
      purchasedCredits s' = purchasedCredits s /\ credits s' = credits s
  end.
Proof.
  intros Hu. cbv zeta. unfold result, after.
  rewrite (addCredits_run amount s uid Hu).
  destruct (nextFault s); cbn [fst snd]; try (repeat split; reflexivity).
  split; [reflexivity|].
  match goal with |- context [after updateStats ?s1] =>
    destruct (updateStats_frames s1) as (_ & _ & _ & Hp & _ & Hc & _) end.
  unfold storedBalance. rewrite Hp, Hc. cbn.
  rewrite lookup_insert_eq. split; reflexivity.
Qed.

Lemma useCredit_sync s uid :
  signedIn s = Some uid -> 0 < purchasedCredits s ->
  purchasedCredits s = storedBalance s uid ->
  let s' := after useCredit s in
  match nextFault s with
  | Answers =>
      result useCredit s = Val true /\
      purchasedCredits s' = purchasedCredits s - 1 /\
      storedBalance s' uid = purchasedCredits s - 1
  | _ =>
      result useCredit s = Val false /\
      purchasedCredits s' = purchasedCredits s /\ credits s' = credits s
  end.
Proof.
  intros Hu Hp Hs. cbv zeta. unfold result, after.
  rewrite (useCredit_run s uid Hu Hp).
  destruct (nextFault s); cbn [fst snd]; try (repeat split; reflexivity).
  split; [reflexivity|]. split; [reflexivity|].
  unfold storedBalance in *. cbn.
  rewrite lookup_alter_eq.
  destruct (credits s !! uid) as [row|]; cbn; [reflexivity|lia].
Qed.

(** X8.  A session whose balance agrees with the stored balance of its
    user stays so through [addCredits] and [useCredit], whatever the
    store answers: a purchase that reports success has raised the stored
    balance by exactly the amount, a spending that reports success has
    lowered it by exactly one, and a call that reports failure has left
    the stored balance where it was. *)
Theorem ledger_stays_in_step (s : State) (amount : Z) :
  inSync s ->
  let sa := after (addCredits amount) s in
  let su := after useCredit s in
  inSync sa /\ inSync su /\
  forall uid, signedIn s = Some uid ->
    (result (addCredits amount) s = Val true ->
       storedBalance sa uid = storedBalance s uid + amount) /\
    (result (addCredits amount) s = Val false ->
       storedBalance sa uid = storedBalance s uid) /\
    (result useCredit s = Val true ->
       storedBalance su uid = storedBalance s uid - 1) /\
    (result useCredit s = Val false ->
       storedBalance su uid = storedBalance s uid).
Proof.
  intros Hs. cbv zeta.
  pose proof (steady_signedIn _ _ (addCredits_steady amount s)) as Ha.
  pose proof (steady_signedIn _ _ (useCredit_steady s)) as Hu.
  destruct (signedIn s) as [uid|] eqn:Hsig.
  - pose proof (Hs uid Hsig) as E.
    pose proof (addCredits_sync amount s uid Hsig) as A. cbv zeta in A.
    assert (U : (purchasedCredits s <= 0 /\ useCredit s = (Val false, s)) \/
                (0 < purchasedCredits s /\
                 match nextFault s with
                 | Answers =>
                     result useCredit s = Val true /\
                     purchasedCredits (after useCredit s) = purchasedCredits s - 1 /\
                     storedBalance (after useCredit s) uid = purchasedCredits s - 1
                 | _ =>
                     result useCredit s = Val false /\
                     purchasedCredits (after useCredit s) = purchasedCredits s /\
                     credits (after useCredit s) = credits s
                 end)).
    { destruct (Z_lt_le_dec 0 (purchasedCredits s)) as [Hp|Hp].
      - right. split; [exact Hp|]. exact (useCredit_sync s uid Hsig Hp E).
      - left. split; [exact Hp|]. apply useCredit_refused. right. exact Hp. }
    assert (Ia : inSync (after (addCredits amount) s)).
    { intros u Hu'. rewrite Ha in Hu'. injection Hu' as <-.
      destruct (nextFault s); destruct A as (_ & Ap & Ac);
        try (rewrite Ap, Ac; reflexivity);
        unfold storedBalance; rewrite Ap, Ac; exact E. }
    assert (Iu : inSync (after useCredit s)).
    { intros u Hu'. rewrite Hu in Hu'. injection Hu' as <-.
      destruct U as [[_ U]|[_ U]].
      - unfold after. rewrite U. exact E.
      - destruct (nextFault s); destruct U as (_ & Up & Uc);
          try (rewrite Up, Uc; reflexivity);
          unfold storedBalance; rewrite Up, Uc; exact E. }
    split; [exact Ia|]. split; [exact Iu|].
    intros u Hu'. injection Hu' as <-.
    split; [|split; [|split]].
    + intros R. destruct (nextFault s); destruct A as (R' & Ap & Ac);
        try congruence; rewrite Ac, E; reflexivity.
    + intros R. destruct (nextFault s); destruct A as (R' & Ap & Ac);
        try congruence; unfold storedBalance; rewrite Ac; reflexivity.
    + intros R. destruct U as [[_ U]|[_ U]].
      * unfold result in R. rewrite U in R. discriminate.
      * destruct (nextFault s); destruct U as (R' & Up & Uc);
          try congruence; rewrite Uc, E; reflexivity.
    + intros R. destruct U as [[_ U]|[_ U]].
      * unfold after. rewrite U. reflexivity.
      * destruct (nextFault s); destruct U as (R' & Up & Uc);
          try congruence; unfold storedBalance; rewrite Uc; reflexivity.
  - unfold after. rewrite (addCredits_refused amount s Hsig).
    rewrite (useCredit_refused s (or_introl Hsig)). cbn [snd].
    split; [exact Hs|]. split; [exact Hs|]. intros ? ?; discriminate.
Qed.

Lemma ledger_stays_in_step_witness :
  inSync creditedState /\
  storedBalance (after (addCredits 25) creditedState) "u1" = 28 /\
  storedBalance (after useCredit creditedState) "u1" = 2.
Proof.
  assert (H : inSync creditedState).
  { intros uid Hu. injection Hu as <-. reflexivity. }
  split; [exact H|].
  destruct (ledger_stays_in_step creditedState 25 H) as (_ & _ & K).
  destruct (K "u1"%string eq_refl) as (Ka & _ & Ku & _).
  split.
  - rewrite (Ka ltac:(vm_compute; reflexivity)). reflexivity.
  - rewrite (Ku ltac:(vm_compute; reflexivity)). reflexivity.
Defined.

(** X9.  The purchase writes the balance of the session, not the stored
    one: when the query of [loadCredits] fails, the session holds 0, and
    a purchase that is then answered stores the amount as the balance,
    whatever balance the row held before. *)
Theorem purchase_after_failed_load (s : State) (uid : string) (amount : Z) :
  signedIn s = Some uid -> nextFault s <> Answers ->
  nextFault (after loadCredits s) = Answers ->
  let s' := after (loadCredits ;;; addCredits amount) s in
  result (loadCredits ;;; addCredits amount) s = Val true /\
  purchasedCredits s' = amount /\
  storedBalance s' uid = amount.
Proof.
  intros Hu Hf Hn. cbv zeta.
  assert (E : loadCredits s = (Val 0, after loadCredits s)).
  { unfold after. rewrite (loadCredits_run s uid Hu).
    destruct (nextFault s); [congruence| |]; reflexivity. }
  assert (Hp : purchasedCredits (after loadCredits s) = 0).
  { unfold after. rewrite (loadCredits_run s uid Hu).
    destruct (nextFault s); [congruence| |]; reflexivity. }
  pose proof (steady_signedIn _ _ (loadCredits_steady s)) as Hu'.
  rewrite Hu in Hu'.
  pose proof (addCredits_sync amount _ uid Hu') as A. cbv zeta in A.
  rewrite Hn, Hp in A. destruct A as (R & Ap & As).
  unfold result, after in *. unfold bind at 1 2 3. rewrite E.
  rewrite R, Ap, As. repeat split; lia.
Qed.

Lemma purchase_after_failed_load_witness :
  storedBalance failedLoadState "u1" = 7 /\
  storedBalance (after (loadCredits ;;; addCredits 25) failedLoadState) "u1" = 25.
Proof.
  split; [reflexivity|].
  refine (proj2 (proj2 (purchase_after_failed_load failedLoadState "u1" 25 _ _ _))).
  - reflexivity.
  - vm_compute. discriminate.
  - vm_compute. reflexivity.
Defined.

(** ** The return from the payment page *)

Lemma addCredits_val amount s :
  exists ok, addCredits amount s = (Val ok, after (addCredits amount) s).
Proof. apply total_run, addCredits_total. Qed.

Lemma checkPaymentStatus_success s :
  checkPaymentStatus (Some "success"%string) s =
  (Val (Some (ToastCreditsAdded CREDIT_PACK_SIZE), true),
   after (addCredits CREDIT_PACK_SIZE) s).
Proof.
  unfold checkPaymentStatus. cbn [String.eqb Ascii.eqb Bool.eqb].
  destruct (addCredits_val CREDIT_PACK_SIZE s) as [ok Hok].
  rewrite (bind_run _ _ _ _ _ Hok). reflexivity.
Qed.

(** X10.  [checkPaymentStatus] announces the credits of a pack and
    cleans the address whenever the address says ["success"], whether
    or not [addCredits] added them: for an anonymous visitor and for a
    write the store does not accept, the balances are left as they were.
    Any other address leaves the whole state untouched and announces no
    credits. *)
Theorem payment_toast_ignores_outcome (s : State) (payment : option string) :
  let s' := after (checkPaymentStatus payment) s in
  (payment = Some "success"%string ->
     result (checkPaymentStatus payment) s =
       Val (Some (ToastCreditsAdded CREDIT_PACK_SIZE), true) /\
     (signedIn s = None \/ nextFault s <> Answers ->
        purchasedCredits s' = purchasedCredits s /\ credits s' = credits s) /\
     (forall uid, signedIn s = Some uid -> nextFault s = Answers ->
        purchasedCredits s' = purchasedCredits s + CREDIT_PACK_SIZE /\
        storedBalance s' uid = purchasedCredits s + CREDIT_PACK_SIZE)) /\
  (payment <> Some "success"%string ->
     s' = s /\
     forall n, result (checkPaymentStatus payment) s
               <> Val (Some (ToastCreditsAdded n), true)).
Proof.
  cbv zeta. split.
  - intros ->. unfold result, after. rewrite checkPaymentStatus_success.
    cbn [fst snd]. split; [reflexivity|]. split.
    + destruct (signedIn s) as [uid|] eqn:Hu.
      * intros [H|H]; [discriminate|].
        pose proof (addCredits_sync CREDIT_PACK_SIZE s uid Hu) as A.
        cbv zeta in A. destruct (nextFault s); [congruence| |];
          destruct A as (_ & Ap & Ac); split; assumption.
      * intros _. unfold after. rewrite (addCredits_refused _ s Hu).
        split; reflexivity.
    + intros uid Hu Hf.
      pose proof (addCredits_sync CREDIT_PACK_SIZE s uid Hu) as A.
      cbv zeta in A. rewrite Hf in A. destruct A as (_ & Ap & Ac).
      split; assumption.
  - intros Hne. unfold result, after, checkPaymentStatus.
    destruct payment as [p|]; [|split; [reflexivity|intros n; discriminate]].
    destruct (String.eqb_spec p "success") as [->|_]; [congruence|].
    destruct (String.eqb p "cancelled");
      (split; [reflexivity|intros n; discriminate]).
Qed.

Lemma payment_toast_ignores_outcome_witness :
  result (checkPaymentStatus (Some "success"%string)) freshState =
    Val (Some (ToastCreditsAdded 25), true) /\
  purchasedCredits (after (checkPaymentStatus (Some "success"%string)) freshState) = 0 /\
  after (checkPaymentStatus (Some "cancelled"%string)) creditedState = creditedState.
Proof.
  destruct (payment_toast_ignores_outcome freshState (Some "success"%string))
    as [H _].
  destruct (H eq_refl) as (R & K & _).
  destruct (K (or_introl eq_refl)) as [P _].
  destruct (payment_toast_ignores_outcome creditedState (Some "cancelled"%string))
    as [_ H'].
  destruct (H' ltac:(discriminate)) as [E _].
  split; [exact R|]. split; [exact P|exact E].
Defined.

(** One visit of the success address by a signed-in user whose store
    answers: the balance is loaded, then the payment is credited. *)
Lemma success_visit uid s :
  signedIn s = Some uid -> reliable s ->
  let s' := after (loadCredits ;;; checkPaymentStatus (Some "success"%string)) s in
  signedIn s' = Some uid /\ reliable s' /\
  purchasedCredits s' = storedBalance s uid + CREDIT_PACK_SIZE /\
  storedBalance s' uid = storedBalance s uid + CREDIT_PACK_SIZE.
Proof.
  intros Hu Hrel. cbv zeta.
  pose proof (loadCredits_steady s) as St1.
  assert (Hl : loadCredits s = (Val (storedBalance s uid), after loadCredits s) /\
               purchasedCredits (after loadCredits s) = storedBalance s uid /\
               credits (after loadCredits s) = credits s).
  { unfold after. rewrite (loadCredits_run s uid Hu), (reliable_next s Hrel).
    repeat split; reflexivity. }
  destruct Hl as (Hl & Hp & Hc).
  set (s1 := after loadCredits s) in *.
  assert (Hu1 : signedIn s1 = Some uid)
    by (rewrite (steady_signedIn _ _ St1); exact Hu).
  pose proof (steady_reliable _ _ St1 Hrel) as Hrel1.
  assert (E : after (loadCredits ;;; checkPaymentStatus (Some "success"%string)) s =
              after (addCredits CREDIT_PACK_SIZE) s1).
  { unfold after at 1. rewrite (bind_run _ _ _ _ _ Hl).
    rewrite checkPaymentStatus_success. reflexivity. }
  rewrite E.
  pose proof (addCredits_steady CREDIT_PACK_SIZE s1) as St2.
  pose proof (addCredits_sync CREDIT_PACK_SIZE s1 uid Hu1) as A.
  cbv zeta in A. rewrite (reliable_next s1 Hrel1) in A.
  destruct A as (_ & Ap & Ac).
  split; [rewrite (steady_signedIn _ _ St2); exact Hu1|].
  split; [exact (steady_reliable _ _ St2 Hrel1)|].
  rewrite Ap, Ac, Hp. split; reflexivity.
Qed.

(** X11.  Nothing tells [checkPaymentStatus] whether a payment was
    credited before.  With [loadCredits] run first, as on a load of the
    page with a restored session, and a store that answers, a visit of
    the address of a successful payment raises the stored balance by
    exactly 25 and leaves the session in step with it; the same visit
    made again raises the stored balance by another 25. *)
Theorem success_address_credits_every_visit (s : State) (uid : string) :
  signedIn s = Some uid -> reliable s ->
  let visit := loadCredits ;;; checkPaymentStatus (Some "success"%string) in
  let s1 := after visit s in
  let s2 := after visit s1 in
  storedBalance s1 uid = storedBalance s uid + 25 /\
  purchasedCredits s1 = storedBalance s1 uid /\
  storedBalance s2 uid = storedBalance s uid + 50 /\
  purchasedCredits s2 = storedBalance s2 uid.
Proof.
  intros Hu Hrel. cbv zeta.
  destruct (success_visit uid s Hu Hrel) as (Hu1 & Hrel1 & Hp1 & Hs1).
  destruct (success_visit uid _ Hu1 Hrel1) as (_ & _ & Hp2 & Hs2).
  unfold CREDIT_PACK_SIZE in *.
  rewrite Hs2, Hp2, Hs1, Hp1. repeat split; lia.
Qed.

Lemma success_address_credits_every_visit_witness :
  signedIn creditedState = Some "u1"%string /\
  storedBalance creditedState "u1" = 3 /\
  storedBalance
    (after (loadCredits ;;; checkPaymentStatus (Some "success"%string))
       (after (loadCredits ;;; checkPaymentStatus (Some "success"%string))
          creditedState)) "u1" = 53.
Proof.
  split; [reflexivity|]. split; [reflexivity|].
  assert (H1 : signedIn creditedState = Some "u1"%string) by reflexivity.
  assert (H2 : reliable creditedState) by constructor.
  destruct (success_address_credits_every_visit creditedState "u1" H1 H2)
    as (_ & _ & E & _).
  rewrite E. reflexivity.
Defined.

(** ** One press of the generate button *)

Lemma useCredit_keeps_storage : frames (keeps localStorage) useCredit.
Proof.
  intros s. unfold keeps, after.
  destruct (signedIn s) as [uid|] eqn:Hu;
    [|rewrite (useCredit_refused s (or_introl Hu)); reflexivity].
  destruct (Z_lt_le_dec 0 (purchasedCredits s)) as [Hp|Hp];
    [|rewrite (useCredit_refused s (or_intror Hp)); reflexivity].
  rewrite (useCredit_run s uid Hu Hp). destruct (nextFault s); reflexivity.
Qed.

Lemma getUsageData_storage s s' :
  localStorage s' = localStorage s -> getUsageData s' = getUsageData s.
Proof. unfold getUsageData. intros ->. reflexivity. Qed.

(** What [consumeGeneration] does to the local record: the history is
    kept; the lifetime total goes up by one when a free generation or a
    credit is there to be taken, and the record is not written at all
    otherwise. *)
Lemma consumeGeneration_record s r :
  result getRemainingFreeGenerations s = Val r ->
  let d := getUsageData s in
  let s' := after consumeGeneration s in
  result consumeGeneration s = Val tt /\
  u_history (getUsageData s') = u_history d /\
  (0 < r \/ 0 < purchasedCredits s ->
     u_total (getUsageData s') = Some (orZero (u_total d) + 1)) /\
  (r <= 0 -> purchasedCredits s <= 0 -> localStorage s' = localStorage s).
Proof.
  intros Hr. cbv zeta.
  destruct (getRemaining_val s) as [r' Hr'].
  assert (r' = r) by (unfold result in Hr; rewrite Hr' in Hr; cbn in Hr; congruence).
  subst r'. clear Hr.
  destruct (getFreeUsageCount_frames s) as (_ & _ & _ & Hp & Hl & _).
  set (s1 := after getFreeUsageCount s) in *.
  pose proof (getUsageData_storage s s1 Hl) as Hd.
  assert (Hfin : forall s2,
    result (updateStats ;;; updateGenerateUsage) s2 = Val tt /\
    localStorage (after (updateStats ;;; updateGenerateUsage) s2) = localStorage s2).
  { intros s2. split.
    - destruct (refresh_total s2) as [[] H]. exact H.
    - apply (refresh_frames s2). }
  assert (Hrun : forall (body : M unit) sb,
    body s1 = (Val tt, sb) ->
    consumeGeneration s = (body ;;; updateStats ;;; updateGenerateUsage) s1 ->
    result consumeGeneration s = Val tt /\
    localStorage (after consumeGeneration s) = localStorage sb).
  { intros body sb Hb E. unfold result, after. rewrite E.
    rewrite (bind_run _ _ _ _ _ Hb). apply Hfin. }
  assert (E : consumeGeneration s =
    ((if 0 <? r then incrementUsage
      else if 0 <? purchasedCredits s then
        useCredit ;;;
        data <- gets getUsageData ;;
        saveUsageData {| u_count := u_count data; u_period := u_period data;
                         u_total := Some (orZero (u_total data) + 1);
                         u_history := u_history data |}
      else ret tt) ;;; updateStats ;;; updateGenerateUsage) s1).
  { unfold consumeGeneration. rewrite (bind_run _ _ _ _ _ Hr').
    unfold bind at 1, gets at 1. rewrite Hp. reflexivity. }
  destruct (Z.ltb_spec 0 r) as [Hpos|Hnpos].
  - pose proof (incrementUsage_run s1) as Hi. cbv zeta in Hi.
    destruct (Hrun _ _ Hi E) as [R L]. split; [exact R|].
    rewrite (proj2 (Hfin _)) in L. cbn [localStorage set_localStorage] in L.
    unfold getUsageData at 1 3. rewrite L, Hd. unfold incrementedUsage.
    split; [destruct (samePeriod _ _); reflexivity|].
    split; [intros _; destruct (samePeriod _ _); reflexivity|].
    intros; lia.
  - destruct (Z.ltb_spec 0 (purchasedCredits s)) as [Hc|Hc].
    + destruct (total_run _ s1 useCredit_total) as [ok Hok].
      pose proof (useCredit_keeps_storage s1) as K. unfold keeps in K.
      set (s2 := after useCredit s1) in *.
      assert (Hb : (useCredit ;;;
                    data <- gets getUsageData ;;
                    saveUsageData {| u_count := u_count data; u_period := u_period data;
                                     u_total := Some (orZero (u_total data) + 1);
                                     u_history := u_history data |}) s1 =
                   (Val tt,
                    set_localStorage
                      (Stored {| u_count := u_count (getUsageData s2);
                                 u_period := u_period (getUsageData s2);
                                 u_total := Some (orZero (u_total (getUsageData s2)) + 1);
                                 u_history := u_history (getUsageData s2) |}) s2)).
      { rewrite (bind_run _ _ _ _ _ Hok). reflexivity. }
      destruct (Hrun _ _ Hb E) as [R L]. split; [exact R|].
      cbn [localStorage set_localStorage] in L.
      unfold getUsageData at 1 3. rewrite L.
      rewrite (getUsageData_storage s1 s2 K), Hd. cbn.
      split; [reflexivity|]. split; [intros _; reflexivity|intros; lia].
    + assert (Hb : ret tt s1 = (Val tt, s1)) by reflexivity.
      destruct (Hrun _ _ Hb E) as [R L]. split; [exact R|].
      rewrite (getUsageData_storage _ _ (eq_trans L Hl)).
      split; [reflexivity|]. split; [intros [?|?]; lia|].
      intros _ _. rewrite L. exact Hl.
Qed.

Lemma consumeGeneration_total : total consumeGeneration.
Proof.
  intros s. destruct (getRemaining_val s) as [r Hr].
  exists tt. apply (consumeGeneration_record s r).
  unfold result. rewrite Hr. reflexivity.
Qed.

Lemma canGenerate_val s :
  exists b, canGenerate s = (Val b, after getFreeUsageCount s).
Proof.
  destruct (getFreeUsageCount_val s) as [used Hu].
  rewrite (canGenerate_run s used Hu). eauto.
Qed.

Lemma updateGenerateUsage_val s :
  updateGenerateUsage s = (Val tt, after updateGenerateUsage s).
Proof. destruct (total_run _ s updateGenerateUsage_total) as [[] H]. exact H. Qed.

(** The run of [generateOpeners], branch by branch. *)
Lemma generateOpeners_run selectedFile checkedMode fileReads reply displayThrows s :
  generateOpeners selectedFile checkedMode fileReads reply displayThrows s =
  if negb selectedFile then (Val (GenToast ToastUploadFirst), s)
  else
    let s1 := after getFreeUsageCount s in
    match result canGenerate s with
    | Val false => (Val (GenToast (ToastNoGenerations (hoursUntilReset (clock s1)))), s1)
    | Val true =>
        match checkedMode with
        | None => (Exn, s1)
        | Some mode =>
            if negb fileReads then (Exn, s1)
            else
              match reply with
              | FetchAnswers true {| r_matchName := name; r_openers := Some (o :: os);
                                     r_analysis := analysis; r_message := _ |} =>
                  let s3 := after (saveToHistory name (o :: os) mode analysis)
                              (after consumeGeneration s1) in
                  if displayThrows
                  then (Val (GenToast ToastErrorGenerating),
                        after updateGenerateUsage s3)
                  else (Val (GenShown (if String.eqb name "" then "Match" else name)
                                      (o :: os)), s3)
              | FetchThrows =>
                  (Val (GenToast ToastErrorGenerating), after updateGenerateUsage s1)
              | FetchAnswers _ data =>
                  (Val (GenToast (match r_message data with
                                  | Some msg =>
                                      if String.eqb msg "" then ToastFailedToGenerate
                                      else ToastMessage msg
                                  | None => ToastFailedToGenerate
                                  end)), after updateGenerateUsage s1)
              end
        end
    | Exn => (Exn, s1)
    end.
Proof.
  unfold generateOpeners. destruct selectedFile; [|reflexivity]. cbn [negb].
  destruct (canGenerate_val s) as [b Hb]. unfold result. rewrite Hb.
  rewrite (bind_run _ _ _ _ _ Hb). cbn [fst]. cbv zeta.
  destruct b; cbn [negb]; [|reflexivity].
  destruct checkedMode as [mode|]; [|reflexivity].
  destruct fileReads; cbn [negb]; [|reflexivity].
  set (s1 := after getFreeUsageCount s).
  assert (Hcatch : (updateGenerateUsage ;;; ret (GenToast ToastErrorGenerating)) s1 =
                   (Val (GenToast ToastErrorGenerating), after updateGenerateUsage s1)).
  { rewrite (bind_run _ _ _ _ _ (updateGenerateUsage_val _)). reflexivity. }
  unfold tryCatch.
  destruct reply as [|ok [name openers analysis message]].
  - unfold throw. exact Hcatch.
  - cbn [r_openers r_matchName r_analysis r_message].
    assert (Hno : forall msg : GenerateResult,
              (updateGenerateUsage ;;; ret msg) s1 =
              (Val msg, after updateGenerateUsage s1)).
    { intros msg. rewrite (bind_run _ _ _ _ _ (updateGenerateUsage_val _)).
      reflexivity. }
    destruct ok; [destruct openers as [[|o os]|]|]; try (rewrite Hno; reflexivity).
    destruct (total_run _ s1 consumeGeneration_total) as [[] Hc].
    rewrite (bind_run _ _ _ _ _ Hc).
    destruct (total_run _ (after consumeGeneration s1)
                (saveToHistory_total name (o :: os) mode analysis)) as [[] Hh].
    rewrite (bind_run _ _ _ _ _ Hh).
    destruct displayThrows; [|reflexivity].
    unfold throw.
    rewrite (bind_run _ _ _ _ _ (updateGenerateUsage_val _)). reflexivity.
Qed.

(** What a run that reaches [consumeGeneration] leaves in the local
    record once the entry is filed. *)
Lemma charged_record name openers mode analysis s :
  result canGenerate s = Val true ->
  let s3 := after (saveToHistory name openers mode analysis)
              (after consumeGeneration (after getFreeUsageCount s)) in
  let d := getUsageData s in
  let d' := getUsageData s3 in
  historyOf d' =
    take 50 (newItem (clock s) name openers mode analysis :: historyOf d) /\
  (u_total d' = u_total d \/ u_total d' = Some (orZero (u_total d) + 1)) /\
  (signedIn s = None \/ nextFault s <> Throws \/ 0 < purchasedCredits s ->
   u_total d' = Some (orZero (u_total d) + 1)).
Proof.
  intros Hcan. cbv zeta.
  pose proof (getFreeUsageCount_frames s) as L.
  pose proof (getFreeUsageCount_steady s) as St.
  set (s1 := after getFreeUsageCount s) in *.
  destruct (getRemaining_val s1) as [r1 Hr1].
  assert (Hr1' : result getRemainingFreeGenerations s1 = Val r1)
    by (unfold result; rewrite Hr1; reflexivity).
  destruct (consumeGeneration_record s1 r1 Hr1') as (Rc & Hh & Ht & Hn).
  pose proof (consumeGeneration_steady s1) as Sc.
  set (s2 := after consumeGeneration s1) in *.
  destruct (saveToHistory_history name openers mode analysis s2) as [Rs Hs].
  set (s3 := after (saveToHistory name openers mode analysis) s2) in *.
  assert (Hd1 : getUsageData s1 = getUsageData s)
    by (apply getUsageData_storage, L).
  assert (Hclk : clock s2 = clock s).
  { destruct Sc as (C2 & _). destruct St as (C1 & _). congruence. }
  assert (Htot3 : u_total (getUsageData s3) = u_total (getUsageData s2)).
  { subst s3. unfold saveToHistory, after, bind, gets, saveUsageData, modify.
    cbn [fst snd].
    match goal with |- context [match ?u with Some _ => _ | None => _ end ?x] =>
      destruct u as [uid|] end; [|reflexivity].
    match goal with |- context [tryCatch ?m ?h ?x] =>
      assert (K : localStorage (after (tryCatch m h) x) = localStorage x) end.
    { match goal with |- localStorage (after ?m ?x) = _ =>
        assert (F : frames (keeps localStorage) m) end.
      { apply frames_tryCatch; [typeclasses eauto | | apply frames_ret; typeclasses eauto].
        apply frames_bind; [typeclasses eauto | apply insertGeneration_keeps_storage |].
        intros _. apply frames_ret; typeclasses eauto. }
      apply F. }
    unfold after in K. unfold getUsageData at 1. rewrite K. reflexivity. }
  split.
  { rewrite Hs, Hclk. unfold historyOf. rewrite Hh, Hd1. reflexivity. }
  rewrite Htot3, <- Hd1.
  assert (Hp1 : purchasedCredits s1 = purchasedCredits s) by apply L.
  split.
  - destruct (Z_lt_le_dec 0 r1) as [H|H]; [right; apply Ht; left; exact H|].
    destruct (Z_lt_le_dec 0 (purchasedCredits s1)) as [H'|H'];
      [right; apply Ht; right; exact H'|].
    left. rewrite (getUsageData_storage _ _ (Hn H H')). reflexivity.
  - intros Hcase. apply Ht.
    destruct (Z_lt_le_dec 0 (purchasedCredits s)) as [Hpos|Hnp];
      [right; rewrite Hp1; exact Hpos|]. left.
    assert (Hset : settled s1 /\ result getFreeUsageCount s = Val (usedView s1)).
    { destruct (getFreeUsageCount_facts s) as (_ & _ & _ & Hsame & _ & Hnt).
      fold s1 in Hsame, Hnt.
      destruct Hcase as [Hanon|[Hnt'|Hpos]]; [|exact (Hnt Hnt')|lia].
      assert (Hst : settled s) by (unfold settled; rewrite Hanon; exact I).
      rewrite (Hsame Hst). split; [exact Hst|].
      unfold result. rewrite (settled_getFreeUsageCount s Hst). reflexivity. }
    destruct Hset as [Hset Hused].
    unfold result in Hcan. rewrite (canGenerate_run s _ Hused) in Hcan.
    cbn [fst] in Hcan. injection Hcan as Hcan.
    apply orb_true_iff in Hcan. destruct Hcan as [Hcan|Hcan];
      [|apply Z.ltb_lt in Hcan; lia].
    apply Z.ltb_lt in Hcan.
    rewrite (settled_getRemaining s1 Hset) in Hr1. injection Hr1 as <-.
    rewrite (getFreeLimit_sameLedgers _ _ L). exact Hcan.
Qed.

(** X12.  [generateOpeners] charges and files only where it reaches
    [consumeGeneration]: every other run, whether it ends with a toast
    or with the rejection of the mode lookup or of the reading of the
    file, leaves the balance of the session, the local record, the
    stored credits and the stored generations as they were.  It rejects
    exactly when, with a file selected and the gate open, no mode is
    checked or the file cannot be read.  Openers are shown only after
    the charge; and when showing them throws, the toast ['Error
    generating'] comes up although the generation is consumed and the
    entry filed. *)
Theorem generate_charges_only_for_openers
    (selectedFile : bool) (checkedMode : option string) (fileReads : bool)
    (reply : Fetched) (displayThrows : bool) (s : State) :
  let m := generateOpeners selectedFile checkedMode fileReads reply displayThrows in
  let reached := reachesCharge selectedFile checkedMode fileReads reply s in
  (result m s = Exn <->
   selectedFile = true /\ result canGenerate s = Val true /\
   (checkedMode = None \/ fileReads = false)) /\
  (~ reached -> sameLedgers s (after m s)) /\
  (forall name os, result m s = Val (GenShown name os) ->
     reached /\ displayThrows = false) /\
  (reached -> displayThrows = true ->
     result m s = Val (GenToast ToastErrorGenerating) /\
     after m s =
       after updateGenerateUsage
         (after (generateOpeners selectedFile checkedMode fileReads reply false) s)).
Proof.
  cbv zeta. unfold reachesCharge, result, after.
  rewrite !generateOpeners_run.
  destruct selectedFile; cbn [negb].
  2:{ split; [split; [discriminate|intros (H & _); discriminate]|].
      split; [intros _; reflexivity|].
      split; [discriminate|]. intros (H & _); discriminate. }
  cbv zeta. pose proof (getFreeUsageCount_frames s) as L.
  set (s1 := after getFreeUsageCount s) in *.
  destruct (canGenerate_val s) as [b Hb]. unfold result. rewrite Hb. cbn [fst].
  assert (Hu : sameLedgers s (after updateGenerateUsage s1))
    by (etransitivity; [exact L|apply updateGenerateUsage_frames]).
  destruct b.
  2:{ split; [split; [discriminate|intros (_ & H & _); discriminate]|].
      split; [intros _; exact L|].
      split; [discriminate|]. intros (_ & H & _); discriminate. }
  destruct checkedMode as [mode|].
  2:{ split; [split; [intros _; repeat split; left; reflexivity|reflexivity]|].
      split; [intros _; exact L|].
      split; [discriminate|]. intros (_ & _ & H & _). congruence. }
  destruct fileReads; cbn [negb].
  2:{ split; [split; [intros _; repeat split; right; reflexivity|reflexivity]|].
      split; [intros _; exact L|].
      split; [discriminate|]. intros (_ & _ & _ & H & _). discriminate. }
  assert (Hnot : forall A (x : A),
            (Val x = @Exn A <->
             true = true /\ Val true = Val true /\
             (Some mode = None \/ true = false))).
  { intros A x. split; [discriminate|].
    intros (_ & _ & [H|H]); discriminate. }
  destruct reply as [|ok [name openers analysis message]].
  { split; [cbn [fst]; apply Hnot|]. split; [intros _; exact Hu|].
    split; [discriminate|].
    intros (_ & _ & _ & _ & data & o & os & E & _). discriminate. }
  destruct ok; [destruct openers as [[|o os]|]|].
  1,3,4: (split; [cbn [fst]; apply Hnot|]); (split; [intros _; exact Hu|]);
       (split; [discriminate|]);
       intros (_ & _ & _ & _ & data & o' & os' & E & E');
       first [discriminate E | injection E as <-; cbn in E'; discriminate].
  assert (Hreached : true = true /\ Val true = Val true /\ Some mode <> None /\
                     true = true /\
                     exists data o' os',
                       FetchAnswers true
                         {| r_matchName := name; r_openers := Some (o :: os);
                            r_analysis := analysis; r_message := message |} =
                       FetchAnswers true data /\
                       r_openers data = Some (o' :: os')).
  { repeat split; try discriminate. eexists _, o, os. split; reflexivity. }
  cbv zeta. destruct displayThrows; cbn [fst snd].
  - split; [cbn [fst]; apply Hnot|]. split; [intros Hn; exfalso; exact (Hn Hreached)|].
    split; [discriminate|]. intros _ _. split; reflexivity.
  - split; [cbn [fst]; apply Hnot|]. split; [intros Hn; exfalso; exact (Hn Hreached)|].
    split; [intros name' os' _; split; [exact Hreached|reflexivity]|].
    intros _ H; discriminate.
Qed.

(** X13.  When [generateOpeners] shows openers, the entry it files is
    the first of the local history, which is cut to 50 entries, and the
    lifetime total of the local record has gone up by at most one.  It
    has gone up by exactly one when the visitor is anonymous, or the
    first query of the free count did not throw, or the session holds a
    credit. *)
Theorem generate_success_files_entry
    (mode : string) (data : Generated) (o : Opener) (os : list Opener) (s : State) :
  result canGenerate s = Val true ->
  r_openers data = Some (o :: os) ->
  let m := generateOpeners true (Some mode) true (FetchAnswers true data) false in
  let d := getUsageData s in
  let d' := getUsageData (after m s) in
  result m s =
    Val (GenShown (if String.eqb (r_matchName data) "" then "Match"%string
                   else r_matchName data) (o :: os)) /\
  historyOf d' =
    take 50 (newItem (clock s) (r_matchName data) (o :: os) mode (r_analysis data)
             :: historyOf d) /\
  (u_total d' = u_total d \/ u_total d' = Some (orZero (u_total d) + 1)) /\
  (signedIn s = None \/ nextFault s <> Throws \/ 0 < purchasedCredits s ->
   u_total d' = Some (orZero (u_total d) + 1)).
Proof.
  intros Hcan Hop. cbv zeta. unfold result at 1, after.
  rewrite generateOpeners_run. cbn [negb]. cbv zeta. rewrite Hcan.
  destruct data as [name openers analysis message].
  cbn [r_openers r_matchName r_analysis] in *. subst openers.
  cbn [fst snd].
  split; [reflexivity|].
  exact (charged_record name (o :: os) mode analysis s Hcan).
Qed.

Lemma generate_success_files_entry_witness :
  result canGenerate freshState = Val true /\
  u_total (getUsageData
             (after (generateOpeners true (Some "flirty"%string) true
                       (FetchAnswers true oneOpener) false)
                freshState)) = Some 1.
Proof.
  assert (H1 : result canGenerate freshState = Val true) by (vm_compute; reflexivity).
  split; [exact H1|].
  destruct (generate_success_files_entry "flirty" oneOpener _ _ freshState H1 eq_refl)
    as (_ & _ & _ & K).
  exact (K (or_introl eq_refl)).
Defined.

(** An answer whose openers cannot be shown: the visitor is told
    ['Error generating'] and has one free generation less. *)
Example charged_though_display_throws :
  result (generateOpeners true (Some "flirty"%string) true
            (FetchAnswers true oneOpener) true) freshState
    = Val (GenToast ToastErrorGenerating) /\
  result getRemainingFreeGenerations
    (after (generateOpeners true (Some "flirty"%string) true
              (FetchAnswers true oneOpener) true) freshState) = Val 4 /\
  result (generateOpeners true None true (FetchAnswers true oneOpener) false)
    freshState = Exn.
Proof. vm_compute. repeat split; reflexivity. Qed.

(** ** The history in the store *)

(** X14.  [saveToHistory] writes the local record first, and what it
    writes does not depend on the store: the counters are kept and the
    new entry heads the history, cut to 50 entries.  For an anonymous
    visitor it makes no remote call; for a signed-in user it makes
    exactly one, an insert whose payload carries the user id and the
    four arguments of the call. *)
Theorem history_entry_mirrored
    (name : string) (os : list Opener) (mode : string) (analysis : option string)
    (s : State) :
  let s' := after (saveToHistory name os mode analysis) s in
  let d := getUsageData s in
  localStorage s' =
    Stored {| u_count := u_count d; u_period := u_period d; u_total := u_total d;
              u_history :=
                Some (take 50 (newItem (clock s) name os mode analysis
                               :: historyOf d)) |} /\
  (signedIn s = None -> calls s' = calls s) /\
  (forall uid, signedIn s = Some uid ->
     exists row,
       calls s' = InsertGeneration row :: calls s /\
       user_id row = uid /\ match_name row = name /\ g_openers row = os /\
       g_mode row = mode /\ g_analysis row = analysis).
Proof.
  cbv zeta.
  set (s1 := set_localStorage
               (Stored {| u_count := u_count (getUsageData s);
                          u_period := u_period (getUsageData s);
                          u_total := u_total (getUsageData s);
                          u_history :=
                            Some (take 50 (newItem (clock s) name os mode analysis
                                           :: historyOf (getUsageData s))) |}) s).
  assert (E : saveToHistory name os mode analysis s =
    match signedIn s with
    | Some uid =>
        tryCatch
          (insertGeneration {| user_id := uid; match_name := name;
                               g_openers := os; g_mode := mode;
                               g_analysis := analysis;
                               created_at := isoNow (clock s) |} ;;;
           ret tt)
          (ret tt) s1
    | None => (Val tt, s1)
    end).
  { unfold saveToHistory, bind, gets, saveUsageData, modify.
    change (signedIn (set_localStorage _ s)) with (signedIn s).
    destruct (signedIn s); reflexivity. }
  unfold after. rewrite E.
  destruct (signedIn s) as [uid|].
  - unfold tryCatch, bind. rewrite insertGeneration_run.
    change (nextFault s1) with (nextFault s).
    destruct (nextFault s); cbn [fst snd];
      (split; [reflexivity|]); (split; [discriminate|]);
      intros u Eu; injection Eu as <-; eexists; repeat split; reflexivity.
  - split; [reflexivity|]. split; [intros _; reflexivity|].
    intros u; discriminate.
Qed.

Lemma history_entry_mirrored_witness :
  signedIn throwingState = Some "u1"%string /\
  nextFault throwingState = Throws /\
  length (calls (after (saveToHistory "Alex" [] "flirty" None) throwingState)) = 1%nat /\
  historyOf (getUsageData
               (after (saveToHistory "Alex" [] "flirty" None) throwingState)) =
    [newItem noonJan10 "Alex" [] "flirty" None].
Proof.
  assert (H1 : signedIn throwingState = Some "u1"%string) by reflexivity.
  split; [exact H1|]. split; [reflexivity|].
  destruct (history_entry_mirrored "Alex" [] "flirty" None throwingState)
    as (Hl & _ & K).
  destruct (K _ H1) as (row & Hc & _).
  split; [rewrite Hc; reflexivity|].
  unfold getUsageData. rewrite Hl. reflexivity.
Defined.

Lemma migrateItems_steady uid items : frames steady (migrateItems uid items).
Proof.
  induction items as [|item items IH]; cbn [migrateItems]; steady_tac.
Qed.

#[export] Hint Resolve migrateItems_steady : js.

Lemma migrate_steady : frames steady migrateLocalHistoryToCloud.
Proof. unfold migrateLocalHistoryToCloud. steady_tac. Qed.

Lemma rowsOf_app uid g h : rowsOf uid (g ++ h) = rowsOf uid g ++ rowsOf uid h.
Proof. unfold rowsOf. apply List.filter_app. Qed.

Lemma rowsOf_migrated uid item rest :
  rowsOf uid (map (migratedRow uid) (item :: rest)) <> [].
Proof.
  unfold rowsOf. cbn [map List.filter migratedRow user_id].
  rewrite String.eqb_refl. discriminate.
Qed.

(** X15.  With a store that answers every call, the migration of the
    local history is done once: it returns, and a second run right after
    it makes no insert and leaves the stored generations as the first
    run left them.  For a user without a stored row the first run has
    stored the first 20 local entries, in their order. *)
Theorem migration_runs_once_when_store_answers (s : State) :
  reliable s ->
  let s1 := after migrateLocalHistoryToCloud s in
  let s2 := after migrateLocalHistoryToCloud s1 in
  result migrateLocalHistoryToCloud s = Val tt /\
  result migrateLocalHistoryToCloud s1 = Val tt /\
  generations s2 = generations s1 /\
  insertsMade s2 = insertsMade s1 /\
  (forall uid, signedIn s = Some uid -> rowsOf uid (generations s) = [] ->
     generations s1 =
       generations s ++
       map (migratedRow uid) (take 20 (historyOf (getUsageData s)))).
Proof.
  intros Hrel. cbv zeta.
  pose proof (migrate_steady s) as St.
  set (s1 := after migrateLocalHistoryToCloud s) in *.
  pose proof (steady_reliable _ _ St Hrel) as Hrel1.
  pose proof (steady_signedIn _ _ St) as Hu1.
  destruct (signedIn s) as [uid|] eqn:Hu.
  2:{ assert (E : migrateLocalHistoryToCloud s = (Val tt, s))
        by (apply migrate_idle; left; exact Hu).
      clear St Hrel1 Hu1. subst s1. unfold result, after.
      rewrite E. cbn [fst snd]. rewrite E. cbn [fst snd].
      repeat split; try reflexivity. intros ? ?; discriminate. }
  destruct (migration_when_check_answers s uid Hu (reliable_next s Hrel))
    as (R & L & _ & Hsome & Hnone).
  fold s1 in L, Hsome, Hnone.
  destruct (migration_when_check_answers s1 uid Hu1 (reliable_next s1 Hrel1))
    as (R1 & _ & _ & Hsome1 & Hnone1).
  split; [exact R|]. split; [exact R1|].
  assert (Hd : getUsageData s1 = getUsageData s)
    by (apply getUsageData_storage, L).
  assert (K : generations (after migrateLocalHistoryToCloud s1) = generations s1 /\
              insertsMade (after migrateLocalHistoryToCloud s1) = insertsMade s1).
  { destruct (rowsOf uid (generations s1)) as [|row rows] eqn:Hrows;
      [|apply Hsome1; discriminate].
    destruct (Hnone1 eq_refl) as (Hi & _ & Hg). specialize (Hg Hrel1).
    rewrite Hd in Hi, Hg.
    destruct (historyOf (getUsageData s)) as [|item hist] eqn:Hh.
    - cbn in Hi, Hg. rewrite app_nil_r in Hg. split; [exact Hg|lia].
    - exfalso.
      destruct (rowsOf uid (generations s)) as [|row rows] eqn:Hrows0.
      + destruct (Hnone eq_refl) as (_ & _ & Hg0). specialize (Hg0 Hrel).
        rewrite Hg0, rowsOf_app in Hrows.
        apply app_eq_nil in Hrows. destruct Hrows as [_ Hrows].
        exact (rowsOf_migrated uid item (take 19 hist) Hrows).
      + destruct Hsome as [Hg0 _]; [discriminate|].
        rewrite Hg0, Hrows0 in Hrows. discriminate. }
  destruct K as [Kg Ki]. split; [exact Kg|]. split; [exact Ki|].
  intros u E Hrows. injection E as <-.
  destruct (Hnone Hrows) as (_ & _ & Hg0). exact (Hg0 Hrel).
Qed.

Lemma migration_runs_once_when_store_answers_witness :
  reliable firstSignIn /\
  generations (after migrateLocalHistoryToCloud firstSignIn) =
    [migratedRow "u1" savedItem] /\
  generations (after migrateLocalHistoryToCloud
                 (after migrateLocalHistoryToCloud firstSignIn)) =
    [migratedRow "u1" savedItem].
Proof.
  assert (H : reliable firstSignIn) by constructor.
  split; [exact H|].
  destruct (migration_runs_once_when_store_answers firstSignIn H)
    as (_ & _ & E2 & _ & E1).
  assert (G : generations (after migrateLocalHistoryToCloud firstSignIn) =
              [migratedRow "u1" savedItem])
    by (rewrite (E1 "u1"%string eq_refl eq_refl); reflexivity).
  split; [exact G|]. rewrite E2. exact G.
Defined.

(** ** The age of a history entry *)

(** X16.  [getTimeAgo] never shows a zero and never a number the next
    unit would take over: minutes run from 1 to 59, hours from 1 to 23,
    days start at 1, the number is the count of whole units elapsed, and
    anything under a minute, a date in the future included, is
    ['just now']. *)
Theorem time_ago_counts_whole_units (elapsedMs : Z) :
  match getTimeAgo elapsedMs with
  | JustNow => elapsedMs < 60000
  | MinutesAgo n =>
      1 <= n <= 59 /\ n * 60000 <= elapsedMs < (n + 1) * 60000
  | HoursAgo n =>
      1 <= n <= 23 /\ n * 3600000 <= elapsedMs < (n + 1) * 3600000
  | DaysAgo n =>
      1 <= n /\ n * 86400000 <= elapsedMs < (n + 1) * 86400000
  end.
Proof.
  unfold getTimeAgo. cbv zeta.
  set (seconds := elapsedMs / 1000).
  assert (Hs : 1000 * seconds <= elapsedMs < 1000 * seconds + 1000).
  { subst seconds. pose proof (Z.div_mod elapsedMs 1000 ltac:(lia)).
    pose proof (Z.mod_pos_bound elapsedMs 1000 ltac:(lia)). lia. }
  destruct (Z.ltb_spec seconds 60) as [H1|H1]; [lia|].
  destruct (Z.ltb_spec seconds 3600) as [H2|H2].
  { pose proof (Z.div_mod seconds 60 ltac:(lia)).
    pose proof (Z.mod_pos_bound seconds 60 ltac:(lia)). lia. }
  destruct (Z.ltb_spec seconds 86400) as [H3|H3].
  { pose proof (Z.div_mod seconds 3600 ltac:(lia)).
    pose proof (Z.mod_pos_bound seconds 3600 ltac:(lia)). lia. }
  pose proof (Z.div_mod seconds 86400 ltac:(lia)).
  pose proof (Z.mod_pos_bound seconds 86400 ltac:(lia)). lia.
Qed.

(** * The server *)

(** ** The image of a request *)

Lemma includes_In x l : includes x l = true <-> In x l.
Proof.
  unfold includes. rewrite existsb_exists. split.
  - intros (y & Hy & E). apply String.eqb_eq in E. subst y. exact Hy.
  - intros H. exists x. split; [exact H|apply String.eqb_refl].
Qed.

Lemma paddingToEnd_allChars text :
  paddingToEnd text = allChars (fun c => Ascii.eqb c "=") text.
Proof. induction text as [|c r IH]; cbn; [reflexivity|]. rewrite IH. reflexivity. Qed.

Lemma padding_bodyThenPadding pad :
  paddingToEnd pad = true -> bodyThenPadding pad = true.
Proof.
  destruct pad as [|c r]; [reflexivity|]. intros H. cbn [bodyThenPadding].
  destruct (isBase64Char c) eqn:E; [|exact H].
  cbn in H. apply andb_true_iff in H. destruct H as [H _].
  apply Ascii.eqb_eq in H. subst c. discriminate.
Qed.

(** The matcher is the expression: some characters of the class, then
    equals signs up to the end. *)
Lemma bodyThenPadding_spec text :
  bodyThenPadding text = true <->
  exists body pad,
    text = String.append body pad /\
    allChars isBase64Char body = true /\ paddingToEnd pad = true.
Proof.
  split.
  - induction text as [|c r IH]; intros H.
    + exists EmptyString, EmptyString. repeat split.
    + cbn [bodyThenPadding] in H. destruct (isBase64Char c) eqn:E.
      * destruct (IH H) as (body & pad & -> & Hb & Hp).
        exists (String c body), pad. rewrite append_String.
        split; [reflexivity|]. split; [cbn; rewrite E; exact Hb|exact Hp].
      * exists EmptyString, (String c r). repeat split. exact H.
  - intros (body & pad & -> & Hb & Hp).
    induction body as [|c b IH].
    + apply padding_bodyThenPadding. exact Hp.
    + cbn in Hb. apply andb_true_iff in Hb. destruct Hb as [Hc Hb].
      rewrite append_String. cbn [bodyThenPadding]. rewrite Hc. exact (IH Hb).
Qed.

Lemma base64Regex_spec text :
  base64Regex text = true <->
  exists body pad,
    text = String.append body pad /\ body <> EmptyString /\
    allChars isBase64Char body = true /\ paddingToEnd pad = true.
Proof.
  split.
  - destruct text as [|c r]; [discriminate|]. cbn [base64Regex]. intros H.
    apply andb_true_iff in H. destruct H as [Hc Hr].
    apply bodyThenPadding_spec in Hr. destruct Hr as (body & pad & -> & Hb & Hp).
    exists (String c body), pad. rewrite append_String.
    split; [reflexivity|]. split; [discriminate|].
    split; [cbn; rewrite Hc; exact Hb|exact Hp].
  - intros (body & pad & -> & Hne & Hb & Hp).
    destruct body as [|c b]; [congruence|].
    cbn in Hb. apply andb_true_iff in Hb. destruct Hb as [Hc Hb].
    rewrite append_String. cbn [base64Regex]. rewrite Hc. cbn.
    apply bodyThenPadding_spec. exists b, pad. repeat split; assumption.
Qed.

(** X17.  [validateImage] accepts exactly a string of at most 7000000
    characters, declared under one of the three allowed media types,
    that with its white space taken out is a run of one or more
    characters of the base64 alphabet followed by any number of equals
    signs. *)
Theorem validateImage_accepts_exactly (image mediaType : option string) :
  validateImage image mediaType = Valid <->
  exists text body pad m,
    image = Some text /\
    Z.of_nat (String.length text) <= 7000000 /\
    mediaType = Some m /\
    In m ALLOWED_MEDIA_TYPES /\
    stripSpace text = String.append body pad /\
    body <> EmptyString /\
    allChars isBase64Char body = true /\
    allChars (fun c => Ascii.eqb c "=") pad = true.
Proof.
  split.
  - unfold validateImage. destruct image as [[|c r]|]; try discriminate.
    destruct (Z.gtb_spec (Z.of_nat (String.length (String c r))) 7000000) as [|Hlen];
      [discriminate|].
    destruct mediaType as [m|]; [|discriminate].
    destruct (includes m ALLOWED_MEDIA_TYPES) eqn:Hin; [|discriminate].
    destruct (base64Regex (stripSpace (String c r))) eqn:Hre; [|discriminate].
    intros _. apply includes_In in Hin.
    apply base64Regex_spec in Hre. destruct Hre as (body & pad & E & Hne & Hb & Hp).
    exists (String c r), body, pad, m. rewrite paddingToEnd_allChars in Hp.
    repeat split; assumption.
  - intros (text & body & pad & m & -> & Hlen & -> & Hin & E & Hne & Hb & Hp).
    assert (Hre : base64Regex (stripSpace text) = true).
    { apply base64Regex_spec. exists body, pad.
      rewrite paddingToEnd_allChars. repeat split; assumption. }
    unfold validateImage. destruct text as [|c r].
    { cbn in Hre. discriminate. }
    destruct (Z.gtb_spec (Z.of_nat (String.length (String c r))) 7000000); [lia|].
    apply includes_In in Hin. rewrite Hin, Hre. reflexivity.
Qed.

Lemma validateImage_accepts_exactly_witness :
  validateImage (Some "iVBORw0KGgo="%string) (Some "image/png"%string) = Valid.
Proof.
  apply validateImage_accepts_exactly.
  exists "iVBORw0KGgo=", "iVBORw0KGgo", "=", "image/png".
  repeat split; try reflexivity; [cbn; lia | right; left; reflexivity | discriminate].
Defined.

Lemma detectMediaType_allowed image declared :
  In declared ALLOWED_MEDIA_TYPES ->
  exists detected,
    detectMediaType image (Some declared) = Some detected /\
    In detected ALLOWED_MEDIA_TYPES.
Proof.
  intros H. unfold detectMediaType.
  destruct (String.prefix "/9j/" image);
    [eexists; split; [reflexivity|left; reflexivity]|].
  destruct (String.prefix "iVBOR" image);
    [eexists; split; [reflexivity|right; left; reflexivity]|].
  destruct (String.prefix "UklGR" image);
    [eexists; split; [reflexivity|right; right; left; reflexivity]|].
  eexists; split; [reflexivity|exact H].
Qed.

Lemma validateImage_valid image mediaType :
  validateImage image mediaType = Valid ->
  (exists text, image = Some text) /\
  (exists m, mediaType = Some m /\ In m ALLOWED_MEDIA_TYPES).
Proof.
  unfold validateImage. destruct image as [[|c r]|]; try discriminate.
  destruct (_ >? _); [discriminate|].
  destruct mediaType as [m|]; [|discriminate].
  destruct (includes m ALLOWED_MEDIA_TYPES) eqn:Hin; [|discriminate].
  intros _. split; [eauto|]. exists m. split; [reflexivity|].
  apply includes_In; exact Hin.
Qed.

Lemma validateImage_errors image mediaType error :
  validateImage image mediaType = Invalid error ->
  In error ["No image data provided"%string;
            "Image too large. Maximum size is 5MB."%string;
            "Invalid image type. Please upload a JPG, PNG, or WebP."%string;
            "Invalid image format."%string].
Proof.
  unfold validateImage. destruct image as [[|c r]|].
  1,3: intros E; injection E as <-; left; reflexivity.
  destruct (_ >? _); [intros E; injection E as <-; right; left; reflexivity|].
  destruct (negb _); [intros E; injection E as <-; right; right; left; reflexivity|].
  destruct (negb _); [|discriminate].
  intros E; injection E as <-. right; right; right; left; reflexivity.
Qed.

(** X18.  The checks at the head of the [/api/generate] handler: the
    request goes on only with one of the six modes and an image
    [validateImage] accepts, and the media type it goes on with is one
    of the three allowed types whatever the request declared; every
    other request is answered with one of five errors, a [mediaType]
    that is neither falsy nor a string among them; the test of the
    first characters of the image is never reached with an image that
    is not a string. *)
Theorem request_checks_guard_the_model
    (image mode : option string) (mediaType : BodyField) :
  (match checkGenerateRequest image mode mediaType with
   | Proceeds detected =>
       (exists t, detected = Some t /\ In t ALLOWED_MEDIA_TYPES) /\
       (exists m, mode = Some m /\ In m allowedModes) /\
       validateImage image (declaredMediaType mediaType) = Valid
   | BadRequest error =>
       In error ["Invalid mode selected"%string;
                 "No image data provided"%string;
                 "Image too large. Maximum size is 5MB."%string;
                 "Invalid image type. Please upload a JPG, PNG, or WebP."%string;
                 "Invalid image format."%string]
   | StartsWithThrows => False
   end) /\
  (mediaType = Truthy ->
   exists error, checkGenerateRequest image mode mediaType = BadRequest error).
Proof.
  split.
  - unfold checkGenerateRequest.
    destruct mode as [m|]; cbn [negb]; [|left; reflexivity].
    destruct (includes m allowedModes) eqn:Hm; cbn [negb]; [|left; reflexivity].
    destruct (validateImage image (declaredMediaType mediaType)) as [|error] eqn:Hv.
    + destruct (validateImage_valid _ _ Hv) as [[text ->] (d & Hd & Hin)].
      rewrite Hd.
      split; [apply detectMediaType_allowed; exact Hin|].
      split; [exists m; split; [reflexivity|apply includes_In; exact Hm]|reflexivity].
    + right. exact (validateImage_errors _ _ _ Hv).
  - intros ->. unfold checkGenerateRequest.
    destruct (negb _); [eexists; reflexivity|].
    cbn [declaredMediaType].
    destruct (validateImage image None) as [|error] eqn:Hv; [|eexists; reflexivity].
    destruct (validateImage_valid _ _ Hv) as [_ (d & Hd & _)]. discriminate.
Qed.

(** A request that declares the number 5 as its media type is turned
    away, whatever its image; one that declares a WebP image and sends a
    JPEG goes on as a JPEG. *)
Example request_with_odd_media_type :
  checkGenerateRequest (Some "/9j/4AAQ"%string) (Some "flirty"%string) Truthy =
    BadRequest "Invalid image type. Please upload a JPG, PNG, or WebP." /\
  checkGenerateRequest (Some "/9j/4AAQ"%string) (Some "flirty"%string)
    (Str "image/webp") = Proceeds (Some "image/jpeg"%string) /\
  checkGenerateRequest (Some "/9j/4AAQ"%string) (Some "flirty"%string) Falsy =
    Proceeds (Some "image/jpeg"%string).
Proof. vm_compute. repeat split; reflexivity. Qed.

(** ** The text put into a prompt *)

Lemma replaceFrom_skip p k : forall text,
  replaceFrom p k text = replaceFrom p 0 (sliceFrom k text).
Proof.
  induction k as [|k IH]; intros [|c r]; try reflexivity.
  cbn [replaceFrom sliceFrom]. apply IH.
Qed.

Lemma length_sliceFrom k : forall text,
  (String.length (sliceFrom k text) <= String.length text)%nat.
Proof.
  induction k as [|k IH]; intros [|c r]; cbn [sliceFrom String.length]; try lia.
  specialize (IH r). lia.
Qed.

Lemma occursIn_matchesAt q text :
  occursIn q text = false -> matchesAt q text = false.
Proof.
  destruct text; cbn [occursIn]; intros H; apply orb_false_iff in H; apply H.
Qed.

Lemma occursIn_tail q c rest :
  occursIn q (String c rest) = false -> occursIn q rest = false.
Proof. cbn [occursIn]. intros H. apply orb_false_iff in H. apply H. Qed.

Lemma occursIn_sliceFrom q k : forall text,
  occursIn q text = false -> occursIn q (sliceFrom k text) = false.
Proof.
  induction k as [|k IH]; intros [|c r] H; try exact H.
  cbn [sliceFrom]. apply IH. exact (occursIn_tail _ _ _ H).
Qed.

Lemma noBracket_head a q :
  noBracket (String a q) = true ->
  eqIgnoreCase a "[" = false /\ eqIgnoreCase a "]" = false /\ noBracket q = true.
Proof.
  cbn [noBracket]. intros H.
  apply andb_true_iff in H. destruct H as [H H3].
  apply andb_true_iff in H. destruct H as [H1 H2].
  apply negb_true_iff in H1. apply negb_true_iff in H2. auto.
Qed.

(** A match found in the replaced text that has no bracket in it was a
    match in the text. *)
Lemma matchesAt_replaced p q : forall text,
  noBracket q = true ->
  matchesAt q (replaceFrom p 0 text) = true -> matchesAt q text = true.
Proof.
  induction q as [|a q IH]; intros text Hq H; [reflexivity|].
  destruct (noBracket_head _ _ Hq) as (Hl & _ & Hq').
  destruct text as [|c r]; [cbn in H; discriminate|].
  cbn [replaceFrom] in H. destruct (matchesAt p (String c r)).
  - change (String.append "[removed]" ?x) with (String "[" (String.append "removed]" x)) in H.
    cbn [matchesAt] in H. rewrite Hl in H. discriminate.
  - cbn [matchesAt] in H |- *. apply andb_true_iff in H. destruct H as [H1 H2].
    rewrite H1. cbn. exact (IH r Hq' H2).
Qed.

Lemma matchesAt_before_bracket q : forall u rest,
  noBracket q = true ->
  matchesAt q (String.append u (String "]" rest)) = true -> matchesAt q u = true.
Proof.
  induction q as [|a q IH]; intros u rest Hq H; [reflexivity|].
  destruct (noBracket_head _ _ Hq) as (_ & Hr & Hq').
  destruct u as [|c u].
  - change (matchesAt (String a q) (String "]" rest) = true) in H.
    cbn [matchesAt] in H. rewrite Hr in H. discriminate.
  - rewrite append_String in H. cbn [matchesAt] in H |- *.
    apply andb_true_iff in H. destruct H as [H1 H2].
    rewrite H1. cbn. exact (IH u rest Hq' H2).
Qed.

Lemma occursIn_before_bracket q u rest :
  q <> EmptyString -> noBracket q = true ->
  occursIn q u = false -> occursIn q rest = false ->
  occursIn q (String.append u (String "]" rest)) = false.
Proof.
  intros Hne Hq Hu Hrest. induction u as [|c u IH].
  - change (occursIn q (String "]" rest) = false).
    cbn [occursIn]. rewrite Hrest, orb_false_r.
    destruct q as [|a q]; [congruence|].
    destruct (noBracket_head _ _ Hq) as (_ & Hr & _).
    cbn [matchesAt]. rewrite Hr. reflexivity.
  - rewrite append_String. cbn [occursIn].
    rewrite (IH (occursIn_tail _ _ _ Hu)), orb_false_r.
    destruct (matchesAt q (String c (String.append u (String "]" rest)))) eqn:M;
      [|reflexivity].
    rewrite <- append_String in M.
    apply (matchesAt_before_bracket q _ _ Hq) in M.
    rewrite (occursIn_matchesAt _ _ Hu) in M. discriminate.
Qed.

Lemma plainPhrase_parts q :
  plainPhrase q = true ->
  q <> EmptyString /\ noBracket q = true /\ occursIn q "removed" = false.
Proof.
  unfold plainPhrase. intros H.
  apply andb_true_iff in H. destruct H as [H H3].
  apply andb_true_iff in H. destruct H as [H1 H2].
  apply negb_true_iff in H1. apply negb_true_iff in H3.
  split; [|split; assumption].
  intros ->. discriminate.
Qed.

Lemma occursIn_behind_marker q rest :
  plainPhrase q = true -> occursIn q rest = false ->
  occursIn q (String.append "[removed]" rest) = false.
Proof.
  intros Hq Hrest. destruct (plainPhrase_parts q Hq) as (Hne & Hb & Hrem).
  change (String.append "[removed]" rest)
    with (String "[" (String.append "removed" (String "]" rest))).
  cbn [occursIn].
  rewrite (occursIn_before_bracket q "removed" rest Hne Hb Hrem Hrest), orb_false_r.
  destruct q as [|a q]; [congruence|].
  destruct (noBracket_head _ _ Hb) as (Hl & _ & _).
  cbn [matchesAt]. rewrite Hl. reflexivity.
Qed.

(** One call of [replace]: the phrase it replaces is gone, and a plain
    phrase that did not occur before does not occur after. *)
Lemma replaceFrom_clean p q :
  plainPhrase q = true ->
  forall n text, (String.length text <= n)%nat ->
    q = p \/ occursIn q text = false ->
    occursIn q (replaceFrom p 0 text) = false.
Proof.
  intros Hq. destruct (plainPhrase_parts q Hq) as (Hne & Hb & _).
  induction n as [|n IH]; intros text Hlen Hcase.
  - destruct text as [|c r]; [|cbn in Hlen; lia].
    destruct q as [|a q]; [congruence|reflexivity].
  - destruct text as [|c r].
    { destruct q as [|a q]; [congruence|reflexivity]. }
    cbn [String.length] in Hlen.
    assert (Htail : q = p \/ occursIn q r = false).
    { destruct Hcase as [E|H]; [left; exact E|right; exact (occursIn_tail _ _ _ H)]. }
    destruct (matchesAt p (String c r)) eqn:M.
    + assert (E : replaceFrom p 0 (String c r) =
                  String.append "[removed]"
                    (replaceFrom p 0 (sliceFrom (String.length p - 1) r))).
      { cbn [replaceFrom]. rewrite M, replaceFrom_skip. reflexivity. }
      rewrite E. apply (occursIn_behind_marker q _ Hq).
      apply IH.
      * pose proof (length_sliceFrom (String.length p - 1) r). lia.
      * destruct Htail as [E'|H]; [left; exact E'|right].
        apply occursIn_sliceFrom. exact H.
    + assert (Hm : matchesAt q (String c r) = false).
      { destruct Hcase as [->|H]; [exact M|exact (occursIn_matchesAt _ _ H)]. }
      assert (Hout : matchesAt q (replaceFrom p 0 (String c r)) = false).
      { destruct (matchesAt q (replaceFrom p 0 (String c r))) eqn:M'; [|reflexivity].
        apply (matchesAt_replaced p q _ Hb) in M'. congruence. }
      assert (E : replaceFrom p 0 (String c r) = String c (replaceFrom p 0 r))
        by (cbn [replaceFrom]; rewrite M; reflexivity).
      rewrite E in Hout |- *. cbn [occursIn]. rewrite Hout. cbn.
      apply IH; [lia|exact Htail].
Qed.

Lemma replaceAll_clean p q text :
  plainPhrase q = true ->
  q = p \/ occursIn q text = false ->
  occursIn q (replaceAll p text) = false.
Proof.
  intros Hq H. exact (replaceFrom_clean p q Hq (String.length text) text (le_n _) H).
Qed.

Lemma replaceAll_nothing p : forall text,
  occursIn p text = false -> replaceAll p text = text.
Proof.
  unfold replaceAll. induction text as [|c r IH]; intros H; [reflexivity|].
  cbn [replaceFrom]. rewrite (occursIn_matchesAt _ _ H).
  rewrite (IH (occursIn_tail _ _ _ H)). reflexivity.
Qed.

Lemma matchesAt_sliceTo q : forall n text,
  matchesAt q (sliceTo n text) = true -> matchesAt q text = true.
Proof.
  induction q as [|a q IH]; intros n text H; [reflexivity|].
  destruct n as [|n], text as [|c r]; try (cbn in H; discriminate).
  cbn [sliceTo matchesAt] in H |- *.
  apply andb_true_iff in H. destruct H as [H1 H2].
  rewrite H1. cbn. exact (IH n r H2).
Qed.

Lemma occursIn_sliceTo q : forall text n,
  occursIn q text = false -> occursIn q (sliceTo n text) = false.
Proof.
  assert (Hm : forall n text, occursIn q text = false ->
                 matchesAt q (sliceTo n text) = false).
  { intros n text H. destruct (matchesAt q (sliceTo n text)) eqn:M; [|reflexivity].
    apply matchesAt_sliceTo in M. rewrite (occursIn_matchesAt _ _ H) in M.
    discriminate. }
  induction text as [|c r IH]; intros n H.
  - specialize (Hm n EmptyString H). destruct n; cbn [sliceTo occursIn] in *;
      rewrite Hm; reflexivity.
  - pose proof (Hm n _ H) as M. destruct n as [|n]; cbn [sliceTo occursIn] in *.
    + rewrite M. reflexivity.
    + rewrite M. cbn. apply IH. exact (occursIn_tail _ _ _ H).
Qed.

Lemma length_sliceTo n : forall text, (String.length (sliceTo n text) <= n)%nat.
Proof.
  induction n as [|n IH]; intros [|c r]; cbn [sliceTo String.length]; try lia.
  specialize (IH r). lia.
Qed.

Lemma sliceTo_short n : forall text,
  (String.length text <= n)%nat -> sliceTo n text = text.
Proof.
  induction n as [|n IH]; intros [|c r] H; cbn [String.length] in H;
    try reflexivity; try lia.
  cbn [sliceTo]. rewrite IH by lia. reflexivity.
Qed.

Lemma sanitizeForPrompt_text c r :
  sanitizeForPrompt (Some (String c r)) =
  sliceTo 500
    (replaceAll "human:"
       (replaceAll "assistant:"
          (replaceAll "system:"
             (replaceAll "disregard all"
                (replaceAll "ignore previous instructions" (String c r)))))).
Proof. reflexivity. Qed.

(** X19.  The text [sanitizeForPrompt] returns has at most 500
    characters and none of the five phrases occurs in it, in whatever
    mix of capitals and small letters: replacing one phrase never brings
    another one back.  A text of at most 500 characters in which none of
    the phrases occurs is returned as it is. *)
Theorem sanitized_text_has_no_phrase (text : option string) :
  let out := sanitizeForPrompt text in
  (String.length out <= 500)%nat /\
  (forall p, In p injectionPhrases -> occursIn p out = false) /\
  (forall t, text = Some t -> (String.length t <= 500)%nat ->
     (forall p, In p injectionPhrases -> occursIn p t = false) -> out = t).
Proof.
  cbv zeta.
  assert (Hplain : forall p, In p injectionPhrases -> plainPhrase p = true).
  { intros p Hp. repeat (destruct Hp as [<-|Hp]; [vm_compute; reflexivity|]).
    destruct Hp. }
  destruct text as [[|c r]|].
  1,3: split; [cbn; lia|]; split;
       [intros p Hp; destruct (plainPhrase_parts p (Hplain p Hp)) as (Hne & _);
        destruct p; [congruence|reflexivity]
       |intros t E _ _; first [discriminate | injection E as <-; reflexivity]].
  rewrite sanitizeForPrompt_text. set (t := String c r).
  split; [apply length_sliceTo|]. split.
  - intros p Hp. pose proof (Hplain p Hp) as Hq. apply occursIn_sliceTo.
    cbn [injectionPhrases In] in Hp.
    destruct Hp as [<-|[<-|[<-|[<-|[<-|[]]]]]].
    + do 4 (apply replaceAll_clean; [exact Hq|right]).
      apply replaceAll_clean; [exact Hq|left; reflexivity].
    + do 3 (apply replaceAll_clean; [exact Hq|right]).
      apply replaceAll_clean; [exact Hq|left; reflexivity].
    + do 2 (apply replaceAll_clean; [exact Hq|right]).
      apply replaceAll_clean; [exact Hq|left; reflexivity].
    + apply replaceAll_clean; [exact Hq|right].
      apply replaceAll_clean; [exact Hq|left; reflexivity].
    + apply replaceAll_clean; [exact Hq|left; reflexivity].
  - intros t' E Hlen Hfree. injection E as <-.
    rewrite (replaceAll_nothing "ignore previous instructions" t)
      by (apply Hfree; cbn; tauto).
    rewrite (replaceAll_nothing "disregard all" t) by (apply Hfree; cbn; tauto).
    rewrite (replaceAll_nothing "system:" t) by (apply Hfree; cbn; tauto).
    rewrite (replaceAll_nothing "assistant:" t) by (apply Hfree; cbn; tauto).
    rewrite (replaceAll_nothing "human:" t) by (apply Hfree; cbn; tauto).
    apply sliceTo_short. exact Hlen.
Qed.

Lemma sanitized_text_has_no_phrase_witness :
  occursIn "system:" (sanitizeForPrompt (Some "sySYSTEM:stem: hi")) = false /\
  sanitizeForPrompt (Some "likes dogs") = "likes dogs"%string.
Proof.
  split.
  - destruct (sanitized_text_has_no_phrase (Some "sySYSTEM:stem: hi"%string))
      as (_ & H & _).
    apply H. right; right; left; reflexivity.
  - destruct (sanitized_text_has_no_phrase (Some "likes dogs"%string))
      as (_ & _ & H).
    apply (H _ eq_refl).
    + cbn. lia.
    + intros p Hp. cbn [injectionPhrases In] in Hp.
      destruct Hp as [<-|[<-|[<-|[<-|[<-|[]]]]]]; vm_compute; reflexivity.
Defined.
